(** * droplink: the QR symbol encoder (package [qr])

    A shallow embedding of the encoder of [internal/qr] and the properties
    its specification states about it.

    Conventions of the embedding.
    - Go's [int] is modelled by [Z].  Grid coordinates, run counts and
      penalties are bounded by the dimensions of slices that exist in
      memory, so they stay inside the 64-bit range; the wrap-around is
      written out where a value comes from outside the package
      ([dataLen + 3] in [determineVersionAndErrorLevel]).
    - A [[]byte] is a [list Z] of values in [0, 256); a [[][]bool] is a
      [list (list bool)].
    - A run-time panic (index out of range, negative [make] length) is
      [None]; every function that indexes a slice returns an [option].
    - The receiver [qr *QRCode] is threaded explicitly: a method that
      mutates the symbol returns the new symbol.  The rows of a grid are
      slices of their own, as [initializeGrids] allocates them, so a grid
      is a list of rows by value. *)

From Stdlib Require Import ZArith List Bool Lia String Ascii DecimalString.
From stdpp Require Import base option list.

Open Scope Z_scope.

(** ** Integers and slices *)

Definition int_max : Z := 2 ^ 63 - 1.
Definition int_min : Z := - 2 ^ 63.

(** Two's complement wrap-around of a 64-bit [int]. *)
Definition wrap (z : Z) : Z := (z + 2 ^ 63) mod 2 ^ 64 - 2 ^ 63.

(** [len(s)] *)
Definition len {A} (s : list A) : Z := Z.of_nat (length s).

(** [s[i]]: panics when [i] is out of range. *)
Definition index {A} (s : list A) (i : Z) : option A :=
  if (i <? 0) || (len s <=? i) then None else s !! Z.to_nat i.

(** [s[i] = v]: panics when [i] is out of range. *)
Definition store {A} (s : list A) (i : Z) (v : A) : option (list A) :=
  if (i <? 0) || (len s <=? i) then None else Some (<[Z.to_nat i := v]> s).

(** [for i := lo; i < hi; i++ { body }], for a body that leaves [i] and
    [hi] alone. *)
Fixpoint forLoop {S : Type} (n : nat) (i : Z) (body : Z -> S -> option S)
    (s : S) : option S :=
  match n with
  | O => Some s
  | Datatypes.S n' => s' ← body i s; forLoop n' (i + 1) body s'
  end.

Definition for_ {S : Type} (lo hi : Z) (body : Z -> S -> option S) (s : S)
    : option S :=
  forLoop (Z.to_nat (hi - lo)) lo body s.

(** ** Data model *)

Inductive ErrorLevel : Set := Low | Medium | Quartile | High.

(** [int(el)], the value [iota] gives each constant. *)
Definition levelIndex (el : ErrorLevel) : Z :=
  match el with Low => 0 | Medium => 1 | Quartile => 2 | High => 3 end.

Record QRCode : Type := mkQRCode {
  Version : Z;
  Size : Z;
  Level : ErrorLevel;            (* the field [ErrorLevel] *)
  Mask : Z;
  Modules : list (list bool);
  IsFunction : list (list bool);
  Data : list Z
}.

Definition versionCapacity : list (list Z) :=
  [ [17; 14; 11; 7];
    [32; 26; 20; 14];
    [53; 42; 32; 24];
    [78; 62; 46; 34];
    [106; 84; 60; 44];
    [134; 106; 74; 58];
    [154; 122; 86; 64];
    [192; 152; 108; 84];
    [230; 180; 130; 98];
    [271; 213; 151; 119] ].

Definition formatInfos : list (list Z) :=
  [ [0x5412; 0x5125; 0x5E7C; 0x5B4B; 0x45F9; 0x40CE; 0x4F97; 0x4AA0];
    [0x5125; 0x5412; 0x4B6B; 0x4E5C; 0x50EE; 0x55D9; 0x5A80; 0x5FB7];
    [0x17F4; 0x1261; 0x1D38; 0x180F; 0x06BD; 0x038A; 0x0CD3; 0x09E4];
    [0x1689; 0x13BE; 0x1CE7; 0x19D0; 0x0762; 0x0255; 0x0D0C; 0x083B] ].

Definition finderPattern : list (list bool) :=
  [ [true; true; true; true; true; true; true];
    [true; false; false; false; false; false; true];
    [true; false; true; true; true; false; true];
    [true; false; true; true; true; false; true];
    [true; false; true; true; true; false; true];
    [true; false; false; false; false; false; true];
    [true; true; true; true; true; true; true] ].

(** [versionCapacity[v-1][int(el)]] *)
Definition capacity (v : Z) (el : ErrorLevel) : option Z :=
  row ← index versionCapacity (v - 1); index row (levelIndex el).

(** ** Symbol sizer *)

(** The inner loop over [{High, Quartile, Medium, Low}]: [Some (Some r)]
    when the loop returns [r] from the function, [Some None] when it runs
    to its end. *)
Fixpoint levelLoop (v requiredCapacity : Z) (els : list ErrorLevel)
    : option (option (Z * ErrorLevel)) :=
  match els with
  | [] => Some None
  | el :: els' =>
      c ← capacity v el;
      if c >=? requiredCapacity then Some (Some (v, el))
      else levelLoop v requiredCapacity els'
  end.

Definition levelOrder : list ErrorLevel := [High; Quartile; Medium; Low].

Fixpoint versionLoop (requiredCapacity : Z) (vs : list Z)
    : option (Z * ErrorLevel) :=
  match vs with
  | [] => Some (-1, Low)
  | v :: vs' =>
      r ← levelLoop v requiredCapacity levelOrder;
      match r with
      | Some res => Some res
      | None => versionLoop requiredCapacity vs'
      end
  end.

Definition determineVersionAndErrorLevel (dataLen : Z)
    : option (Z * ErrorLevel) :=
  let requiredCapacity := wrap (dataLen + 3) in
  versionLoop requiredCapacity (seqZ 1 (len versionCapacity)).

(** ** Factory *)

Inductive error : Type :=
| ErrInvalidURL (url : string)       (* "invalid URL format: %s" *)
| ErrURLTooLong (n : Z).             (* "URL too long for QR code: %d bytes" *)

(** Calls of [make], in program order. *)
Inductive event : Type :=
| MakeGrid (n : Z)                   (* [make([][]bool, n)] *)
| MakeRow (n : Z).                   (* [make([]bool, n)] *)

(** [[]byte(url)] *)
Definition bytesOf (url : string) : list Z :=
  map (fun a => Z.of_N (N_of_ascii a)) (list_ascii_of_string url).

Definition isValidURL (url : string) : bool :=
  if Z.of_nat (String.length url) =? 0 then false else true.

(** [make([]T, n)] panics on a negative length. *)
Definition make {A} (zero : A) (n : Z) : option (list A) :=
  if n <? 0 then None else Some (replicate (Z.to_nat n) zero).

Definition initializeGrids (qr : QRCode) : option (list event * QRCode) :=
  m ← make [] (Size qr);
  f ← make [] (Size qr);
  let qr0 := mkQRCode (Version qr) (Size qr) (Level qr) (Mask qr) m f (Data qr) in
  for_ 0 (Size qr)
    (fun i '(log, q) =>
       mrow ← make false (Size q);
       m' ← store (Modules q) i mrow;
       frow ← make false (Size q);
       f' ← store (IsFunction q) i frow;
       Some (log ++ [MakeRow (Size q); MakeRow (Size q)],
             mkQRCode (Version q) (Size q) (Level q) (Mask q) m' f' (Data q)))
    ([MakeGrid (Size qr); MakeGrid (Size qr)], qr0).

(** The result of [NewQRCode] with the allocations it performed: [inl] is
    the [(nil, err)] return, [inr] the [(qr, nil)] one. *)
Definition NewQRCode (url : string) : option (list event * (error + QRCode)) :=
  if negb (isValidURL url) then Some ([], inl (ErrInvalidURL url))
  else
    let data := bytesOf url in
    '(version, errorLevel) ← determineVersionAndErrorLevel (len data);
    if version =? -1 then Some ([], inl (ErrURLTooLong (len data)))
    else
      let size := 21 + (version - 1) * 4 in
      let qr := mkQRCode version size errorLevel 0 [] [] data in
      '(log, qr') ← initializeGrids qr;
      Some (log, inr qr').

(** ** Grid helpers *)

(** [for _, a := range l { body }] *)
Fixpoint forEach {A S : Type} (l : list A) (body : A -> S -> option S) (s : S)
    : option S :=
  match l with
  | [] => Some s
  | a :: l' => s' ← body a s; forEach l' body s'
  end.

(** [for cond { body }].  The fuel bounds the number of iterations; each
    use passes a bound that its loop cannot exceed (8 rounds to reach a
    byte boundary, one round per 8 bits up to [maxBits], one round per
    column pair), and the lemmas [padToByte_spec], [padLoop_rounds] and
    [addDataCols_total] show that the loops end before their fuel does. *)
Fixpoint while {S : Type} (fuel : nat) (cond : S -> bool)
    (body : S -> option S) (s : S) : option S :=
  match fuel with
  | O => None
  | Datatypes.S fuel' =>
      if cond s then s' ← body s; while fuel' cond body s' else Some s
  end.

(** [g[y][x]] *)
Definition index2 (g : list (list bool)) (y x : Z) : option bool :=
  row ← index g y; index row x.

(** [g[y][x] = v].  Every row of a grid is a slice of its own
    ([initializeGrids] allocates each), so a write changes one cell of one
    row. *)
Definition store2 (g : list (list bool)) (y x : Z) (v : bool)
    : option (list (list bool)) :=
  row ← index g y; row' ← store row x v; store g y row'.

Definition withModules (qr : QRCode) (m : list (list bool)) : QRCode :=
  mkQRCode (Version qr) (Size qr) (Level qr) (Mask qr) m (IsFunction qr) (Data qr).

Definition withIsFunction (qr : QRCode) (f : list (list bool)) : QRCode :=
  mkQRCode (Version qr) (Size qr) (Level qr) (Mask qr) (Modules qr) f (Data qr).

Definition withMask (qr : QRCode) (mask : Z) : QRCode :=
  mkQRCode (Version qr) (Size qr) (Level qr) mask (Modules qr) (IsFunction qr) (Data qr).

Definition inBounds (qr : QRCode) (x y : Z) : bool :=
  (x >=? 0) && (x <? Size qr) && (y >=? 0) && (y <? Size qr).

Definition setModule (x y : Z) (value : bool) (qr : QRCode) : option QRCode :=
  if inBounds qr x y then
    m ← store2 (Modules qr) y x value; Some (withModules qr m)
  else Some qr.

Definition setFunction (x y : Z) (value : bool) (qr : QRCode) : option QRCode :=
  if inBounds qr x y then
    f ← store2 (IsFunction qr) y x value; Some (withIsFunction qr f)
  else Some qr.

Definition getDataCapacity (qr : QRCode) : option Z :=
  if (Version qr >? len versionCapacity) || (Version qr <? 1) then Some 0
  else capacity (Version qr) (Level qr).

(** [((value >> i) & 1) != 0] *)
Definition bitAt (value i : Z) : bool :=
  negb (Z.land (Z.shiftr value i) 1 =? 0).

Definition intToBits (value length : Z) : option (list bool) :=
  bits ← make false length;
  for_ 0 length
    (fun i bits => store bits (length - 1 - i) (bitAt value i)) bits.

Definition min (a b : Z) : Z := if a <? b then a else b.

(** ** Pattern placer *)

Definition finderOrigins (qr : QRCode) : list (Z * Z) :=
  [(0, 0); (Size qr - 7, 0); (0, Size qr - 7)].

Definition addFinderPatterns (qr : QRCode) : option QRCode :=
  forEach (finderOrigins qr)
    (fun pos =>
       for_ 0 7 (fun dy =>
         for_ 0 7 (fun dx q =>
           let x := fst pos + dx in
           let y := snd pos + dy in
           if inBounds q x y then
             v ← index2 finderPattern dy dx;
             q1 ← setModule x y v q;
             setFunction x y true q1
           else Some q)))
    qr.

Definition addSeparators (qr : QRCode) : option QRCode :=
  forEach (finderOrigins qr)
    (fun pos =>
       for_ (-1) 8 (fun dy =>
         for_ (-1) 8 (fun dx q =>
           let x := fst pos + dx in
           let y := snd pos + dy in
           if inBounds q x y
              && ((dx =? -1) || (dx =? 7) || (dy =? -1) || (dy =? 7)) then
             q1 ← setModule x y false q;
             setFunction x y true q1
           else Some q)))
    qr.

Definition addTimingPatterns (qr : QRCode) : option QRCode :=
  for_ 8 (Size qr - 8)
    (fun i q =>
       q1 ← setModule i 6 (Z.rem i 2 =? 0) q;
       q2 ← setModule 6 i (Z.rem i 2 =? 0) q1;
       q3 ← setFunction i 6 true q2;
       setFunction 6 i true q3)
    qr.

(** The [map[int][]int] literal of [addAlignmentPatterns], as the list of
    its entries; [alignmentLookup] is the two-valued map read. *)
Definition alignmentPositions : list (Z * list Z) :=
  [ (2, [6; 18]); (3, [6; 22]); (4, [6; 26]); (5, [6; 30]); (6, [6; 34]);
    (7, [6; 22; 38]); (8, [6; 24; 42]); (9, [6; 26; 46]); (10, [6; 28; 50]) ].

Definition alignmentLookup (v : Z) : option (list Z) :=
  snd <$> List.find (fun e => fst e =? v) alignmentPositions.

Definition addAlignmentPatterns (qr : QRCode) : option QRCode :=
  if Version qr =? 1 then Some qr
  else
    match alignmentLookup (Version qr) with
    | None => Some qr
    | Some positions =>
        forEach positions (fun centerY =>
          forEach positions (fun centerX q =>
            if ((centerX <=? 10) && (centerY <=? 10))
               || ((centerX >=? Size q - 10) && (centerY <=? 10))
               || ((centerX <=? 10) && (centerY >=? Size q - 10))
            then Some q
            else
              for_ (-2) 3 (fun dy =>
                for_ (-2) 3 (fun dx q' =>
                  let x := centerX + dx in
                  let y := centerY + dy in
                  if inBounds q' x y then
                    let module := (dx =? -2) || (dx =? 2) || (dy =? -2)
                                  || (dy =? 2) || ((dx =? 0) && (dy =? 0)) in
                    q1 ← setModule x y module q';
                    setFunction x y true q1
                  else Some q')) q))
          qr
    end.

(** ** Format-information embedder *)

Definition formatStep (formatInfo : Z) (i : Z) (qr : QRCode) : option QRCode :=
  let bit := bitAt formatInfo i in
  if i <? 6 then
    q1 ← setModule 8 i bit qr;
    q2 ← setModule i 8 bit q1;
    q3 ← setFunction 8 i true q2;
    setFunction i 8 true q3
  else if i =? 6 then
    q1 ← setModule 8 7 bit qr;
    q2 ← setModule 7 8 bit q1;
    q3 ← setFunction 8 7 true q2;
    setFunction 7 8 true q3
  else if i =? 7 then
    q1 ← setModule 8 8 bit qr;
    setFunction 8 8 true q1
  else if i =? 8 then
    q1 ← setModule 7 8 bit qr;
    setFunction 7 8 true q1
  else
    q1 ← setModule (14 - i) 8 bit qr;
    q2 ← setModule 8 (Size q1 - 15 + i) bit q1;
    q3 ← setFunction (14 - i) 8 true q2;
    setFunction 8 (Size q3 - 15 + i) true q3.

(** The [for i := 0; i < 15; i++] loop of [addFormatInfo]. *)
Definition formatLoop (qr : QRCode) : option QRCode :=
  row ← index formatInfos (levelIndex (Level qr));
  formatInfo ← index row (Mask qr);
  for_ 0 15 (formatStep formatInfo) qr.

(** The two statements after the loop: the dark module. *)
Definition darkModule (qr : QRCode) : option QRCode :=
  q1 ← setModule 8 (Size qr - 8) true qr;
  setFunction 8 (Size q1 - 8) true q1.

Definition addFormatInfo (qr : QRCode) : option QRCode :=
  q ← formatLoop qr; darkModule q.

(** ** Byte-mode encoder *)

(** [for len(bits)%8 != 0 { bits = append(bits, false) }] *)
Definition padToByte (bits : list bool) : option (list bool) :=
  while 8 (fun bits => negb (Z.rem (len bits) 8 =? 0))
    (fun bits => Some (bits ++ [false])) bits.

Definition padBytes : list Z := [0xEC; 0x11].

(** The padding loop; its state is [(bits, padIndex)]. *)
Definition padLoop (maxBits : Z) (bits : list bool) : option (list bool * Z) :=
  while (Z.to_nat maxBits + 1)
    (fun st => len (fst st) <? maxBits)
    (fun st =>
       padByte ← index padBytes (Z.rem (snd st) 2);
       b ← intToBits padByte 8;
       Some (fst st ++ b, snd st + 1))
    (bits, 0).

(** [bytes[i] |= 1 << (7 - j)] for every set bit. *)
Definition packBits (bits : list bool) : option (list Z) :=
  bytes ← make 0 (Z.quot (len bits) 8);
  for_ 0 (len bytes)
    (fun i =>
       for_ 0 8 (fun j bytes =>
         b ← index bits (i * 8 + j);
         if b : bool then
           old ← index bytes i;
           store bytes i (Z.lor old (Z.shiftl 1 (7 - j)))
         else Some bytes))
    bytes.

Definition encodeData (qr : QRCode) : option (list Z) :=
  let data := Data qr in
  let modeBits := [false; true; false; false] in
  let bits := [] ++ modeBits in
  lengthBits ← intToBits (len data) 8;
  let bits := bits ++ lengthBits in
  bits ← forEach data (fun b bits => bb ← intToBits b 8; Some (bits ++ bb)) bits;
  cap ← getDataCapacity qr;
  let maxBits := cap * 8 in
  let terminatorLength := min 4 (maxBits - len bits) in
  bits ← for_ 0 terminatorLength (fun _ bits => Some (bits ++ [false])) bits;
  bits ← padToByte bits;
  '(bits, _) ← padLoop maxBits bits;
  packBits bits.

(** ** Data placer *)

(** The body of the innermost loop of [addData] at the cell [(x, y)]; the
    state is [(bitIndex, qr)]. *)
Definition addDataCell (data : list Z) (totalBits x y : Z) (st : Z * QRCode)
    : option (Z * QRCode) :=
  let '(bitIndex, qr) := st in
  if inBounds qr x y then
    f ← index2 (IsFunction qr) y x;
    if negb f then
      if bitIndex <? totalBits then
        let byteIndex := Z.quot bitIndex 8 in
        let bitPos := 7 - Z.rem bitIndex 8 in
        d ← index data byteIndex;
        let bit := negb (Z.land d (Z.shiftl 1 bitPos) =? 0) in
        q ← setModule x y bit qr;
        Some (bitIndex + 1, q)
      else
        q ← setModule x y false qr;
        Some (bitIndex, q)
    else Some st
  else Some st.

(** One pass of the column loop, from the test [col >= 0] on; the loop
    variable is changed inside the body, hence the fuel. *)
Fixpoint addDataCols (fuel : nat) (data : list Z) (totalBits col : Z)
    (st : Z * QRCode) : option (Z * QRCode) :=
  match fuel with
  | O => None
  | Datatypes.S fuel' =>
      if col >=? 0 then
        let col := if col =? 6 then col - 1 else col in
        let size := Size (snd st) in
        let upward := Z.rem (Z.quot (size - 1 - col) 2) 2 =? 0 in
        st' ← for_ 0 size
                (fun i =>
                   let row := if upward then size - 1 - i else i in
                   for_ 0 2 (fun c => addDataCell data totalBits (col - c) row))
                st;
        addDataCols fuel' data totalBits (col - 2) st'
      else Some st
  end.

Definition addData (data : list Z) (qr : QRCode) : option QRCode :=
  let totalBits := len data * 8 in
  snd <$> addDataCols (Z.to_nat (Size qr) + 1) data totalBits (Size qr - 1) (0, qr).

(** ** Mask evaluator and applier *)

Definition shouldMask (x y mask : Z) : bool :=
  if mask =? 0 then Z.rem (x + y) 2 =? 0
  else if mask =? 1 then Z.rem y 2 =? 0
  else if mask =? 2 then Z.rem x 3 =? 0
  else if mask =? 3 then Z.rem (x + y) 3 =? 0
  else if mask =? 4 then Z.rem (Z.quot y 2 + Z.quot x 3) 2 =? 0
  else if mask =? 5 then Z.rem (x * y) 2 + Z.rem (x * y) 3 =? 0
  else if mask =? 6 then Z.rem (Z.rem (x * y) 2 + Z.rem (x * y) 3) 2 =? 0
  else if mask =? 7 then Z.rem (Z.rem (x + y) 2 + Z.rem (x * y) 3) 2 =? 0
  else false.

(** The body of [applyMask] at the cell [(x, y)]. *)
Definition maskCell (mask y x : Z) (qr : QRCode) : option QRCode :=
  f ← index2 (IsFunction qr) y x;
  if negb f && shouldMask x y mask then
    m ← index2 (Modules qr) y x;
    m' ← store2 (Modules qr) y x (negb m);
    Some (withModules qr m')
  else Some qr.

Definition applyMask (mask : Z) (qr : QRCode) : option QRCode :=
  for_ 0 (Size qr) (fun y q => for_ 0 (Size q) (maskCell mask y) q) qr.

(** The value [count >= 5] adds to the penalty when a run ends. *)
Definition closeRun (count penalty : Z) : Z :=
  if count >=? 5 then penalty + (3 + (count - 5)) else penalty.

(** The scan of row [y]; the state is [(count, penalty)]. *)
Definition penaltyRow (qr : QRCode) (y : Z) (penalty : Z) : option Z :=
  '(count, penalty) ←
    for_ 1 (Size qr)
      (fun x '(count, penalty) =>
         a ← index2 (Modules qr) y x;
         b ← index2 (Modules qr) y (x - 1);
         if Bool.eqb a b then Some (count + 1, penalty)
         else Some (1, closeRun count penalty))
      (1, penalty);
  Some (closeRun count penalty).

Definition calculatePenalty (qr : QRCode) : option Z :=
  for_ 0 (Size qr) (penaltyRow qr) 0.

Definition MaxInt32 : Z := 2147483647.

(** The state of the loop of [findBestMask] is
    [(bestMask, bestPenalty, qr)]. *)
Definition findBestMask (qr : QRCode) : option (Z * QRCode) :=
  '(bestMask, _, q) ←
    for_ 0 8
      (fun mask '(bestMask, bestPenalty, q) =>
         q1 ← applyMask mask q;
         penalty ← calculatePenalty q1;
         q2 ← applyMask mask q1;
         if penalty <? bestPenalty then Some (mask, penalty, q2)
         else Some (bestMask, bestPenalty, q2))
      (0, MaxInt32, qr);
  Some (bestMask, q).

(** ** The pipeline *)

Inductive genError : Type :=
| ErrNotInitialized                  (* "QR code grids not properly initialized" *)
| ErrSizeMismatch (size m f : Z).    (* "QR code size mismatch: ..." *)

(** [Generate].  A [nil] slice is the empty list here; [encodeData] never
    returns an error, so the "data encoding failed" branch has no
    counterpart. *)
Definition Generate (qr : QRCode) : option (genError + QRCode) :=
  match Modules qr, IsFunction qr with
  | [], _ | _, [] => Some (inl ErrNotInitialized)
  | _, _ =>
      if negb (len (Modules qr) =? Size qr) || negb (len (IsFunction qr) =? Size qr)
      then Some (inl (ErrSizeMismatch (Size qr) (len (Modules qr)) (len (IsFunction qr))))
      else
        q ← addFinderPatterns qr;
        q ← addSeparators q;
        q ← addTimingPatterns q;
        q ← addAlignmentPatterns q;
        encodedData ← encodeData q;
        q ← addData encodedData q;
        '(mask, q) ← findBestMask q;
        let q := withMask q mask in
        q ← applyMask (Mask q) q;
        q ← addFormatInfo q;
        Some (inr q)
  end.

(** ** Vocabulary of the specification *)

(** *** Well-formed symbols and their cells *)

(** [g] is an [n] by [n] grid. *)
Definition square (n : Z) (g : list (list bool)) : bool :=
  (len g =? n) && forallb (fun row => len row =? n) g.

(** Both grids of the symbol have the dimensions [Size] announces, as
    after [initializeGrids]. *)
Definition wellFormed (qr : QRCode) : bool :=
  square (Size qr) (Modules qr) && square (Size qr) (IsFunction qr).

(** The cell at column [x], row [y]. *)
Definition moduleAt (qr : QRCode) (x y : Z) : option bool :=
  index2 (Modules qr) y x.

Definition functionAt (qr : QRCode) (x y : Z) : option bool :=
  index2 (IsFunction qr) y x.

(** An [n] by [n] grid of light cells. *)
Definition blankGrid (n : Z) : list (list bool) :=
  replicate (Z.to_nat n) (replicate (Z.to_nat n) false).

(** *** The sizer *)

(** [a] gives more recovery than [b]. *)
Definition stronger (a b : ErrorLevel) : Prop := levelIndex b < levelIndex a.

(** What one pass over the four levels yields. *)
Definition levelLoop_post (v req : Z) (r : option (Z * ErrorLevel)) : Prop :=
  match r with
  | Some (v', el) =>
      v' = v /\ (exists c, capacity v el = Some c /\ req <= c) /\
      (forall el' c', stronger el' el -> capacity v el' = Some c' -> c' < req)
  | None => forall el' c', capacity v el' = Some c' -> c' < req
  end.

(** What the search over the versions [lo, lo + n) yields. *)
Definition versionLoop_post (lo hi req : Z) (r : Z * ErrorLevel) : Prop :=
  let '(v, el) := r in
  (v = -1 /\ el = Low /\
   forall v' el' c', lo <= v' < hi -> capacity v' el' = Some c' -> c' < req)
  \/
  (lo <= v < hi /\ (exists c, capacity v el = Some c /\ req <= c) /\
   (forall v' el' c', lo <= v' < v -> capacity v' el' = Some c' -> c' < req) /\
   (forall el' c', stronger el' el -> capacity v el' = Some c' -> c' < req)).

(** *** Masks *)

(** The value mask [mask] gives the cell [(x, y)]: the cell is toggled
    when it is not a function cell and the predicate of the mask holds. *)
Definition maskedAt (qr : QRCode) (mask x y : Z) : option bool :=
  b ← moduleAt qr x y; f ← functionAt qr x y;
  Some (xorb b (negb f && shouldMask x y mask)).

(** The cells a row-major scan of an [n] by [n] grid has visited when it
    stands at column [x] of row [y]. *)
Definition scanned (n y x x' y' : Z) : Prop :=
  (0 <= y' < y /\ 0 <= x' < n) \/ (y' = y /\ 0 <= x' < x).

(** The state of [applyMask mask] on the symbol [qr] when the scan stands
    at [(x, y)]. *)
Definition scanInv (qr : QRCode) (mask y x : Z) (q : QRCode) : Prop :=
  wellFormed q = true /\ q = withModules qr (Modules q) /\
  forall x' y',
    (scanned (Size qr) y x x' y' -> moduleAt q x' y' = maskedAt qr mask x' y') /\
    (~ scanned (Size qr) y x x' y' -> moduleAt q x' y' = moduleAt qr x' y').

(** The penalty [findBestMask] scores candidate [mask] with. *)
Definition maskedPenalty (qr : QRCode) (mask : Z) : option Z :=
  q ← applyMask mask qr; calculatePenalty q.

(** The state [(bestMask, bestPenalty, q)] of the loop of [findBestMask]
    on the symbol [qr] when candidates [0 .. k-1] have been scored. *)
Definition bestSoFar (qr : QRCode) (k : Z) (st : Z * Z * QRCode) : Prop :=
  let '(bestMask, bestPenalty, q) := st in
  q = qr /\ 0 <= bestMask /\ (bestMask < k \/ bestMask = 0) /\
  (forall j p, 0 <= j < k -> maskedPenalty qr j = Some p -> bestPenalty <= p) /\
  ((bestPenalty = MaxInt32 /\ bestMask = 0) \/
   (maskedPenalty qr bestMask = Some bestPenalty /\ bestPenalty < MaxInt32 /\
    forall j p, 0 <= j < bestMask -> maskedPenalty qr j = Some p -> bestPenalty < p)).

(** *** The reference penalty *)

(** The maximal runs of equal values of a row, left to right, each with
    its value and its length. *)
Fixpoint runs (row : list bool) : list (bool * Z) :=
  match row with
  | [] => []
  | b :: row' =>
      match runs row' with
      | (b', n) :: rs => if Bool.eqb b b' then (b, n + 1) :: rs
                         else (b, 1) :: (b', n) :: rs
      | [] => [(b, 1)]
      end
  end.

Definition sumZ (l : list Z) : Z := fold_right Z.add 0 l.

(** Reference row-run score, after the words of the specification: a run
    of length at least 5 contributes [3 + (runLength - 5)]. *)
Definition runScore (runLength : Z) : Z :=
  if 5 <=? runLength then 3 + (runLength - 5) else 0.

Definition rowScore (row : list bool) : Z :=
  sumZ (map (fun r => runScore (snd r)) (runs row)).

Definition referencePenalty (g : list (list bool)) : Z :=
  sumZ (map rowScore g).

(** The scan of [penaltyRow] over the cells [rest] that follow a cell of
    value [prev]; the state is [(count, penalty)]. *)
Fixpoint scanRun (prev : bool) (rest : list bool) (st : Z * Z) : Z * Z :=
  match rest with
  | [] => st
  | b :: rest' =>
      scanRun b rest'
        (if Bool.eqb b prev then (fst st + 1, snd st)
         else (1, closeRun (fst st) (snd st)))
  end.

(** [c] cells of value [b] put in front of a row with runs [rs]. *)
Definition headRun (b : bool) (c : Z) (rs : list (bool * Z)) : list (bool * Z) :=
  match rs with
  | (b', n) :: rs' => if Bool.eqb b b' then (b, n + c) :: rs' else (b, c) :: rs
  | [] => [(b, c)]
  end.

Definition sumScores (rs : list (bool * Z)) : Z :=
  sumZ (map (fun r => runScore (snd r)) rs).

(** *** The data placer *)

(** The state [(bitIndex, q)] of [addData] on the symbol [qr]: only
    [Modules] has changed, and no cell that [qr] marks as function. *)
Definition placing (qr : QRCode) (st : Z * QRCode) : Prop :=
  let '(bitIndex, q) := st in
  0 <= bitIndex /\ wellFormed q = true /\ q = withModules qr (Modules q) /\
  forall x y, functionAt qr x y = Some true -> moduleAt q x y = moduleAt qr x y.

(** *** Format information *)

(** [formatInfos[int(el)][mask]] *)
Definition formatConstant (el : ErrorLevel) (mask : Z) : option Z :=
  row ← index formatInfos (levelIndex el); index row mask.

(** The cells [(x, y)] that iteration [i] of the loop of [addFormatInfo]
    writes on a symbol of size [n]. *)
Definition formatWrites (n i : Z) : list (Z * Z) :=
  if i <? 6 then [(8, i); (i, 8)]
  else if i =? 6 then [(8, 7); (7, 8)]
  else if i =? 7 then [(8, 8)]
  else if i =? 8 then [(7, 8)]
  else [(14 - i, 8); (8, n - 15 + i)].

(** [(x, y)] is one of [cells]. *)
Definition writes (cells : list (Z * Z)) (x y : Z) : bool :=
  existsb (fun c => (x =? fst c) && (y =? snd c)) cells.

(** The content of the cell [(x, y)] after the iterations [0 .. k-1],
    each iteration [i] storing [val i] in the cells it writes: the last
    write wins. *)
Fixpoint cellAfter {A : Type} (n : Z) (val : Z -> A) (k : nat) (x y : Z)
    (orig : option A) : option A :=
  match k with
  | O => orig
  | Datatypes.S k' =>
      if writes (formatWrites n (Z.of_nat k')) x y then Some (val (Z.of_nat k'))
      else cellAfter n val k' x y orig
  end.

(** Every cell [addFormatInfo] writes on a symbol of size [n]. *)
Definition formatCells (n : Z) : list (Z * Z) :=
  flat_map (formatWrites n) (seqZ 0 15) ++ [(8, n - 8)].

(** [q'] is [q] with [v] stored in [cells] and these cells marked
    function. *)
Definition stored (cells : list (Z * Z)) (v : bool) (q q' : QRCode) : Prop :=
  wellFormed q' = true /\ Size q' = Size q /\
  (forall x y, moduleAt q' x y
               = if writes cells x y then Some v else moduleAt q x y) /\
  (forall x y, functionAt q' x y
               = if writes cells x y then Some true else functionAt q x y).

(** The symbol when the iterations [0 .. k-1] of the loop of
    [addFormatInfo] have run on [qr] with the format constant [f]. *)
Definition fmtInv (qr : QRCode) (f k : Z) (q : QRCode) : Prop :=
  wellFormed q = true /\ Size q = Size qr /\
  (forall x y, moduleAt q x y
     = cellAfter (Size qr) (bitAt f) (Z.to_nat k) x y (moduleAt qr x y)) /\
  (forall x y, functionAt q x y
     = cellAfter (Size qr) (fun _ => true) (Z.to_nat k) x y (functionAt qr x y)).

(** *** Bit streams *)

(** The [n] low bits of [value], most significant first. *)
Definition msbBits (value : Z) (n : nat) : list bool :=
  map (fun i => Z.testbit value (Z.of_nat i)) (rev (seq 0 n)).

Definition byteBits (b : Z) : list bool := msbBits b 8.

(** The bits of a byte sequence, each byte most significant bit first. *)
Definition bitsOfBytes (bytes : list Z) : list bool := flat_map byteBits bytes.

(** The number a bit string denotes, most significant bit first. *)
Definition bitsValue (bits : list bool) : Z :=
  fold_left (fun acc (b : bool) => 2 * acc + (if b then 1 else 0)) bits 0.

(** The [k]-th byte of the pattern [0xEC, 0x11, 0xEC, ...]. *)
Definition padPattern (k : nat) : Z := if Nat.even k then 0xEC else 0x11.

(** Reference bitstream of the byte-mode encoder for capacity [cap], after
    the six steps of the specification. *)
Definition referenceStream (cap : Z) (data : list Z) : list bool :=
  let header := [false; true; false; false] ++ msbBits (len data) 8 in
  let payload := header ++ flat_map byteBits data in
  let terminated :=
    payload ++ replicate (Z.to_nat (Z.min 4 (cap * 8 - len payload))) false in
  let aligned :=
    terminated ++ replicate (Z.to_nat ((8 - len terminated mod 8) mod 8)) false in
  aligned
  ++ flat_map byteBits
       (map padPattern (seq 0 (Z.to_nat ((cap * 8 - len aligned) / 8)))).

(** All values of a byte sequence are in range. *)
Definition isBytes (bytes : list Z) : Prop := Forall (fun b => 0 <= b < 256) bytes.

(** The byte the inner loop of [packBits] builds from the bits [chunk],
    the first of which has index [j] in the byte, starting from [cur]. *)
Fixpoint packChunk (chunk : list bool) (j : Z) (cur : Z) : Z :=
  match chunk with
  | [] => cur
  | b :: rest =>
      packChunk rest (j + 1) (if b then Z.lor cur (Z.shiftl 1 (7 - j)) else cur)
  end.

(** *** Sample symbols *)

(** The symbol [NewQRCode] returns for [url], if any. *)
Definition symbolOf (url : string) : option QRCode :=
  r ← NewQRCode url;
  match snd r with inr qr => Some qr | inl _ => None end.

(** A 21 by 21 symbol with empty grids, error level [Low] and mask 0. *)
Definition blank21 : QRCode :=
  mkQRCode 1 21 Low 0 (replicate 21 (replicate 21 false))
    (replicate 21 (replicate 21 false)) [].

Definition localhost : string := "http://localhost:8080".

(** The symbol [NewQRCode] returns for [localhost]. *)
Definition localhostSymbol : QRCode := default blank21 (symbolOf localhost).

(** A payload of 260 bytes. *)
Definition longPayload : string :=
  string_of_list_ascii (repeat "a"%char 260).

(** The symbol of [Generate] for [url] when the four pattern placers have
    run. *)
Definition patternsPlaced (url : string) : option QRCode :=
  q ← symbolOf url;
  q ← addFinderPatterns q;
  q ← addSeparators q;
  q ← addTimingPatterns q;
  addAlignmentPatterns q.

(** The same symbol when [addData] has run: patterns placed, data encoded
    and placed, no mask applied yet. *)
Definition dataPlaced (url : string) : option QRCode :=
  q ← symbolOf url;
  q ← addFinderPatterns q;
  q ← addSeparators q;
  q ← addTimingPatterns q;
  q ← addAlignmentPatterns q;
  encodedData ← encodeData q;
  addData encodedData q.

Definition samplePatterns : QRCode := default blank21 (patternsPlaced localhost).

Definition sampleSymbol : QRCode := default blank21 (dataPlaced localhost).

(** Five rows that alternate along the row and are constant down every
    column. *)
Definition stripes : QRCode :=
  mkQRCode 1 5 Low 0 (replicate 5 [true; false; true; false; true])
    (replicate 5 (replicate 5 false)) [].

(** What [Generate] makes of the symbol [NewQRCode] returns for [url]:
    version, level, mask, well-formedness and the dark module. *)
Definition generated (url : string)
    : option (Z * ErrorLevel * Z * bool * option bool) :=
  q ← symbolOf url;
  r ← Generate q;
  match r with
  | inr q' => Some (Version q', Level q', Mask q', wellFormed q',
                    moduleAt q' 8 (Size q' - 8))
  | inl _ => None
  end.

(** *** Painted cells *)

(** [q'] has the header fields of [q]. *)
Definition sameHeader (q q' : QRCode) : Prop :=
  Version q' = Version q /\ Size q' = Size q /\ Level q' = Level q /\
  Mask q' = Mask q /\ Data q' = Data q.

(** [q'] is [q] where every cell [(x, y)] with [paint x y = Some v] holds
    [v] and is marked function; all other cells of both grids, and the
    header, are those of [q]. *)
Definition paints (paint : Z -> Z -> option bool) (q q' : QRCode) : Prop :=
  wellFormed q' = true /\ sameHeader q q' /\
  (forall x y, moduleAt q' x y
     = match paint x y with Some v => Some v | None => moduleAt q x y end) /\
  (forall x y, functionAt q' x y
     = match paint x y with Some _ => Some true | None => functionAt q x y end).

(** The paint [p2] laid over the paint [p1]. *)
Definition over (p2 p1 : Z -> Z -> option bool) (x y : Z) : option bool :=
  match p2 x y with Some v => Some v | None => p1 x y end.

Definition noPaint (x y : Z) : option bool := None.

(** The single cell [(x0, y0)] painted [v]. *)
Definition dot (x0 y0 : Z) (v : bool) (x y : Z) : option bool :=
  if (x =? x0) && (y =? y0) then Some v else None.

(** The loop body the pattern placers share: the cell at offset
    [(dx, dy)] of [(px, py)] is set to [val dx dy] and marked function
    when it is in bounds and selected. *)
Definition stampCell (px py : Z) (sel val : Z -> Z -> bool) (dy dx : Z)
    (q : QRCode) : option QRCode :=
  if inBounds q (px + dx) (py + dy) && sel dx dy then
    q1 ← setModule (px + dx) (py + dy) (val dx dy) q;
    setFunction (px + dx) (py + dy) true q1
  else Some q.

(** What a row-major scan of the offsets [lo .. hi-1] in both directions
    has painted on a symbol of size [n] when it stands at offset
    [(dxc, dyc)]. *)
Definition stampPaint (n px py lo hi : Z) (sel val : Z -> Z -> bool)
    (dyc dxc : Z) (x y : Z) : option bool :=
  if (((lo <=? y - py) && (y - py <? dyc) && (lo <=? x - px) && (x - px <? hi))
      || ((y - py =? dyc) && (lo <=? x - px) && (x - px <? dxc)))
     && (0 <=? x) && (x <? n) && (0 <=? y) && (y <? n)
     && sel (x - px) (y - py)
  then Some (val (x - px) (y - py)) else None.

(** The whole stamp: the offsets [lo .. hi-1] in both directions. *)
Definition stamp (n px py lo hi : Z) (sel val : Z -> Z -> bool) (x y : Z)
    : option bool :=
  if (lo <=? y - py) && (y - py <? hi) && (lo <=? x - px) && (x - px <? hi)
     && (0 <=? x) && (x <? n) && (0 <=? y) && (y <? n)
     && sel (x - px) (y - py)
  then Some (val (x - px) (y - py)) else None.

(** *** The pattern placers *)

(** The paints [P a] of the elements of [l], laid one over the other in
    the order of the list. *)
Definition layers {A : Type} (P : A -> Z -> Z -> option bool) (l : list A)
    : Z -> Z -> option bool :=
  fold_left (fun p a => over (P a) p) l noPaint.

(** The finder template at offset [(dx, dy)] of its origin. *)
Definition finderBit (dx dy : Z) : bool :=
  default false (index2 finderPattern dy dx).

Definition always (dx dy : Z) : bool := true.

(** The finder pattern with origin [pos] on a symbol of size [n]. *)
Definition finderStamp (n : Z) (pos : Z * Z) : Z -> Z -> option bool :=
  stamp n (fst pos) (snd pos) 0 7 always finderBit.

(** The ring around the 7 by 7 area: offsets -1 and 7. *)
Definition ring (dx dy : Z) : bool :=
  (dx =? -1) || (dx =? 7) || (dy =? -1) || (dy =? 7).

Definition light (dx dy : Z) : bool := false.

Definition separatorStamp (n : Z) (pos : Z * Z) : Z -> Z -> option bool :=
  stamp n (fst pos) (snd pos) (-1) 8 ring light.

(** The three origins on a symbol of size [n]. *)
Definition origins (n : Z) : list (Z * Z) := [(0, 0); (n - 7, 0); (0, n - 7)].

(** The timing cells written when the loop of [addTimingPatterns] stands
    at index [k]: row 6 and column 6 from index 8 on, dark at even
    indices. *)
Definition timingPaint (k : Z) (x y : Z) : option bool :=
  if (y =? 6) && (8 <=? x) && (x <? k) then Some (Z.rem x 2 =? 0)
  else if (x =? 6) && (8 <=? y) && (y <? k) then Some (Z.rem y 2 =? 0)
  else None.

(** The alignment template at offset [(dx, dy)] of its centre: a dark
    ring, a light ring, a dark centre. *)
Definition alignBit (dx dy : Z) : bool :=
  (dx =? -2) || (dx =? 2) || (dy =? -2) || (dy =? 2) || ((dx =? 0) && (dy =? 0)).

(** The test of [addAlignmentPatterns] that leaves a centre out. *)
Definition skipsCentre (n centerX centerY : Z) : bool :=
  ((centerX <=? 10) && (centerY <=? 10))
  || ((centerX >=? n - 10) && (centerY <=? 10))
  || ((centerX <=? 10) && (centerY >=? n - 10)).

(** What the centre [(centerX, centerY)], given as the pair
    [(centerY, centerX)] of the loop variables, paints. *)
Definition alignStamp (n : Z) (c : Z * Z) : Z -> Z -> option bool :=
  if skipsCentre n (snd c) (fst c) then noPaint
  else stamp n (snd c) (fst c) (-2) 3 always alignBit.

(** The positions of the version, none when the version has no entry or
    is 1. *)
Definition positionsOf (v : Z) : list Z :=
  if v =? 1 then [] else default [] (alignmentLookup v).

(** The three 8 by 8 corners of a symbol of size [n]: finder areas with
    their separators. *)
Definition inCorner (n x y : Z) : Prop :=
  (x <= 7 /\ y <= 7) \/ (n - 8 <= x /\ y <= 7) \/ (x <= 7 /\ n - 8 <= y).

(** *** The stages of [Generate] *)

(** The symbols [Generate] goes through on [qr]: after each of the four
    pattern placers ([q1] to [q4]), after [addData] ([q5]), after the
    final [applyMask] with the selected mask [bm] ([q7]) and after
    [addFormatInfo] ([q8]); [bytes] is the encoded data. *)
Definition pipelineStages (qr q1 q2 q3 q4 q5 q7 q8 : QRCode) (bytes : list Z)
    (bm : Z) : Prop :=
  let n := Size qr in
  let ps := positionsOf (Version qr) in
  (addFinderPatterns qr = Some q1 /\
   paints (layers (finderStamp n) (origins n)) qr q1) /\
  (addSeparators q1 = Some q2 /\
   paints (layers (separatorStamp n) (origins n)) q1 q2) /\
  (addTimingPatterns q2 = Some q3 /\ paints (timingPaint (n - 8)) q2 q3) /\
  (addAlignmentPatterns q3 = Some q4 /\
   paints (layers (alignStamp n) (list_prod ps ps)) q3 q4) /\
  encodeData q4 = Some bytes /\
  (addData bytes q4 = Some q5 /\ placing q4 (len bytes * 8, q5)) /\
  (findBestMask q5 = Some (bm, q5) /\ 0 <= bm <= 7) /\
  (applyMask bm (withMask q5 bm) = Some q7 /\ wellFormed q7 = true /\
   q7 = withModules (withMask q5 bm) (Modules q7) /\
   forall x y, 0 <= x < n -> 0 <= y < n ->
     moduleAt q7 x y = maskedAt (withMask q5 bm) bm x y) /\
  (addFormatInfo q7 = Some q8 /\ wellFormed q8 = true /\ sameHeader q7 q8 /\
   (forall x y, writes (formatCells n) x y = false ->
      moduleAt q8 x y = moduleAt q7 x y /\ functionAt q8 x y = functionAt q7 x y) /\
   moduleAt q8 8 (n - 8) = Some true /\ functionAt q8 8 (n - 8) = Some true).

(** *** Reading a byte-mode stream *)

(** The first [n] bytes of a bit string, 8 bits each, most significant
    bit first. *)
Fixpoint bytesOfBits (n : nat) (bits : list bool) : list Z :=
  match n with
  | O => []
  | Datatypes.S n' => bitsValue (take 8 bits) :: bytesOfBits n' (drop 8 bits)
  end.

(** A reader for the stream of [encodeData]: the mode indicator must be
    0100, the next 8 bits give the count, and that many bytes follow. *)
Definition decodeByteMode (bytes : list Z) : option (list Z) :=
  let bits := bitsOfBytes bytes in
  if decide (take 4 bits = [false; true; false; false]) then
    let count := Z.to_nat (bitsValue (take 8 (drop 4 bits))) in
    if (12 + 8 * count <=? length bits)%nat
    then Some (bytesOfBits count (drop 12 bits))
    else None
  else None.

(** *** The order of the data cells *)

(** [upward] of [addData] for the column pair that starts at [col]. *)
Definition upward (n col : Z) : bool := Z.rem (Z.quot (n - 1 - col) 2) 2 =? 0.

(** The cells the two inner loops of [addData] visit for the pair that
    starts at [col], in order. *)
Definition pairCells (n col : Z) : list (Z * Z) :=
  flat_map (fun i => let row := if upward n col then n - 1 - i else i in
                     [(col, row); (col - 1, row)])
           (seqZ 0 n).

(** The cells the column loop visits from the test [col >= 0] on. *)
Fixpoint zigzagFrom (fuel : nat) (n col : Z) : list (Z * Z) :=
  match fuel with
  | O => []
  | Datatypes.S fuel' =>
      if col >=? 0 then
        let col := if col =? 6 then col - 1 else col in
        pairCells n col ++ zigzagFrom fuel' n (col - 2)
      else []
  end.

(** The cells [(x, y)] that [addData] visits on a symbol of size [n]. *)
Definition zigzag (n : Z) : list (Z * Z) :=
  zigzagFrom (Z.to_nat n + 1) n (n - 1).

(** The innermost body of [addData] at the cell [c]. *)
Definition visitCell (data : list Z) (c : Z * Z) (st : Z * QRCode)
    : option (Z * QRCode) :=
  addDataCell data (len data * 8) (fst c) (snd c) st.

(** The test of [addData] on a cell. *)
Definition isDataCell (qr : QRCode) (c : Z * Z) : bool :=
  inBounds qr (fst c) (snd c)
  && bool_decide (functionAt qr (fst c) (snd c) = Some false).

(** The cells that receive a bit, in the order of the visit. *)
Definition dataCells (qr : QRCode) : list (Z * Z) :=
  List.filter (isDataCell qr) (zigzag (Size qr)).

(** Bit [k] of the byte sequence, most significant bit of each byte
    first; light after the last byte. *)
Definition dataBit (data : list Z) (k : nat) : bool :=
  default false (bitsOfBytes data !! k).

(** ** Terminal renderer *)

(** Standard output is the list of the strings written so far. *)
Definition newline : string := String (ascii_of_nat 10) EmptyString.

(** The character U+2588, full block, in UTF-8. *)
Definition fullBlock : string :=
  String (ascii_of_nat 226) (String (ascii_of_nat 150)
    (String (ascii_of_nat 136) EmptyString)).

Definition darkText : string := (fullBlock ++ fullBlock)%string.

Definition lightText : string := "  ".

(** [fmt.Print(a)] *)
Definition Print (a : string) (out : list string) : list string := out ++ [a].

(** [fmt.Println(a)] *)
Definition Println (a : string) (out : list string) : list string :=
  out ++ [(a ++ newline)%string].

Definition PrintToTerminal (qr : QRCode) (out : list string)
    : option (list string) :=
  let quietZone := 4 in
  let totalSize := Size qr + 2 * quietZone in
  for_ 0 totalSize
    (fun y out =>
       let out := Print "" out in
       out ← for_ 0 totalSize
               (fun x out =>
                  if (x <? quietZone) || (x >=? Size qr + quietZone)
                     || (y <? quietZone) || (y >=? Size qr + quietZone)
                  then Some (Print lightText out)
                  else
                    let moduleX := x - quietZone in
                    let moduleY := y - quietZone in
                    m ← index2 (Modules qr) moduleY moduleX;
                    if (m : bool) then Some (Print darkText out)
                    else Some (Print lightText out))
               out;
       Some (Println "" out))
    out.

(** *** The picture *)

(** The text of the picture at column [x], row [y]: dark when the module
    four columns to the left and four rows up is dark. *)
Definition pictureCell (qr : QRCode) (x y : Z) : string :=
  if decide (moduleAt qr (x - 4) (y - 4) = Some true) then darkText
  else lightText.

Definition pictureRow (qr : QRCode) (y : Z) : list string :=
  map (fun x => pictureCell qr x y) (seqZ 0 (Size qr + 8)).

(** What printing the rows [ys] of the picture writes. *)
Definition printedRows (qr : QRCode) (ys : list Z) : list string :=
  flat_map (fun y => [""%string] ++ pictureRow qr y ++ [newline]) ys.

(** *** The stages of [Generate] before the data *)

(** The symbol after the four pattern placers. *)
Definition placePatterns (qr : QRCode) : option QRCode :=
  q ← addFinderPatterns qr;
  q ← addSeparators q;
  q ← addTimingPatterns q;
  addAlignmentPatterns q.

(** ** Server: the symbol of the base URL *)

Definition maxPort : Z := 6969.

Definition minPort : Z := 1024.

(** [getRandomPort].  [draw] is what
    [rand.Int(rand.Reader, big.NewInt(int64(maxPort-minPort+1)))] returned:
    an error, or a number from 0 up to the bound, excluded. *)
Definition getRandomPort {E : Type} (draw : E + Z) : E + Z :=
  match draw with
  | inl err => inl err
  | inr port => inr (minPort + port)
  end.

(** The verb [%d] of [fmt.Sprintf] on an [int]. *)
Definition formatInt (n : Z) : string := NilZero.string_of_int (Z.to_int n).

(** [fmt.Sprintf("http://localhost:%d", port)] *)
Definition baseURL (port : Z) : string :=
  ("http://localhost:" ++ formatInt port)%string.

(** The calls of [log.Fatal] in the block of [Server] that prints the
    symbol. *)
Inductive fatal : Type :=
| FailedCreate (err : error)         (* "Failed to create QR code:" *)
| FailedGenerate (err : genError).   (* "Failed to generate QR code:" *)

(** The block of [Server] that builds, generates and prints the symbol of
    [baseURL]; [out] is standard output, and [inl] is the end of the
    program by [log.Fatal]. *)
Definition printSymbol (baseURL : string) (out : list string)
    : option (fatal + list string) :=
  r ← NewQRCode baseURL;
  match snd r with
  | inl err => Some (inl (FailedCreate err))
  | inr qr =>
      g ← Generate qr;
      match g with
      | inl err => Some (inl (FailedGenerate err))
      | inr qr => out ← PrintToTerminal qr out; Some (inr out)
      end
  end.

(** * Properties *)

(** ** Slices and counted loops *)

Section Slices.
Context {A : Type}.
Implicit Types (s : list A) (i : Z) (a : A).

Lemma len_nonneg s : 0 <= len s.
Proof. unfold len. lia. Qed.

Lemma index_Some s i a :
  index s i = Some a <-> 0 <= i < len s /\ s !! Z.to_nat i = Some a.
Proof.
  unfold index.
  destruct (i <? 0) eqn:Hlo; destruct (len s <=? i) eqn:Hhi; simpl;
    split; try discriminate; try (intros [? _]; lia); intros H;
    try split; try lia; tauto.
Qed.

Lemma index_total s i : 0 <= i < len s -> exists a, index s i = Some a.
Proof.
  intros Hi. destruct (lookup_lt_is_Some_2 s (Z.to_nat i)) as [a Ha].
  - unfold len in Hi. lia.
  - exists a. apply index_Some. auto.
Qed.

Lemma index_range s i a : index s i = Some a -> 0 <= i < len s.
Proof. intros H. apply index_Some in H. tauto. Qed.

Lemma store_Some s i a s' :
  store s i a = Some s' <-> 0 <= i < len s /\ s' = <[Z.to_nat i := a]> s.
Proof.
  unfold store.
  destruct (i <? 0) eqn:Hlo; destruct (len s <=? i) eqn:Hhi; simpl;
    split; try discriminate; try (intros [? _]; lia).
  - intros [= <-]. split; [lia | reflexivity].
  - intros [_ ->]. reflexivity.
Qed.

Lemma store_total s i a : 0 <= i < len s -> exists s', store s i a = Some s'.
Proof. intros Hi. eexists. apply store_Some. eauto. Qed.

Lemma len_store s i a s' : store s i a = Some s' -> len s' = len s.
Proof.
  intros H. apply store_Some in H as [_ ->]. unfold len.
  now rewrite length_insert.
Qed.

Lemma index_store_eq s i a s' :
  store s i a = Some s' -> index s' i = Some a.
Proof.
  intros H. pose proof (len_store _ _ _ _ H) as Hl.
  apply store_Some in H as [Hi ->]. apply index_Some. split.
  - rewrite Hl. exact Hi.
  - apply list_lookup_insert_eq. unfold len in Hi. lia.
Qed.

Lemma index_store_ne s i j a s' :
  store s i a = Some s' -> i <> j -> index s' j = index s j.
Proof.
  intros H Hne. pose proof (len_store _ _ _ _ H) as Hl.
  apply store_Some in H as [Hi ->]. unfold index. rewrite Hl.
  destruct ((j <? 0) || (len s <=? j)) eqn:Hj; [reflexivity |].
  apply list_lookup_insert_ne. apply orb_false_iff in Hj as [Hj1 Hj2]. lia.
Qed.

Lemma len_app s1 s2 : len (s1 ++ s2) = len s1 + len s2.
Proof. unfold len. rewrite length_app. lia. Qed.

Lemma len_replicate (n : nat) a : len (replicate n a) = Z.of_nat n.
Proof. unfold len. now rewrite length_replicate. Qed.

Lemma index_app_middle s1 s2 a i :
  i = len s1 -> index (s1 ++ a :: s2) i = Some a.
Proof.
  intros ->. apply index_Some. split.
  - unfold len. rewrite length_app. simpl. lia.
  - unfold len. rewrite Nat2Z.id. apply list_lookup_middle. reflexivity.
Qed.
End Slices.

Section Loops.
Context {S : Type}.
Implicit Types (body : Z -> S -> option S) (s : S).

(** An invariant indexed by the loop variable is carried from [lo] to
    [lo + n] when every iteration keeps it, and the loop then returns. *)
Lemma forLoop_invariant (P : Z -> S -> Prop) body :
  forall n lo s,
    P lo s ->
    (forall i t, lo <= i < lo + Z.of_nat n -> P i t ->
                 exists t', body i t = Some t' /\ P (i + 1) t') ->
    exists s', forLoop n lo body s = Some s' /\ P (lo + Z.of_nat n) s'.
Proof.
  induction n as [| n IH]; intros lo s HP Hstep.
  - exists s. split; [reflexivity |]. now replace (lo + Z.of_nat 0) with lo by lia.
  - destruct (Hstep lo s ltac:(lia) HP) as (t & Ht & HPt).
    destruct (IH (lo + 1) t HPt) as (s' & Hs' & HP').
    + intros i u Hi. apply Hstep. lia.
    + exists s'. split.
      * simpl. rewrite Ht. exact Hs'.
      * now replace (lo + Z.of_nat (Datatypes.S n)) with (lo + 1 + Z.of_nat n) by lia.
Qed.

Lemma for_invariant (P : Z -> S -> Prop) body lo hi s :
  lo <= hi ->
  P lo s ->
  (forall i t, lo <= i < hi -> P i t ->
               exists t', body i t = Some t' /\ P (i + 1) t') ->
  exists s', for_ lo hi body s = Some s' /\ P hi s'.
Proof.
  intros Hle HP Hstep. unfold for_.
  destruct (forLoop_invariant P body (Z.to_nat (hi - lo)) lo s HP) as (s' & H1 & H2).
  - intros i t Hi. apply Hstep. lia.
  - exists s'. split; [exact H1 |].
    replace (lo + Z.of_nat (Z.to_nat (hi - lo))) with hi in H2 by lia.
    exact H2.
Qed.

Lemma for_empty body lo hi s : hi <= lo -> for_ lo hi body s = Some s.
Proof.
  intros H. unfold for_. now replace (Z.to_nat (hi - lo)) with O by lia.
Qed.

(** A loop over a literal range is the sequence of its iterations. *)
Lemma for_step body lo hi s :
  lo < hi -> for_ lo hi body s = (body lo s ≫= for_ (lo + 1) hi body).
Proof.
  intros H. unfold for_.
  replace (Z.to_nat (hi - lo)) with (Datatypes.S (Z.to_nat (hi - (lo + 1)))) by lia.
  reflexivity.
Qed.
End Loops.

(** ** Symbol sizer *)

Lemma wrap_small z : int_min <= z <= int_max -> wrap z = z.
Proof.
  unfold wrap, int_min, int_max. intros H.
  rewrite Z.mod_small; lia.
Qed.

Lemma version_cases v : 1 <= v <= 10 ->
  v = 1 \/ v = 2 \/ v = 3 \/ v = 4 \/ v = 5 \/ v = 6 \/ v = 7 \/ v = 8 \/ v = 9 \/ v = 10.
Proof. lia. Qed.

(** Every entry of the table exists and lies between 7 and 271. *)
Lemma capacity_total v el :
  1 <= v <= 10 -> exists c, capacity v el = Some c /\ 7 <= c <= 271.
Proof.
  intros Hv. apply version_cases in Hv.
  repeat (destruct Hv as [-> | Hv]); try subst v; destruct el;
    (eexists; split; [reflexivity | lia]).
Qed.

Lemma capacity_range v el c : capacity v el = Some c -> 1 <= v <= 10.
Proof.
  unfold capacity. intros H.
  destruct (index versionCapacity (v - 1)) as [row |] eqn:Hrow; [| discriminate].
  apply index_range in Hrow. change (len versionCapacity) with 10 in Hrow. lia.
Qed.

Lemma levelLoop_levelOrder v req :
  1 <= v <= 10 ->
  exists r, levelLoop v req levelOrder = Some r /\ levelLoop_post v req r.
Proof.
  intros Hv.
  destruct (capacity_total v High Hv) as (cH & HH & _).
  destruct (capacity_total v Quartile Hv) as (cQ & HQ & _).
  destruct (capacity_total v Medium Hv) as (cM & HM & _).
  destruct (capacity_total v Low Hv) as (cL & HL & _).
  unfold levelOrder; simpl. rewrite HH, HQ, HM, HL; simpl.
  destruct (cH >=? req) eqn:EH; [| destruct (cQ >=? req) eqn:EQ;
    [| destruct (cM >=? req) eqn:EM; [| destruct (cL >=? req) eqn:EL]]];
    eexists; (split; [reflexivity |]); simpl;
    try (split; [reflexivity | split; [eexists; split; [eassumption | lia] |]]);
    intros el' c'; intros; destruct el'; unfold stronger in *; simpl in *;
    try lia; simplify_eq; lia.
Qed.

Lemma versionLoop_seqZ req (n : nat) :
  forall lo, 1 <= lo -> lo + Z.of_nat n <= 11 ->
  exists r, versionLoop req (seqZ lo (Z.of_nat n)) = Some r /\
            versionLoop_post lo (lo + Z.of_nat n) req r.
Proof.
  induction n as [| n IH]; intros lo Hlo Hhi.
  - exists (-1, Low). split; [reflexivity |]. left.
    repeat split; intros; lia.
  - rewrite seqZ_cons by lia.
    replace (Z.pred (Z.of_nat (Datatypes.S n))) with (Z.of_nat n) by lia.
    destruct (levelLoop_levelOrder lo req ltac:(lia)) as (r & Hr & Hpost).
    cbn [versionLoop]. rewrite Hr; simpl.
    destruct r as [[v el] |]; simpl in Hpost.
    + destruct Hpost as (-> & Hfit & Hstr).
      exists (lo, el). split; [reflexivity |]. right.
      repeat split; try lia; auto.
    + destruct (IH (Z.succ lo) ltac:(lia) ltac:(lia)) as ([v el] & Hv & Hp).
      exists (v, el). split; [exact Hv |].
      destruct Hp as [(-> & -> & Hall) | (Hin & Hfit & Hprev & Hstr)].
      * left. repeat split. intros v' el' c' Hv' Hc.
        destruct (Z.eq_dec v' lo) as [-> | Hne]; [eauto |].
        apply (Hall v' el' c'); [lia | exact Hc].
      * right. repeat split; try lia; auto.
        intros v' el' c' Hv' Hc.
        destruct (Z.eq_dec v' lo) as [-> | Hne]; [eauto |].
        apply (Hprev v' el' c'); [lia | exact Hc].
Qed.

(** ** Scenario A: the payload [http://localhost:8080] *)

(** The payload has 21 bytes, not 22, and so requires capacity 24, not 25. *)
Lemma localhost_is_not_22_bytes :
  len (bytesOf localhost) <> 22 /\ wrap (len (bytesOf localhost) + 3) <> 25.
Proof. split; vm_compute; discriminate. Qed.

(** C8 (amended). The payload [http://localhost:8080] has 21 bytes and
    requires capacity 24; every level of version 1 and the levels High and
    Quartile of version 2 are below it, and the sizer selects version 2
    with level Medium.  A payload of 22 bytes (required capacity 25) gets
    the same selection. *)
Theorem localhost_selects_version2_medium :
  len (bytesOf localhost) = 21 /\
  wrap (len (bytesOf localhost) + 3) = 24 /\
  (forall el, exists c, capacity 1 el = Some c /\ c < 24) /\
  capacity 2 High = Some 14 /\ 14 < 24 /\
  capacity 2 Quartile = Some 20 /\ 20 < 24 /\
  capacity 2 Medium = Some 26 /\ 24 <= 26 /\
  determineVersionAndErrorLevel (len (bytesOf localhost)) = Some (2, Medium) /\
  (exists qr, symbolOf localhost = Some qr /\ Version qr = 2 /\
              Level qr = Medium /\ Size qr = 25) /\
  determineVersionAndErrorLevel 22 = Some (2, Medium).
Proof.
  repeat split; try reflexivity; try lia.
  - intros el. destruct el; eexists; (split; [reflexivity | lia]).
  - eexists. split; [vm_compute; reflexivity |]. repeat split.
Qed.

(** ** Scenario B: the empty payload *)

(** C9. For the empty payload [NewQRCode] returns the invalid-input error
    and no symbol, and no [make] call has been executed. *)
Theorem empty_payload_is_rejected :
  NewQRCode "" = Some ([], inl (ErrInvalidURL "")) /\ symbolOf "" = None.
Proof. split; reflexivity. Qed.

(** A symbol is only returned after both grids have been allocated. *)
Example localhost_allocations :
  exists log qr, NewQRCode localhost = Some (log, inr qr)
    /\ firstn 2 log = [MakeGrid 25; MakeGrid 25] /\ length log = 52%nat.
Proof. do 2 eexists. split; [vm_compute; reflexivity |]. split; reflexivity. Qed.

(** ** Grids *)

Lemma square_spec n g :
  square n g = true <-> len g = n /\ Forall (fun row => len row = n) g.
Proof.
  unfold square. rewrite andb_true_iff, Z.eqb_eq, forallb_forall, Forall_forall.
  split; intros [H1 H2]; (split; [exact H1 |]); intros row Hrow.
  - apply Z.eqb_eq. apply H2. apply list_elem_of_In. exact Hrow.
  - apply Z.eqb_eq. apply H2. apply list_elem_of_In. exact Hrow.
Qed.

Lemma square_row n g y row :
  square n g = true -> index g y = Some row -> len row = n.
Proof.
  intros Hsq Hrow. apply square_spec in Hsq as [_ Hall].
  apply index_Some in Hrow as [_ Hrow].
  rewrite Forall_forall in Hall. apply Hall.
  eapply list_elem_of_lookup_2. exact Hrow.
Qed.

Lemma index2_total n g x y :
  square n g = true -> 0 <= x < n -> 0 <= y < n ->
  exists b, index2 g y x = Some b.
Proof.
  intros Hsq Hx Hy. pose proof Hsq as Hsq'. apply square_spec in Hsq' as [Hlen _].
  destruct (index_total g y ltac:(lia)) as [row Hrow].
  pose proof (square_row _ _ _ _ Hsq Hrow) as Hr.
  destruct (index_total row x ltac:(lia)) as [b Hb].
  exists b. unfold index2. rewrite Hrow. exact Hb.
Qed.

Lemma index2_range n g x y b :
  square n g = true -> index2 g y x = Some b -> 0 <= x < n /\ 0 <= y < n.
Proof.
  intros Hsq H. unfold index2 in H.
  destruct (index g y) as [row |] eqn:Hrow; [| discriminate]. simpl in H.
  pose proof (square_row _ _ _ _ Hsq Hrow) as Hr.
  apply square_spec in Hsq as [Hlen _].
  apply index_range in Hrow. apply index_range in H. lia.
Qed.

Lemma store2_total n g x y v :
  square n g = true -> 0 <= x < n -> 0 <= y < n ->
  exists g', store2 g y x v = Some g'.
Proof.
  intros Hsq Hx Hy. pose proof Hsq as Hsq'. apply square_spec in Hsq' as [Hlen _].
  destruct (index_total g y ltac:(lia)) as [row Hrow].
  pose proof (square_row _ _ _ _ Hsq Hrow) as Hr.
  destruct (store_total row x v ltac:(lia)) as [row' Hrow'].
  destruct (store_total g y row' ltac:(lia)) as [g' Hg'].
  exists g'. unfold store2. rewrite Hrow; simpl. rewrite Hrow'; simpl. exact Hg'.
Qed.

Lemma store2_inv g y x v g' :
  store2 g y x v = Some g' ->
  exists row row', index g y = Some row /\ store row x v = Some row'
                   /\ store g y row' = Some g'.
Proof.
  unfold store2. intros H.
  destruct (index g y) as [row |] eqn:Hrow; [| discriminate]. simpl in H.
  destruct (store row x v) as [row' |] eqn:Hrow'; [| discriminate]. simpl in H.
  eauto.
Qed.

Lemma store2_square n g y x v g' :
  square n g = true -> store2 g y x v = Some g' -> square n g' = true.
Proof.
  intros Hsq H. apply store2_inv in H as (row & row' & Hrow & Hrow' & Hg').
  pose proof (square_row _ _ _ _ Hsq Hrow) as Hr.
  apply square_spec in Hsq as [Hlen Hall]. apply square_spec. split.
  - rewrite (len_store _ _ _ _ Hg'). exact Hlen.
  - apply store_Some in Hg' as [_ ->]. apply Forall_insert; [exact Hall |].
    rewrite (len_store _ _ _ _ Hrow'). exact Hr.
Qed.

Lemma index2_store2_eq g y x v g' :
  store2 g y x v = Some g' -> index2 g' y x = Some v.
Proof.
  intros H. apply store2_inv in H as (row & row' & Hrow & Hrow' & Hg').
  unfold index2. rewrite (index_store_eq _ _ _ _ Hg'). simpl.
  apply (index_store_eq _ _ _ _ Hrow').
Qed.

Lemma index2_store2_ne g y x v g' y' x' :
  store2 g y x v = Some g' -> (x' <> x \/ y' <> y) ->
  index2 g' y' x' = index2 g y' x'.
Proof.
  intros H Hne. apply store2_inv in H as (row & row' & Hrow & Hrow' & Hg').
  unfold index2. destruct (Z.eq_dec y' y) as [-> | Hy].
  - rewrite (index_store_eq _ _ _ _ Hg'), Hrow. simpl.
    apply (index_store_ne _ _ _ _ _ Hrow'). lia.
  - now rewrite (index_store_ne _ _ _ _ _ Hg') by lia.
Qed.

(** Two [n] by [n] grids with the same cells are the same grid. *)
Lemma grid_ext n g g' :
  square n g = true -> square n g' = true ->
  (forall x y, 0 <= x < n -> 0 <= y < n -> index2 g y x = index2 g' y x) ->
  g = g'.
Proof.
  intros Hg Hg' Hcells.
  pose proof Hg as Hsq. pose proof Hg' as Hsq'.
  apply square_spec in Hsq as [Hlen _]. apply square_spec in Hsq' as [Hlen' _].
  apply list_eq. intros i.
  destruct (Nat.lt_ge_cases i (Z.to_nat n)) as [Hi | Hi].
  - assert (Hy : 0 <= Z.of_nat i < n) by lia.
    destruct (index_total g (Z.of_nat i) ltac:(lia)) as [row Hrow].
    destruct (index_total g' (Z.of_nat i) ltac:(lia)) as [row' Hrow'].
    pose proof (square_row _ _ _ _ Hg Hrow) as Hr.
    pose proof (square_row _ _ _ _ Hg' Hrow') as Hr'.
    assert (row = row') as ->.
    { apply list_eq. intros j.
      destruct (Nat.lt_ge_cases j (Z.to_nat n)) as [Hj | Hj].
      - specialize (Hcells (Z.of_nat j) (Z.of_nat i) ltac:(lia) Hy).
        unfold index2 in Hcells. rewrite Hrow, Hrow' in Hcells. simpl in Hcells.
        unfold index in Hcells.
        replace ((Z.of_nat j <? 0) || (len row <=? Z.of_nat j)) with false in Hcells
          by (symmetry; apply orb_false_iff; lia).
        replace ((Z.of_nat j <? 0) || (len row' <=? Z.of_nat j)) with false in Hcells
          by (symmetry; apply orb_false_iff; lia).
        now rewrite Nat2Z.id in Hcells.
      - rewrite !lookup_ge_None_2; [reflexivity | |]; unfold len in *; lia. }
    apply index_Some in Hrow as [_ Hrow]. apply index_Some in Hrow' as [_ Hrow'].
    rewrite Nat2Z.id in Hrow, Hrow'. congruence.
  - rewrite !lookup_ge_None_2; [reflexivity | |]; unfold len in *; lia.
Qed.

(** *** Writes through [setModule] *)

Lemma wellFormed_spec qr :
  wellFormed qr = true <->
  square (Size qr) (Modules qr) = true /\ square (Size qr) (IsFunction qr) = true.
Proof. unfold wellFormed. apply andb_true_iff. Qed.

Lemma wellFormed_size qr : wellFormed qr = true -> 0 <= Size qr.
Proof.
  intros H. apply wellFormed_spec in H as [H _].
  apply square_spec in H as [<- _]. apply len_nonneg.
Qed.

Lemma inBounds_spec qr x y :
  inBounds qr x y = true <-> 0 <= x < Size qr /\ 0 <= y < Size qr.
Proof. unfold inBounds. rewrite !andb_true_iff. lia. Qed.

(** A write through [setModule] returns, keeps the symbol well formed,
    touches no field but [Modules], and changes at most the cell it names. *)
Lemma setModule_spec x y v qr :
  wellFormed qr = true ->
  exists q, setModule x y v qr = Some q /\ wellFormed q = true
    /\ q = withModules qr (Modules q)
    /\ (inBounds qr x y = true -> moduleAt q x y = Some v)
    /\ (forall x' y', x' <> x \/ y' <> y -> moduleAt q x' y' = moduleAt qr x' y').
Proof.
  intros Hwf. pose proof Hwf as Hwf'. apply wellFormed_spec in Hwf' as [Hm Hf].
  unfold setModule. destruct (inBounds qr x y) eqn:Hin.
  - apply inBounds_spec in Hin as [Hx Hy].
    destruct (store2_total _ _ x y v Hm Hx Hy) as [m Hstore].
    rewrite Hstore; simpl. eexists. split; [reflexivity |].
    split; [| split; [reflexivity | split]].
    + apply wellFormed_spec; simpl. split; [| exact Hf].
      exact (store2_square _ _ _ _ _ _ Hm Hstore).
    + intros _. unfold moduleAt; simpl. eapply index2_store2_eq; eauto.
    + intros x' y' Hne. unfold moduleAt; simpl. eapply index2_store2_ne; eauto.
  - exists qr. split; [reflexivity |]. split; [exact Hwf |].
    split; [destruct qr; reflexivity |]. split; [discriminate | reflexivity].
Qed.

(** ** Mask applier *)

Lemma withModules_idem qr q m :
  q = withModules qr (Modules q) -> withModules q m = withModules qr m.
Proof. intros ->. reflexivity. Qed.

Section ApplyMask.
Variables (mask : Z) (qr : QRCode).
Hypothesis Hwf : wellFormed qr = true.

Lemma maskCell_step y x q :
  0 <= x < Size qr -> 0 <= y < Size qr -> scanInv qr mask y x q ->
  exists q', maskCell mask y x q = Some q' /\ scanInv qr mask y (x + 1) q'.
Proof.
  intros Hx Hy (Hq & Heq & Hcells).
  pose proof Hwf as Hwf'. apply wellFormed_spec in Hwf' as [Hm Hf].
  pose proof Hq as Hq'. apply wellFormed_spec in Hq' as [Hqm Hqf].
  assert (HS : Size q = Size qr) by (rewrite Heq; reflexivity).
  assert (HF : IsFunction q = IsFunction qr) by (rewrite Heq; reflexivity).
  rewrite HS in Hqm.
  destruct (index2_total _ _ x y Hf Hx Hy) as [f Hfv].
  destruct (index2_total _ _ x y Hm Hx Hy) as [b Hbv].
  assert (Hcur : moduleAt q x y = Some b).
  { destruct (Hcells x y) as [_ Hun]. rewrite Hun; [exact Hbv |].
    unfold scanned. lia. }
  assert (Hnew : maskedAt qr mask x y = Some (xorb b (negb f && shouldMask x y mask))).
  { unfold maskedAt, moduleAt, functionAt. rewrite Hbv; simpl. now rewrite Hfv. }
  unfold maskCell. rewrite HF, Hfv; simpl.
  destruct (negb f && shouldMask x y mask) eqn:Htog.
  - unfold moduleAt in Hcur. rewrite Hcur; simpl.
    destruct (store2_total _ _ x y (negb b) Hqm Hx Hy) as [m' Hm'].
    rewrite Hm'; simpl. eexists. split; [reflexivity |].
    split; [| split].
    + apply wellFormed_spec; simpl. rewrite HS. split.
      * exact (store2_square _ _ _ _ _ _ Hqm Hm').
      * rewrite HF. exact Hf.
    + simpl. now apply withModules_idem.
    + assert (Hhit : moduleAt (withModules q m') x y = Some (negb b))
        by exact (index2_store2_eq _ _ _ _ _ Hm').
      assert (Hmiss : forall x' y', x' <> x \/ y' <> y ->
                moduleAt (withModules q m') x' y' = moduleAt q x' y')
        by (intros x' y' Hne; exact (index2_store2_ne _ _ _ _ _ y' x' Hm' Hne)).
      intros x' y'.
      destruct (Z.eq_dec x' x) as [-> | Hxne];
        [destruct (Z.eq_dec y' y) as [-> | Hyne] |].
      * rewrite Hhit, Hnew.
        split; [intros _; now rewrite xorb_true_r |].
        unfold scanned. lia.
      * rewrite Hmiss by lia.
        destruct (Hcells x y') as [H1 H2].
        split; intros H; [apply H1 | apply H2]; unfold scanned in *; lia.
      * rewrite Hmiss by lia.
        destruct (Hcells x' y') as [H1 H2].
        split; intros H; [apply H1 | apply H2]; unfold scanned in *; lia.
  - exists q. split; [reflexivity |]. split; [exact Hq |]. split; [exact Heq |].
    intros x' y'. destruct (Hcells x' y') as [H1 H2].
    destruct (Z.eq_dec x' x) as [-> | Hxne];
      [destruct (Z.eq_dec y' y) as [-> | Hyne] |].
    + split; [intros _ | unfold scanned; lia].
      rewrite Hnew, xorb_false_r. exact Hcur.
    + split; intros H; [apply H1 | apply H2]; unfold scanned in *; lia.
    + split; intros H; [apply H1 | apply H2]; unfold scanned in *; lia.
Qed.

Lemma maskRow_step y q :
  0 <= y < Size qr -> scanInv qr mask y 0 q ->
  exists q', for_ 0 (Size q) (maskCell mask y) q = Some q' /\ scanInv qr mask (y + 1) 0 q'.
Proof.
  intros Hy Hinv.
  assert (HS : Size q = Size qr) by (destruct Hinv as (_ & -> & _); reflexivity).
  rewrite HS.
  destruct (for_invariant (scanInv qr mask y) (maskCell mask y) 0 (Size qr) q
              ltac:(lia) Hinv) as (q' & Hrun & Hq' & Heq' & Hcells).
  - intros x t Hx Ht. now apply maskCell_step.
  - exists q'. split; [exact Hrun |]. split; [exact Hq' |]. split; [exact Heq' |].
    intros x' y'. destruct (Hcells x' y') as [H1 H2].
    split; intros H; [apply H1 | apply H2]; unfold scanned in *; lia.
Qed.

(** [applyMask] returns on a well-formed symbol; it changes no field but
    [Modules], and every cell holds the value [maskedAt] gives it. *)
Lemma applyMask_spec :
  exists q, applyMask mask qr = Some q /\ wellFormed q = true
    /\ q = withModules qr (Modules q)
    /\ forall x y, 0 <= x < Size qr -> 0 <= y < Size qr ->
                   moduleAt q x y = maskedAt qr mask x y.
Proof.
  pose proof (wellFormed_size _ Hwf) as Hn.
  destruct (for_invariant (fun y => scanInv qr mask y 0)
              (fun y q => for_ 0 (Size q) (maskCell mask y) q) 0 (Size qr) qr Hn)
    as (q & Hrun & Hq & Heq & Hcells).
  - split; [exact Hwf |]. split; [destruct qr; reflexivity |].
    intros x' y'. split; [unfold scanned; lia | reflexivity].
  - intros y t Hy Ht. now apply maskRow_step.
  - exists q. split; [exact Hrun |]. split; [exact Hq |]. split; [exact Heq |].
    intros x y Hx Hy. apply (Hcells x y). unfold scanned. lia.
Qed.
End ApplyMask.

Lemma withModules_self qr : withModules qr (Modules qr) = qr.
Proof. destruct qr; reflexivity. Qed.

(** A function cell is left alone by the mask, whatever the predicate. *)
Lemma maskedAt_function qr mask x y :
  functionAt qr x y = Some true -> maskedAt qr mask x y = moduleAt qr x y.
Proof.
  intros Hf. unfold maskedAt. rewrite Hf.
  destruct (moduleAt qr x y) as [b |]; simpl; [| reflexivity].
  now rewrite xorb_false_r.
Qed.

(** Applying the same mask a second time gives back the symbol. *)
Lemma applyMask_twice mask qr :
  wellFormed qr = true ->
  exists q1, applyMask mask qr = Some q1 /\ wellFormed q1 = true
             /\ q1 = withModules qr (Modules q1)
             /\ applyMask mask q1 = Some qr.
Proof.
  intros Hwf.
  destruct (applyMask_spec mask qr Hwf) as (q1 & Hrun1 & Hwf1 & Heq1 & Hcells1).
  destruct (applyMask_spec mask q1 Hwf1) as (q2 & Hrun2 & Hwf2 & Heq2 & Hcells2).
  exists q1. repeat split; try assumption.
  rewrite Hrun2. f_equal.
  assert (HS : Size q1 = Size qr) by (rewrite Heq1; reflexivity).
  assert (HS2 : Size q2 = Size qr) by (rewrite Heq2; simpl; exact HS).
  assert (HF : IsFunction q1 = IsFunction qr) by (rewrite Heq1; reflexivity).
  assert (Hm : Modules q2 = Modules qr).
  { apply wellFormed_spec in Hwf as [Hsq Hsqf].
    apply wellFormed_spec in Hwf2 as [Hsq2 _]. rewrite HS2 in Hsq2.
    apply (grid_ext (Size qr)); [exact Hsq2 | exact Hsq |].
    intros x y Hx Hy.
    change (moduleAt q2 x y = moduleAt qr x y).
    rewrite Hcells2 by lia. unfold maskedAt at 1.
    rewrite Hcells1 by lia. unfold maskedAt, functionAt. rewrite HF.
    destruct (index2_total _ _ x y Hsq Hx Hy) as [b Hb].
    destruct (index2_total _ _ x y Hsqf Hx Hy) as [f Hf].
    unfold moduleAt. rewrite Hb, Hf; simpl.
    now rewrite xorb_assoc, xorb_nilpotent, xorb_false_r. }
  rewrite Heq2, Hm. rewrite (withModules_idem qr q1 _ Heq1).
  apply withModules_self.
Qed.

(** ** Penalty *)

Lemma runs_cons b row : runs (b :: row) = headRun b 1 (runs row).
Proof. simpl. unfold headRun. destruct (runs row) as [| [b' n] rs]; reflexivity. Qed.

Lemma closeRun_runScore c p : closeRun c p = p + runScore c.
Proof.
  unfold closeRun, runScore.
  destruct (c >=? 5) eqn:E1; destruct (5 <=? c) eqn:E2; lia.
Qed.

Lemma sumScores_cons b c rs : sumScores ((b, c) :: rs) = runScore c + sumScores rs.
Proof. reflexivity. Qed.

Lemma headRun_headRun_same b c rs :
  sumScores (headRun b c (headRun b 1 rs)) = sumScores (headRun b (c + 1) rs).
Proof.
  destruct rs as [| [b' n] rs]; simpl.
  - rewrite eqb_reflx, !sumScores_cons. f_equal. f_equal. lia.
  - destruct (Bool.eqb b b') eqn:E; simpl; rewrite ?eqb_reflx, ?E, !sumScores_cons;
      f_equal; f_equal; lia.
Qed.

Lemma headRun_headRun_other b b' c rs :
  Bool.eqb b' b = false ->
  sumScores (headRun b c (headRun b' 1 rs)) = runScore c + sumScores (headRun b' 1 rs).
Proof.
  intros E. assert (E' : Bool.eqb b b' = false) by (destruct b, b'; auto).
  destruct rs as [| [b'' n] rs]; simpl.
  - now rewrite E'.
  - destruct (Bool.eqb b' b''); simpl; now rewrite E'.
Qed.

(** The scan closes every run it leaves, so that closing the last one
    gives the score of the runs of the part of the row it has read. *)
Lemma scanRun_score rest :
  forall prev c p,
    closeRun (fst (scanRun prev rest (c, p))) (snd (scanRun prev rest (c, p)))
    = p + sumScores (headRun prev c (runs rest)).
Proof.
  induction rest as [| b rest IH]; intros prev c p.
  - simpl. rewrite closeRun_runScore. unfold sumScores; simpl. lia.
  - cbn [scanRun fst snd]. rewrite runs_cons.
    destruct (Bool.eqb b prev) eqn:E.
    + apply eqb_prop in E; subst b. rewrite IH, headRun_headRun_same. reflexivity.
    + rewrite IH, headRun_headRun_other by exact E.
      rewrite closeRun_runScore. lia.
Qed.

Section Penalty.
Variable qr : QRCode.
Hypothesis Hwf : wellFormed qr = true.

(** The inner loop of [calculatePenalty], entered at column [x], carries
    out [scanRun] on the rest of the row. *)
Lemma penalty_scan y row rest :
  index (Modules qr) y = Some row ->
  forall pre prev c p,
    row = pre ++ prev :: rest ->
    for_ (len pre + 1) (len row)
      (fun x '(count, penalty) =>
         a ← index2 (Modules qr) y x;
         b ← index2 (Modules qr) y (x - 1);
         if Bool.eqb a b then Some (count + 1, penalty)
         else Some (1, closeRun count penalty))
      (c, p)
    = Some (scanRun prev rest (c, p)).
Proof.
  intros Hrow. induction rest as [| b rest IH]; intros pre prev c p Heq.
  - apply for_empty. subst row. rewrite len_app. unfold len at 2. simpl. lia.
  - rewrite for_step.
    2:{ subst row. rewrite len_app. unfold len at 3. simpl. lia. }
    assert (Ha : index2 (Modules qr) y (len pre + 1) = Some b).
    { unfold index2. rewrite Hrow. cbn [mbind option_bind]. subst row.
      change (pre ++ prev :: b :: rest) with (pre ++ [prev] ++ b :: rest).
      rewrite app_assoc. apply index_app_middle.
      rewrite len_app. reflexivity. }
    assert (Hb : index2 (Modules qr) y (len pre + 1 - 1) = Some prev).
    { unfold index2. rewrite Hrow. cbn [mbind option_bind]. subst row.
      apply index_app_middle. lia. }
    rewrite Ha, Hb. cbn [mbind option_bind].
    specialize (IH (pre ++ [prev]) b).
    rewrite len_app in IH. change (len [prev]) with 1 in IH.
    destruct (Bool.eqb b prev) eqn:E; cbn [mbind option_bind scanRun fst snd];
      rewrite E; apply IH; subst row; now rewrite <- app_assoc.
Qed.

Lemma penaltyRow_spec y row p :
  index (Modules qr) y = Some row ->
  penaltyRow qr y p = Some (p + rowScore row).
Proof.
  intros Hrow.
  pose proof Hwf as Hwf'. apply wellFormed_spec in Hwf' as [Hm _].
  pose proof (square_row _ _ _ _ Hm Hrow) as Hlen.
  pose proof (index_range _ _ _ Hrow) as Hy.
  apply square_spec in Hm as [Hn _].
  destruct row as [| b0 rest]; [unfold len in Hlen; simpl in Hlen; lia |].
  unfold penaltyRow. rewrite <- Hlen.
  pose proof (penalty_scan y (b0 :: rest) rest Hrow [] b0 1 p eq_refl) as Hscan.
  change (len [] + 1) with 1 in Hscan. rewrite Hscan.
  cbn [mbind option_bind].
  pose proof (scanRun_score rest b0 1 p) as Hs.
  destruct (scanRun b0 rest (1, p)) as [c' p']. simpl in Hs. rewrite Hs.
  unfold rowScore. rewrite runs_cons. reflexivity.
Qed.

Lemma sumZ_app l1 l2 : sumZ (l1 ++ l2) = sumZ l1 + sumZ l2.
Proof. induction l1 as [| a l1 IH]; simpl; [reflexivity | rewrite IH; lia]. Qed.

(** [calculatePenalty] returns the reference score of the grid. *)
Lemma calculatePenalty_spec :
  calculatePenalty qr = Some (referencePenalty (Modules qr)).
Proof.
  pose proof (wellFormed_size _ Hwf) as Hn.
  pose proof Hwf as Hwf'. apply wellFormed_spec in Hwf' as [Hm _].
  apply square_spec in Hm as [Hlen _].
  destruct (for_invariant
              (fun y p => p = referencePenalty (take (Z.to_nat y) (Modules qr)))
              (penaltyRow qr) 0 (Size qr) 0 Hn eq_refl) as (p & Hrun & Hp).
  - intros y t Hy ->.
    destruct (index_total (Modules qr) y ltac:(lia)) as [row Hrow].
    rewrite (penaltyRow_spec y row _ Hrow). eexists. split; [reflexivity |].
    apply index_Some in Hrow as [_ Hrow].
    replace (Z.to_nat (y + 1)) with (Datatypes.S (Z.to_nat y)) by lia.
    rewrite (take_S_r _ _ _ Hrow). unfold referencePenalty.
    rewrite map_app, sumZ_app. simpl. lia.
  - unfold calculatePenalty. rewrite Hrun, Hp. do 2 f_equal.
    apply take_ge. unfold len in Hlen. lia.
Qed.
End Penalty.

(** The runs of a row cover it, and none is empty. *)
Lemma runs_lengths row :
  sumZ (map snd (runs row)) = len row /\ Forall (fun r => 1 <= snd r) (runs row).
Proof.
  induction row as [| b row [IHs IHp]]; [split; [reflexivity | constructor] |].
  rewrite runs_cons. unfold headRun.
  replace (len (b :: row)) with (len row + 1) by (unfold len; simpl; lia).
  destruct (runs row) as [| [b' n] rs]; simpl in *.
  - split; [lia | repeat constructor; simpl; lia].
  - pose proof (Forall_inv IHp) as Hn. pose proof (Forall_inv_tail IHp) as Hrs.
    simpl in Hn.
    destruct (Bool.eqb b b'); simpl; (split; [lia |]); repeat constructor;
      simpl; try lia; assumption.
Qed.

(** Put back one after the other, the runs give the row. *)
Lemma runs_concat row :
  flat_map (fun r => replicate (Z.to_nat (snd r)) (fst r)) (runs row) = row.
Proof.
  induction row as [| b row IH]; [reflexivity |].
  rewrite runs_cons. unfold headRun.
  pose proof (runs_lengths row) as [_ Hpos].
  destruct (runs row) as [| [b' n] rs]; simpl in *.
  - now rewrite <- IH.
  - pose proof (Forall_inv Hpos) as Hn. simpl in Hn.
    destruct (Bool.eqb b b') eqn:E; simpl.
    + apply eqb_prop in E; subst b'.
      replace (Z.to_nat (n + 1)) with (Datatypes.S (Z.to_nat n)) by lia.
      simpl. now rewrite <- IH.
    + now rewrite <- IH.
Qed.

(** Two runs that follow each other have different values: every run is
    maximal. *)
Lemma runs_maximal row i r1 r2 :
  runs row !! i = Some r1 -> runs row !! Datatypes.S i = Some r2 -> fst r1 <> fst r2.
Proof.
  revert i r1 r2. induction row as [| b row IH]; intros i r1 r2; [discriminate |].
  rewrite runs_cons. unfold headRun.
  destruct (runs row) as [| [b' n] rs] eqn:Hruns; [destruct i; discriminate |].
  destruct (Bool.eqb b b') eqn:E.
  - apply eqb_prop in E; subst b'. destruct i as [| i]; simpl.
    + intros [= <-] H2. simpl. apply (IH O (b, n) r2); [reflexivity | exact H2].
    + intros H1 H2. apply (IH (Datatypes.S i) r1 r2); assumption.
  - destruct i as [| i]; simpl.
    + intros [= <-] [= <-]. simpl. intros ->. now rewrite eqb_reflx in E.
    + intros H1 H2. apply (IH i r1 r2); assumption.
Qed.

Lemma sumScores_bound rs :
  Forall (fun r => 1 <= snd r) rs -> 0 <= sumScores rs <= sumZ (map snd rs).
Proof.
  induction 1 as [| [b n] rs Hn _ IH]; [unfold sumScores; simpl; lia |].
  rewrite sumScores_cons. simpl in *. unfold runScore.
  destruct (5 <=? n) eqn:E; lia.
Qed.

Lemma rowScore_bound row : 0 <= rowScore row <= len row.
Proof.
  destruct (runs_lengths row) as [Hs Hp].
  pose proof (sumScores_bound _ Hp). unfold rowScore, sumScores in *. lia.
Qed.

Lemma referencePenalty_rows n g :
  0 <= n -> Forall (fun row => len row = n) g ->
  0 <= referencePenalty g <= len g * n.
Proof.
  intros Hn. induction 1 as [| row g Hrow _ IH].
  - unfold referencePenalty, len; simpl. lia.
  - pose proof (rowScore_bound row).
    replace (len (row :: g)) with (len g + 1) by (unfold len; simpl; lia).
    unfold referencePenalty in *; simpl. nia.
Qed.

Lemma referencePenalty_bound n g :
  square n g = true -> 0 <= referencePenalty g <= n * n.
Proof.
  intros H. apply square_spec in H as [Hlen Hall].
  pose proof (len_nonneg g).
  pose proof (referencePenalty_rows n g ltac:(lia) Hall). now rewrite Hlen in *.
Qed.

(** ** Mask evaluator *)

(** The penalty of a candidate is the reference score of the masked grid,
    and scoring leaves the symbol as it found it. *)
Lemma maskedPenalty_spec qr mask :
  wellFormed qr = true ->
  exists q1, applyMask mask qr = Some q1 /\ wellFormed q1 = true
    /\ Size q1 = Size qr
    /\ calculatePenalty q1 = Some (referencePenalty (Modules q1))
    /\ maskedPenalty qr mask = Some (referencePenalty (Modules q1))
    /\ applyMask mask q1 = Some qr.
Proof.
  intros Hwf.
  destruct (applyMask_twice mask qr Hwf) as (q1 & Hrun & Hwf1 & Heq & Hback).
  exists q1. pose proof (calculatePenalty_spec q1 Hwf1) as Hpen.
  repeat split; try assumption.
  - rewrite Heq. reflexivity.
  - unfold maskedPenalty. rewrite Hrun. exact Hpen.
Qed.

Lemma maskedPenalty_bound qr mask p :
  wellFormed qr = true -> maskedPenalty qr mask = Some p ->
  0 <= p <= Size qr * Size qr.
Proof.
  intros Hwf Hp.
  destruct (maskedPenalty_spec qr mask Hwf) as (q1 & _ & Hwf1 & HS & _ & Hp' & _).
  rewrite Hp' in Hp. injection Hp as <-.
  apply wellFormed_spec in Hwf1 as [Hsq _]. rewrite HS in Hsq.
  now apply referencePenalty_bound.
Qed.

Lemma findBestMask_step qr k st :
  wellFormed qr = true -> 0 <= k -> bestSoFar qr k st ->
  exists st',
    (let '(bestMask, bestPenalty, q) := st in
     q1 ← applyMask k q;
     penalty ← calculatePenalty q1;
     q2 ← applyMask k q1;
     if penalty <? bestPenalty then Some (k, penalty, q2)
     else Some (bestMask, bestPenalty, q2)) = Some st'
    /\ bestSoFar qr (k + 1) st'.
Proof.
  intros Hwf Hk. destruct st as [[bm bp] q].
  intros (-> & Hbm0 & Hbm & Hmin & Hbest).
  destruct (maskedPenalty_spec qr k Hwf) as (q1 & Hrun & _ & _ & Hpen & Hmp & Hback).
  rewrite Hrun; simpl. rewrite Hpen; simpl. rewrite Hback; simpl.
  set (pk := referencePenalty (Modules q1)) in *.
  destruct (pk <? bp) eqn:E; eexists; (split; [reflexivity |]);
    (split; [reflexivity |]); (split; [lia |]); (split; [lia |]); split.
  - intros j p Hj Hp. destruct (Z.eq_dec j k) as [-> | Hne].
    + rewrite Hmp in Hp. injection Hp as <-. lia.
    + specialize (Hmin j p ltac:(lia) Hp). lia.
  - right. split; [exact Hmp |]. split.
    + destruct Hbest as [[-> _] | (_ & Hlt & _)]; lia.
    + intros j p Hj Hp. specialize (Hmin j p ltac:(lia) Hp). lia.
  - intros j p Hj Hp. destruct (Z.eq_dec j k) as [-> | Hne].
    + rewrite Hmp in Hp. injection Hp as <-. lia.
    + apply (Hmin j p); [lia | exact Hp].
  - exact Hbest.
Qed.

(** [findBestMask] returns, hands back the symbol it was given, and its
    result is described by [bestSoFar] at 8. *)
Lemma findBestMask_spec qr :
  wellFormed qr = true ->
  exists bestMask bestPenalty,
    findBestMask qr = Some (bestMask, qr)
    /\ bestSoFar qr 8 (bestMask, bestPenalty, qr).
Proof.
  intros Hwf.
  destruct (for_invariant (bestSoFar qr)
              (fun mask '(bestMask, bestPenalty, q) =>
                 q1 ← applyMask mask q;
                 penalty ← calculatePenalty q1;
                 q2 ← applyMask mask q1;
                 if penalty <? bestPenalty then Some (mask, penalty, q2)
                 else Some (bestMask, bestPenalty, q2))
              0 8 (0, MaxInt32, qr) ltac:(lia))
    as ([[bm bp] q] & Hrun & Hinv).
  - split; [reflexivity |]. split; [lia |]. split; [lia |]. split; [intros; lia |].
    left. split; reflexivity.
  - intros k st Hk Hst.
    destruct (findBestMask_step qr k st Hwf ltac:(lia) Hst) as (st' & Hst' & Hinv').
    exists st'. split; [| exact Hinv'].
    destruct st as [[bm bp] q]. exact Hst'.
  - pose proof Hinv as (-> & _).
    exists bm, bp. split; [| exact Hinv].
    unfold findBestMask. rewrite Hrun. reflexivity.
Qed.

(** ** Data placer *)

Section AddData.
Variables (data : list Z) (qr : QRCode).

Lemma addDataCell_step x y st :
  placing qr st ->
  exists st', addDataCell data (len data * 8) x y st = Some st' /\ placing qr st'.
Proof.
  destruct st as [bi q]. intros (Hbi & Hwf & Heq & Hframe).
  assert (HF : IsFunction q = IsFunction qr) by (rewrite Heq; reflexivity).
  unfold addDataCell. destruct (inBounds q x y) eqn:Hin; [| eexists; split; [reflexivity |]; repeat split; assumption].
  pose proof Hin as Hin'. apply inBounds_spec in Hin' as [Hx Hy].
  pose proof Hwf as Hwf'. apply wellFormed_spec in Hwf' as [_ Hsqf].
  destruct (index2_total _ _ x y Hsqf Hx Hy) as [f Hf]. rewrite Hf; simpl.
  destruct f; simpl; [eexists; split; [reflexivity |]; repeat split; assumption |].
  assert (Hkeep : forall v q', setModule x y v q = Some q' ->
            wellFormed q' = true -> q' = withModules q (Modules q') ->
            (forall x' y', x' <> x \/ y' <> y -> moduleAt q' x' y' = moduleAt q x' y') ->
            forall bi', 0 <= bi' -> placing qr (bi', q')).
  { intros v q' _ Hwf1 Heq1 Hother bi' Hbi'. split; [exact Hbi' |]. split; [exact Hwf1 |].
    split.
    - rewrite Heq1. now apply withModules_idem.
    - intros x' y' Hfun. rewrite <- (Hframe x' y' Hfun). apply Hother.
      destruct (Z.eq_dec x' x) as [-> | ?]; [| now left].
      destruct (Z.eq_dec y' y) as [-> | ?]; [| now right].
      unfold functionAt in Hfun. rewrite <- HF, Hf in Hfun. discriminate. }
  destruct (bi <? len data * 8) eqn:Hlt.
  - destruct (index_total data (Z.quot bi 8)) as [d Hd].
    { rewrite Z.quot_div_nonneg by lia. split.
      - apply Z.div_pos; lia.
      - apply Z.div_lt_upper_bound; lia. }
    rewrite Hd; simpl.
    destruct (setModule_spec x y (negb (Z.land d (Z.shiftl 1 (7 - Z.rem bi 8)) =? 0)) q Hwf)
      as (q' & Hset & Hwf1 & Heq1 & _ & Hother).
    rewrite Hset; simpl. eexists. split; [reflexivity |].
    eapply Hkeep; eauto; lia.
  - destruct (setModule_spec x y false q Hwf) as (q' & Hset & Hwf1 & Heq1 & _ & Hother).
    rewrite Hset; simpl. eexists. split; [reflexivity |].
    eapply Hkeep; eauto; lia.
Qed.

(** One column pair: the loop over the rows and, inside, over the two
    columns of the pair. *)
Lemma addDataRows_step (col : Z) (upward : bool) n st :
  0 <= n -> placing qr st ->
  exists st',
    for_ 0 n
      (fun i =>
         for_ 0 2 (fun c => addDataCell data (len data * 8) (col - c)
                              (if upward then n - 1 - i else i)))
      st = Some st'
    /\ placing qr st'.
Proof.
  intros Hn Hst.
  apply (for_invariant (fun _ => placing qr)); [exact Hn | exact Hst |].
  intros i t _ Ht.
  apply (for_invariant (fun _ => placing qr)); [lia | exact Ht |].
  intros c u _ Hu. apply addDataCell_step. exact Hu.
Qed.

Lemma placing_size st : placing qr st -> Size (snd st) = Size qr.
Proof. destruct st as [bi q]. intros (_ & _ & -> & _). reflexivity. Qed.

(** The column loop ends before its fuel does. *)
Lemma addDataCols_total (fuel : nat) :
  forall col st,
    Z.max 0 (col + 1) < Z.of_nat fuel -> placing qr st ->
    exists st', addDataCols fuel data (len data * 8) col st = Some st'
                /\ placing qr st'.
Proof.
  induction fuel as [| fuel IH]; intros col st Hfuel Hst; [lia |].
  cbn [addDataCols]. destruct (col >=? 0) eqn:Hcol; [| exists st; split; [reflexivity | exact Hst]].
  pose proof (placing_size st Hst) as HS.
  assert (Hn : 0 <= Size (snd st)).
  { destruct st as [bi q]. destruct Hst as (_ & Hwf & _). now apply wellFormed_size. }
  destruct (addDataRows_step (if col =? 6 then col - 1 else col)
              (Z.rem (Z.quot (Size (snd st) - 1 - (if col =? 6 then col - 1 else col)) 2) 2 =? 0)
              (Size (snd st)) st Hn Hst) as (st1 & Hrows & Hst1).
  cbv zeta. rewrite Hrows. cbn [mbind option_bind].
  apply IH; [| exact Hst1]. destruct (col =? 6); lia.
Qed.

Lemma addData_spec :
  wellFormed qr = true ->
  exists q, addData data qr = Some q /\ placing qr (len data * 8, q) .
Proof.
  intros Hwf. pose proof (wellFormed_size _ Hwf) as Hn.
  destruct (addDataCols_total (Z.to_nat (Size qr) + 1) (Size qr - 1) (0, qr))
    as ([bi q] & Hrun & (Hbi & Hq)).
  - lia.
  - split; [lia |]. split; [exact Hwf |]. split; [now rewrite withModules_self | reflexivity].
  - exists q. unfold addData. rewrite Hrun. split; [reflexivity |].
    split; [pose proof (len_nonneg data); lia | exact Hq].
Qed.
End AddData.

(** ** Function cells, involution, best mask, penalty *)

(** C2. On a well-formed symbol [addData] and [applyMask] (for every mask
    index 0 to 7) return, leave the function grid as it is, and every cell
    that was marked function before keeps its value in [Modules]. *)
Theorem function_cells_are_untouched (qr : QRCode) (data : list Z) :
  wellFormed qr = true ->
  (exists q, addData data qr = Some q /\ IsFunction q = IsFunction qr /\
     forall x y, functionAt qr x y = Some true ->
                 moduleAt q x y = moduleAt qr x y) /\
  (forall mask, 0 <= mask <= 7 ->
     exists q, applyMask mask qr = Some q /\ IsFunction q = IsFunction qr /\
       forall x y, functionAt qr x y = Some true ->
                   moduleAt q x y = moduleAt qr x y).
Proof.
  intros Hwf. split.
  - destruct (addData_spec data qr Hwf) as (q & Hrun & _ & _ & Heq & Hframe).
    exists q. split; [exact Hrun |]. split; [now rewrite Heq | exact Hframe].
  - intros mask _.
    destruct (applyMask_spec mask qr Hwf) as (q & Hrun & _ & Heq & Hcells).
    exists q. split; [exact Hrun |]. split; [now rewrite Heq |].
    intros x y Hfun.
    pose proof Hwf as Hwf'. apply wellFormed_spec in Hwf' as [_ Hsqf].
    destruct (index2_range _ _ _ _ _ Hsqf Hfun) as [Hx Hy].
    rewrite Hcells by assumption. now apply maskedAt_function.
Qed.

Lemma function_cells_are_untouched_witness :
  wellFormed samplePatterns = true /\
  (exists q, addData [65; 86; 135] samplePatterns = Some q /\
     IsFunction q = IsFunction samplePatterns /\
     forall x y, functionAt samplePatterns x y = Some true ->
                 moduleAt q x y = moduleAt samplePatterns x y) /\
  (forall mask, 0 <= mask <= 7 ->
     exists q, applyMask mask samplePatterns = Some q /\
       IsFunction q = IsFunction samplePatterns /\
       forall x y, functionAt samplePatterns x y = Some true ->
                   moduleAt q x y = moduleAt samplePatterns x y).
Proof.
  split; [vm_compute; reflexivity |].
  apply (function_cells_are_untouched samplePatterns [65; 86; 135]).
  vm_compute; reflexivity.
Defined.

(** C3. On a well-formed symbol, applying a mask twice gives back the
    [Modules] grid, for every mask index; and [findBestMask] returns with
    [Modules] as it found it. *)
Theorem mask_twice_restores_modules (qr : QRCode) :
  wellFormed qr = true ->
  (forall mask, exists q1 q2,
     applyMask mask qr = Some q1 /\ applyMask mask q1 = Some q2 /\
     Modules q2 = Modules qr) /\
  (exists bestMask q,
     findBestMask qr = Some (bestMask, q) /\ Modules q = Modules qr).
Proof.
  intros Hwf. split.
  - intros mask. destruct (applyMask_twice mask qr Hwf) as (q1 & H1 & _ & _ & H2).
    exists q1, qr. auto.
  - destruct (findBestMask_spec qr Hwf) as (bm & bp & Hrun & _).
    exists bm, qr. auto.
Qed.

Lemma mask_twice_restores_modules_witness :
  wellFormed sampleSymbol = true /\
  (forall mask, exists q1 q2,
     applyMask mask sampleSymbol = Some q1 /\ applyMask mask q1 = Some q2 /\
     Modules q2 = Modules sampleSymbol) /\
  (exists bestMask q,
     findBestMask sampleSymbol = Some (bestMask, q) /\
     Modules q = Modules sampleSymbol).
Proof.
  split; [vm_compute; reflexivity |].
  apply (mask_twice_restores_modules sampleSymbol). vm_compute; reflexivity.
Defined.

(** C6. On a well-formed symbol whose penalties stay below [MaxInt32]
    (every symbol of at most 46340 cells a side), [findBestMask] returns a
    mask index in [0, 7]; each of the 8 candidates has a penalty, the
    penalty of the returned one is the least, and no candidate of lower
    index reaches it. *)
Theorem best_mask_is_first_minimum (qr : QRCode) :
  wellFormed qr = true ->
  Size qr * Size qr < MaxInt32 ->
  exists bestMask q best,
    findBestMask qr = Some (bestMask, q) /\
    0 <= bestMask <= 7 /\
    maskedPenalty qr bestMask = Some best /\
    forall k, 0 <= k <= 7 ->
      exists p, maskedPenalty qr k = Some p /\ best <= p /\ (p = best -> bestMask <= k).
Proof.
  intros Hwf Hsmall.
  destruct (findBestMask_spec qr Hwf) as (bm & bp & Hrun & _ & Hbm0 & Hbm & Hmin & Hbest).
  assert (Hall : forall k, exists p, maskedPenalty qr k = Some p /\ p < MaxInt32).
  { intros k. destruct (maskedPenalty_spec qr k Hwf) as (q1 & _ & _ & _ & _ & Hp & _).
    eexists. split; [exact Hp |].
    pose proof (maskedPenalty_bound qr k _ Hwf Hp). lia. }
  destruct Hbest as [[-> ->] | (Hp & Hlt & Hfirst)].
  - destruct (Hall 0) as (p0 & Hp0 & Hlt0).
    specialize (Hmin 0 p0 ltac:(lia) Hp0). lia.
  - exists bm, qr, bp. split; [exact Hrun |]. split; [lia |]. split; [exact Hp |].
    intros k Hk. destruct (Hall k) as (p & Hpk & _).
    exists p. split; [exact Hpk |]. split.
    + apply (Hmin k p); [lia | exact Hpk].
    + intros ->. destruct (Z.le_gt_cases bm k) as [Hle | Hgt]; [exact Hle |].
      specialize (Hfirst k bp ltac:(lia) Hpk). lia.
Qed.

Lemma best_mask_is_first_minimum_witness :
  wellFormed sampleSymbol = true /\
  Size sampleSymbol * Size sampleSymbol < MaxInt32 /\
  exists bestMask q best,
    findBestMask sampleSymbol = Some (bestMask, q) /\
    0 <= bestMask <= 7 /\
    maskedPenalty sampleSymbol bestMask = Some best /\
    forall k, 0 <= k <= 7 ->
      exists p, maskedPenalty sampleSymbol k = Some p /\ best <= p
                /\ (p = best -> bestMask <= k).
Proof.
  split; [vm_compute; reflexivity |]. split; [vm_compute; reflexivity |].
  apply (best_mask_is_first_minimum sampleSymbol); vm_compute; reflexivity.
Defined.

(** C7. On a well-formed symbol [calculatePenalty] returns the reference
    row-run score of [Modules]: the sum, over all rows and over every
    maximal run of equal cells of the row whose length is at least 5, of
    [3 + (runLength - 5)]; nothing else is added.  The runs of a row are
    its maximal runs: put one after the other they give the row, and two
    runs that follow each other differ in value. *)
Theorem penalty_is_row_run_score (qr : QRCode) :
  wellFormed qr = true ->
  calculatePenalty qr = Some (referencePenalty (Modules qr)) /\
  referencePenalty (Modules qr)
  = sumZ (map (fun row =>
                 sumZ (map (fun r => if 5 <=? snd r then 3 + (snd r - 5) else 0)
                         (runs row)))
            (Modules qr)) /\
  forall y row, index (Modules qr) y = Some row ->
    (forall p, penaltyRow qr y p = Some (p + rowScore row)) /\
    flat_map (fun r => replicate (Z.to_nat (snd r)) (fst r)) (runs row) = row /\
    (forall i r1 r2, runs row !! i = Some r1 ->
                     runs row !! Datatypes.S i = Some r2 -> fst r1 <> fst r2).
Proof.
  intros Hwf. split; [| split].
  - now apply calculatePenalty_spec.
  - reflexivity.
  - intros y row Hrow. split; [| split].
    + intros p. now apply penaltyRow_spec.
    + apply runs_concat.
    + apply runs_maximal.
Qed.

Lemma penalty_is_row_run_score_witness :
  wellFormed sampleSymbol = true /\
  calculatePenalty sampleSymbol = Some (referencePenalty (Modules sampleSymbol)) /\
  referencePenalty (Modules sampleSymbol)
  = sumZ (map (fun row =>
                 sumZ (map (fun r => if 5 <=? snd r then 3 + (snd r - 5) else 0)
                         (runs row)))
            (Modules sampleSymbol)) /\
  forall y row, index (Modules sampleSymbol) y = Some row ->
    (forall p, penaltyRow sampleSymbol y p = Some (p + rowScore row)) /\
    flat_map (fun r => replicate (Z.to_nat (snd r)) (fst r)) (runs row) = row /\
    (forall i r1 r2, runs row !! i = Some r1 ->
                     runs row !! Datatypes.S i = Some r2 -> fst r1 <> fst r2).
Proof.
  split; [vm_compute; reflexivity |].
  apply (penalty_is_row_run_score sampleSymbol). vm_compute; reflexivity.
Defined.

(** The sample symbols are the states the pipeline reaches, and the
    factory returns well-formed symbols. *)
Example samples_are_pipeline_states :
  symbolOf localhost = Some localhostSymbol /\
  patternsPlaced localhost = Some samplePatterns /\
  dataPlaced localhost = Some sampleSymbol /\
  wellFormed localhostSymbol = true /\
  Size sampleSymbol = 25.
Proof.
  split; [vm_compute; reflexivity |]. split; [vm_compute; reflexivity |].
  split; [vm_compute; reflexivity |]. split; vm_compute; reflexivity.
Qed.

(** Runs down a column are not scored. *)
Example column_runs_not_scored : calculatePenalty stripes = Some 0.
Proof. reflexivity. Qed.

Example sample_penalties :
  map (maskedPenalty sampleSymbol) [0; 1; 2; 3; 4; 5; 6; 7]
  = map Some [85; 281; 120; 112; 97; 163; 123; 93]
  /\ fst <$> findBestMask sampleSymbol = Some 0.
Proof. split; vm_compute; reflexivity. Qed.

(** ** Format-information embedder *)

Lemma setModule_in x y v q :
  wellFormed q = true -> inBounds q x y = true ->
  exists q', setModule x y v q = Some q' /\ wellFormed q' = true
    /\ Size q' = Size q
    /\ (forall x' y', functionAt q' x' y' = functionAt q x' y')
    /\ (forall x' y', moduleAt q' x' y'
          = if (x' =? x) && (y' =? y) then Some v else moduleAt q x' y').
Proof.
  intros Hwf Hin.
  destruct (setModule_spec x y v q Hwf) as (q' & Hrun & Hwf' & Heq & Hhit & Hmiss).
  exists q'. split; [exact Hrun |]. split; [exact Hwf' |].
  split; [rewrite Heq; reflexivity |]. split; [intros; rewrite Heq; reflexivity |].
  intros x' y'. destruct (Z.eqb_spec x' x) as [-> | Hx];
    [destruct (Z.eqb_spec y' y) as [-> | Hy] |]; simpl; auto.
Qed.

Lemma setFunction_in x y v q :
  wellFormed q = true -> inBounds q x y = true ->
  exists q', setFunction x y v q = Some q' /\ wellFormed q' = true
    /\ Size q' = Size q
    /\ (forall x' y', moduleAt q' x' y' = moduleAt q x' y')
    /\ (forall x' y', functionAt q' x' y'
          = if (x' =? x) && (y' =? y) then Some v else functionAt q x' y').
Proof.
  intros Hwf Hin. pose proof Hwf as Hwf'. apply wellFormed_spec in Hwf' as [Hm Hf].
  unfold setFunction. rewrite Hin. apply inBounds_spec in Hin as [Hx Hy].
  destruct (store2_total _ _ x y v Hf Hx Hy) as [g Hg]. rewrite Hg; simpl.
  eexists. split; [reflexivity |]. split; [| split; [reflexivity | split; [reflexivity |]]].
  - apply wellFormed_spec; simpl. split; [exact Hm |].
    exact (store2_square _ _ _ _ _ _ Hf Hg).
  - intros x' y'. unfold functionAt; simpl.
    destruct (Z.eqb_spec x' x) as [-> | Hx'];
      [destruct (Z.eqb_spec y' y) as [-> | Hy'] |]; simpl.
    + exact (index2_store2_eq _ _ _ _ _ Hg).
    + apply (index2_store2_ne _ _ _ _ _ _ _ Hg). now right.
    + apply (index2_store2_ne _ _ _ _ _ _ _ Hg). now left.
Qed.

(** Run the write at the head of the goal. *)
Ltac run_write :=
  let q' := fresh "q" in
  let Hwf := fresh "Hwf" in
  let HS := fresh "HS" in
  let Hf := fresh "Hfn" in
  let Hm := fresh "Hmd" in
  lazymatch goal with
  | |- exists r, (setModule ?x ?y ?v ?q ≫= _) = Some r /\ _ =>
      destruct (setModule_in x y v q) as (q' & -> & Hwf & HS & Hf & Hm);
      [assumption | apply inBounds_spec; lia |]
  | |- exists r, setModule ?x ?y ?v ?q = Some r /\ _ =>
      destruct (setModule_in x y v q) as (q' & -> & Hwf & HS & Hf & Hm);
      [assumption | apply inBounds_spec; lia |]
  | |- exists r, (setFunction ?x ?y ?v ?q ≫= _) = Some r /\ _ =>
      destruct (setFunction_in x y v q) as (q' & -> & Hwf & HS & Hm & Hf);
      [assumption | apply inBounds_spec; lia |]
  | |- exists r, setFunction ?x ?y ?v ?q = Some r /\ _ =>
      destruct (setFunction_in x y v q) as (q' & -> & Hwf & HS & Hm & Hf);
      [assumption | apply inBounds_spec; lia |]
  end;
  cbn [mbind option_bind]; rewrite ?HS in *.

(** Close a goal [stored cells v q q'] from the equations [run_write]
    left in the context. *)
Ltac close_stored :=
  eexists; split; [reflexivity |];
  split; [assumption |]; split; [congruence |];
  split; intros x' y';
  repeat match goal with
    | H : forall x y, moduleAt ?q x y = _ |- context [moduleAt ?q _ _] => rewrite H
    | H : forall x y, functionAt ?q x y = _ |- context [functionAt ?q _ _] => rewrite H
    end;
  unfold writes; cbn [existsb fst snd];
  repeat match goal with
    | |- context [?a =? ?b] => destruct (Z.eqb_spec a b); try lia
    end;
  reflexivity.

Lemma formatStep_spec f i q :
  wellFormed q = true -> 21 <= Size q -> 0 <= i <= 14 ->
  exists q', formatStep f i q = Some q'
             /\ stored (formatWrites (Size q) i) (bitAt f i) q q'.
Proof.
  intros Hwf Hn Hi. unfold formatStep, formatWrites, stored.
  destruct (i <? 6) eqn:E6; [apply Z.ltb_lt in E6 | apply Z.ltb_ge in E6].
  { do 4 run_write. close_stored. }
  destruct (i =? 6) eqn:E6'; [apply Z.eqb_eq in E6' | apply Z.eqb_neq in E6'].
  { do 4 run_write. close_stored. }
  destruct (i =? 7) eqn:E7; [apply Z.eqb_eq in E7 | apply Z.eqb_neq in E7].
  { do 2 run_write. close_stored. }
  destruct (i =? 8) eqn:E8; [apply Z.eqb_eq in E8 | apply Z.eqb_neq in E8].
  { do 2 run_write. close_stored. }
  do 4 run_write. close_stored.
Qed.

Lemma formatConstant_total el mask :
  0 <= mask <= 7 -> exists f, formatConstant el mask = Some f.
Proof.
  intros Hm. unfold formatConstant.
  destruct el; cbn [levelIndex]; (simpl index at 1); cbn [mbind option_bind];
    apply index_total; unfold len; simpl; lia.
Qed.

Section FormatLoop.
Variables (qr : QRCode) (f : Z).
Hypothesis Hwf : wellFormed qr = true.
Hypothesis Hsize : 21 <= Size qr.

Lemma formatLoop_cells :
  exists q0, for_ 0 15 (formatStep f) qr = Some q0 /\ fmtInv qr f 15 q0.
Proof.
  apply (for_invariant (fmtInv qr f)); [lia | |].
  - repeat split; auto.
  - intros i q Hi (Hq & HS & Hmod & Hfun).
    destruct (formatStep_spec f i q Hq ltac:(lia) ltac:(lia))
      as (q' & Hrun & Hq' & HS' & Hmod' & Hfun').
    exists q'. split; [exact Hrun |]. split; [exact Hq' |]. split; [congruence |].
    replace (Z.to_nat (i + 1)) with (Datatypes.S (Z.to_nat i)) by lia.
    cbn [cellAfter]. rewrite Z2Nat.id by lia. rewrite HS in *.
    split; intros x y; [rewrite Hmod', Hmod | rewrite Hfun', Hfun]; reflexivity.
Qed.
End FormatLoop.

(** A cell no iteration writes keeps its content. *)
Lemma cellAfter_frame {A} n (val : Z -> A) (k : nat) x y orig :
  writes (flat_map (formatWrites n) (seqZ 0 (Z.of_nat k))) x y = false ->
  cellAfter n val k x y orig = orig.
Proof.
  induction k as [| k IH]; [reflexivity |].
  replace (Z.of_nat (Datatypes.S k)) with (Z.of_nat k + 1) by lia.
  rewrite seqZ_app by lia. cbn [seqZ]. rewrite flat_map_app.
  unfold writes in *. rewrite existsb_app. intros H.
  apply orb_false_iff in H as [H1 H2]. cbn [cellAfter].
  change (seqZ (0 + Z.of_nat k) 1) with [0 + Z.of_nat k] in H2.
  cbn [flat_map] in H2. rewrite app_nil_r, Z.add_0_l in H2.
  unfold writes. rewrite H2. now apply IH.
Qed.

(** A cell some iteration writes is marked function. *)
Lemma cellAfter_marked n (k : nat) x y orig :
  writes (flat_map (formatWrites n) (seqZ 0 (Z.of_nat k))) x y = true ->
  cellAfter n (fun _ => true) k x y orig = Some true.
Proof.
  induction k as [| k IH]; [discriminate |].
  replace (Z.of_nat (Datatypes.S k)) with (Z.of_nat k + 1) by lia.
  rewrite seqZ_app by lia. rewrite flat_map_app.
  unfold writes in *. rewrite existsb_app. intros H. cbn [cellAfter].
  change (seqZ (0 + Z.of_nat k) 1) with [0 + Z.of_nat k] in H.
  cbn [flat_map] in H. rewrite app_nil_r, Z.add_0_l in H.
  unfold writes.
  destruct (existsb _ (formatWrites n (Z.of_nat k))); [reflexivity |].
  rewrite orb_false_r in H. now apply IH.
Qed.

(** Settle the comparisons of a goal by arithmetic. *)
Ltac settle_tests :=
  repeat match goal with
    | |- context [?a =? ?b] =>
        first
          [ replace (a =? b) with true by (symmetry; apply Z.eqb_eq; lia)
          | replace (a =? b) with false by (symmetry; apply Z.eqb_neq; lia) ]
    end.

(** Evaluate [cellAfter] after the 15 iterations at a given cell. *)
Ltac eval_cell :=
  change (Z.to_nat 15) with 15%nat;
  cbn [cellAfter]; unfold writes, formatWrites;
  repeat match goal with
    | |- context [Z.of_nat ?k] =>
        let v := eval compute in (Z.of_nat k) in change (Z.of_nat k) with v
    end;
  repeat match goal with
    | |- context [?a <? ?b] =>
        let v := eval compute in (a <? b) in change (a <? b) with v
    end;
  settle_tests; cbn [existsb fst snd]; settle_tests; cbn [andb orb].

(** The layout the loop of [addFormatInfo] leaves. *)
Lemma cellAfter_layout n f orig :
  21 <= n ->
  (forall i, 0 <= i <= 5 ->
     cellAfter n (bitAt f) 15 8 i (orig 8 i) = Some (bitAt f i)) /\
  cellAfter n (bitAt f) 15 8 7 (orig 8 7) = Some (bitAt f 6) /\
  cellAfter n (bitAt f) 15 8 8 (orig 8 8) = Some (bitAt f 7) /\
  cellAfter n (bitAt f) 15 7 8 (orig 7 8) = Some (bitAt f 8) /\
  (forall i, 9 <= i <= 14 ->
     cellAfter n (bitAt f) 15 (14 - i) 8 (orig (14 - i) 8) = Some (bitAt f i) /\
     cellAfter n (bitAt f) 15 8 (n - 15 + i) (orig 8 (n - 15 + i))
     = Some (bitAt f i)).
Proof.
  intros Hn. split; [| split; [| split; [| split]]].
  - intros i Hi.
    assert (Hc : i = 0 \/ i = 1 \/ i = 2 \/ i = 3 \/ i = 4 \/ i = 5) by lia.
    repeat (destruct Hc as [-> | Hc]); try subst i; eval_cell; reflexivity.
  - eval_cell; reflexivity.
  - eval_cell; reflexivity.
  - eval_cell; reflexivity.
  - intros i Hi.
    assert (Hc : i = 9 \/ i = 10 \/ i = 11 \/ i = 12 \/ i = 13 \/ i = 14) by lia.
    repeat (destruct Hc as [-> | Hc]); try subst i; (split; eval_cell; reflexivity).
Qed.

Lemma darkModule_spec q0 :
  wellFormed q0 = true -> 21 <= Size q0 ->
  exists q, darkModule q0 = Some q /\ stored [(8, Size q0 - 8)] true q0 q.
Proof.
  intros Hwf Hn. unfold darkModule, stored. do 2 run_write. close_stored.
Qed.

Lemma formatLoop_formatConstant qr f :
  formatConstant (Level qr) (Mask qr) = Some f ->
  formatLoop qr = for_ 0 15 (formatStep f) qr.
Proof.
  unfold formatConstant, formatLoop. intros H.
  destruct (index formatInfos (levelIndex (Level qr))) as [row |]; [| discriminate].
  simpl in *. now rewrite H.
Qed.

Lemma writes_app cells1 cells2 x y :
  writes (cells1 ++ cells2) x y = writes cells1 x y || writes cells2 x y.
Proof. unfold writes. apply existsb_app. Qed.

(** In the table entry [0x5412] (level [Low], mask 0) bit 1 is set, but the
    cell at row 8, column 1 of the finished symbol is light: it holds
    bit 13. *)
Lemma format_bit_1_not_on_row_8 :
  formatConstant Low 0 = Some 0x5412 /\
  bitAt 0x5412 1 = true /\ bitAt 0x5412 13 = false /\
  (addFormatInfo blank21 ≫= fun q => moduleAt q 1 8) = Some false.
Proof.
  split; [reflexivity |]. split; [reflexivity |]. split; [reflexivity |].
  vm_compute. reflexivity.
Qed.

(** C4 (amended). On a well-formed symbol of size at least 21 with a mask
    index in [0, 7], [addFormatInfo] returns and leaves bit [i] of the
    format constant [f] of [(Level, Mask)]
    - for [i] in 0..5 at column 8, row [i];
    - bit 6 at column 8, row 7; bit 7 at (8, 8); bit 8 at column 7, row 8;
    - for [i] in 9..14 at row 8, column [14 - i], and at column 8, row
      [Size - 15 + i].
    The last mutation, after the loop, sets the cell at column 8, row
    [Size - 8] dark and marks it function.  Every written cell is marked
    function, and no other cell of either grid changes. *)
Theorem format_info_layout (qr : QRCode) :
  wellFormed qr = true -> 21 <= Size qr -> 0 <= Mask qr <= 7 ->
  exists f q0 q,
    formatConstant (Level qr) (Mask qr) = Some f /\
    formatLoop qr = Some q0 /\ darkModule q0 = Some q /\
    addFormatInfo qr = Some q /\
    (forall i, 0 <= i <= 5 -> moduleAt q 8 i = Some (bitAt f i)) /\
    moduleAt q 8 7 = Some (bitAt f 6) /\
    moduleAt q 8 8 = Some (bitAt f 7) /\
    moduleAt q 7 8 = Some (bitAt f 8) /\
    (forall i, 9 <= i <= 14 ->
       moduleAt q (14 - i) 8 = Some (bitAt f i) /\
       moduleAt q 8 (Size qr - 15 + i) = Some (bitAt f i)) /\
    moduleAt q 8 (Size qr - 8) = Some true /\
    functionAt q 8 (Size qr - 8) = Some true /\
    (forall x y, (x <> 8 \/ y <> Size qr - 8) ->
       moduleAt q x y = moduleAt q0 x y /\ functionAt q x y = functionAt q0 x y) /\
    (forall x y, writes (formatCells (Size qr)) x y = true ->
       functionAt q x y = Some true) /\
    (forall x y, writes (formatCells (Size qr)) x y = false ->
       moduleAt q x y = moduleAt qr x y /\ functionAt q x y = functionAt qr x y).
Proof.
  intros Hwf Hn Hmask.
  destruct (formatConstant_total (Level qr) (Mask qr) Hmask) as [f Hf].
  destruct (formatLoop_cells qr f Hwf Hn) as (q0 & Hloop & Hwf0 & HS0 & Hmod0 & Hfun0).
  destruct (darkModule_spec q0 Hwf0 ltac:(lia)) as (q & Hdark & _ & _ & Hmod & Hfun).
  rewrite HS0 in Hmod, Hfun.
  destruct (cellAfter_layout (Size qr) f (moduleAt qr) Hn) as (L05 & L6 & L7 & L8 & L9).
  assert (Hdarkcell : forall x y, writes [(8, Size qr - 8)] x y
                        = (x =? 8) && (y =? Size qr - 8))
    by (intros; unfold writes; simpl; now rewrite orb_false_r).
  assert (Hkeep : forall x y, (x <> 8 \/ y <> Size qr - 8) ->
            writes [(8, Size qr - 8)] x y = false).
  { intros x y Hne. rewrite Hdarkcell. apply andb_false_iff.
    destruct Hne; [left | right]; now apply Z.eqb_neq. }
  assert (Hmod' : forall x y, (x <> 8 \/ y <> Size qr - 8) ->
            moduleAt q x y
            = cellAfter (Size qr) (bitAt f) 15 x y (moduleAt qr x y)).
  { intros x y Hne. rewrite Hmod, (Hkeep x y Hne). apply Hmod0. }
  assert (Hhit : writes [(8, Size qr - 8)] 8 (Size qr - 8) = true)
    by (rewrite Hdarkcell, !Z.eqb_refl; reflexivity).
  exists f, q0, q.
  split; [exact Hf |]. split; [now rewrite (formatLoop_formatConstant qr f Hf) |].
  split; [exact Hdark |].
  split.
  { unfold addFormatInfo. rewrite (formatLoop_formatConstant qr f Hf), Hloop. exact Hdark. }
  split; [intros i Hi; rewrite Hmod' by lia; now apply L05 |].
  split; [rewrite Hmod' by lia; exact L6 |].
  split; [rewrite Hmod' by lia; exact L7 |].
  split; [rewrite Hmod' by lia; exact L8 |].
  split; [intros i Hi; rewrite !Hmod' by lia; now apply L9 |].
  split; [now rewrite Hmod, Hhit |].
  split; [now rewrite Hfun, Hhit |].
  split; [intros x y Hne; now rewrite Hmod, Hfun, (Hkeep x y Hne) |].
  split.
  - intros x y Hw. unfold formatCells in Hw. rewrite writes_app in Hw.
    rewrite Hfun. destruct (writes [(8, Size qr - 8)] x y); [reflexivity |].
    rewrite orb_false_r in Hw. rewrite Hfun0. now apply cellAfter_marked.
  - intros x y Hw. unfold formatCells in Hw. rewrite writes_app in Hw.
    apply orb_false_iff in Hw as [Hw1 Hw2].
    rewrite Hmod, Hfun, Hw2, Hmod0, Hfun0.
    split; now apply cellAfter_frame.
Qed.

Lemma format_info_layout_witness :
  wellFormed sampleSymbol = true /\ 21 <= Size sampleSymbol /\
  0 <= Mask sampleSymbol <= 7 /\
  exists f q0 q,
    formatConstant (Level sampleSymbol) (Mask sampleSymbol) = Some f /\
    formatLoop sampleSymbol = Some q0 /\ darkModule q0 = Some q /\
    addFormatInfo sampleSymbol = Some q /\
    (forall i, 0 <= i <= 5 -> moduleAt q 8 i = Some (bitAt f i)) /\
    moduleAt q 8 7 = Some (bitAt f 6) /\
    moduleAt q 8 8 = Some (bitAt f 7) /\
    moduleAt q 7 8 = Some (bitAt f 8) /\
    (forall i, 9 <= i <= 14 ->
       moduleAt q (14 - i) 8 = Some (bitAt f i) /\
       moduleAt q 8 (Size sampleSymbol - 15 + i) = Some (bitAt f i)) /\
    moduleAt q 8 (Size sampleSymbol - 8) = Some true /\
    functionAt q 8 (Size sampleSymbol - 8) = Some true /\
    (forall x y, (x <> 8 \/ y <> Size sampleSymbol - 8) ->
       moduleAt q x y = moduleAt q0 x y /\ functionAt q x y = functionAt q0 x y) /\
    (forall x y, writes (formatCells (Size sampleSymbol)) x y = true ->
       functionAt q x y = Some true) /\
    (forall x y, writes (formatCells (Size sampleSymbol)) x y = false ->
       moduleAt q x y = moduleAt sampleSymbol x y /\
       functionAt q x y = functionAt sampleSymbol x y).
Proof.
  split; [vm_compute; reflexivity |].
  split; [vm_compute; discriminate |].
  split; [vm_compute; split; discriminate |].
  apply (format_info_layout sampleSymbol).
  - vm_compute; reflexivity.
  - vm_compute; discriminate.
  - vm_compute; split; discriminate.
Defined.

(** ** Bits *)

Lemma bitAt_testbit value i : 0 <= i -> bitAt value i = Z.testbit value i.
Proof.
  intros Hi. unfold bitAt.
  change 1 with (Z.ones 1). rewrite Z.land_ones by lia.
  change (2 ^ 1) with 2. rewrite <- Z.bit0_mod, Z.shiftr_spec by lia.
  rewrite Z.add_0_l.
  destruct (Z.testbit value i); reflexivity.
Qed.

Lemma intToBits_8 value : intToBits value 8 = Some (msbBits value 8).
Proof.
  unfold msbBits. cbn [seq rev app map].
  rewrite <- !bitAt_testbit by lia.
  unfold intToBits. generalize (bitAt value). intros bit.
  vm_compute. reflexivity.
Qed.

Lemma len_msbBits value n : len (msbBits value n) = Z.of_nat n.
Proof. unfold msbBits, len. now rewrite length_map, length_rev, length_seq. Qed.

Lemma len_byteBits b : len (byteBits b) = 8.
Proof. apply len_msbBits. Qed.

Lemma len_bitsOfBytes bytes : len (bitsOfBytes bytes) = 8 * len bytes.
Proof.
  induction bytes as [| b bytes IH]; [reflexivity |].
  unfold bitsOfBytes in *. cbn [flat_map]. rewrite len_app, len_byteBits, IH.
  unfold len. simpl length. lia.
Qed.

(** The loop that appends the bits of every payload byte. *)
Lemma dataBits_loop data :
  forall bits,
    forEach data (fun b bits => bb ← intToBits b 8; Some (bits ++ bb)) bits
    = Some (bits ++ bitsOfBytes data).
Proof.
  induction data as [| b data IH]; intros bits.
  - simpl. now rewrite app_nil_r.
  - cbn [forEach]. rewrite intToBits_8. cbn [mbind option_bind].
    rewrite IH. unfold bitsOfBytes. cbn [flat_map]. now rewrite app_assoc.
Qed.

(** The terminator loop. *)
Lemma terminator_loop (n : nat) :
  forall i (bits : list bool),
    forLoop n i (fun _ bits => Some (bits ++ [false])) bits
    = Some (bits ++ replicate n false).
Proof.
  induction n as [| n IH]; intros i bits.
  - simpl. now rewrite app_nil_r.
  - cbn [forLoop mbind option_bind]. rewrite IH. cbn [replicate].
    now rewrite <- app_assoc.
Qed.

(** The loop that pads to a byte boundary stops within its 8 rounds. *)
Lemma padToByte_rounds (k : nat) :
  forall fuel bits,
    (k < fuel)%nat ->
    (len bits + Z.of_nat k) mod 8 = 0 ->
    (forall j, (j < k)%nat -> (len bits + Z.of_nat j) mod 8 <> 0) ->
    while fuel (fun bits => negb (Z.rem (len bits) 8 =? 0))
      (fun bits => Some (bits ++ [false])) bits
    = Some (bits ++ replicate k false).
Proof.
  induction k as [| k IH]; intros fuel bits Hfuel Hend Hbefore;
    (destruct fuel as [| fuel]; [lia |]); cbn [while];
    pose proof (len_nonneg bits) as Hl;
    rewrite Z.rem_mod_nonneg by lia.
  - rewrite Z.add_0_r in Hend. rewrite Hend. simpl. now rewrite app_nil_r.
  - pose proof (Hbefore O ltac:(lia)) as Hnow. rewrite Z.add_0_r in Hnow.
    apply Z.eqb_neq in Hnow. rewrite Hnow. cbn [negb mbind option_bind].
    rewrite IH.
    + cbn [replicate]. now rewrite <- app_assoc.
    + lia.
    + rewrite len_app. change (len [false]) with 1.
      now replace (len bits + 1 + Z.of_nat k)
        with (len bits + Z.of_nat (Datatypes.S k)) by lia.
    + intros j Hj. rewrite len_app. change (len [false]) with 1.
      replace (len bits + 1 + Z.of_nat j)
        with (len bits + Z.of_nat (Datatypes.S j)) by lia.
      apply Hbefore. lia.
Qed.

Lemma padToByte_spec bits :
  padToByte bits
  = Some (bits ++ replicate (Z.to_nat ((8 - len bits mod 8) mod 8)) false).
Proof.
  pose proof (len_nonneg bits) as Hl.
  apply padToByte_rounds.
  - assert (0 <= (8 - len bits mod 8) mod 8 < 8) by (apply Z.mod_pos_bound; lia). lia.
  - rewrite Z2Nat.id by (apply Z.mod_pos_bound; lia).
    Z.div_mod_to_equations. lia.
  - intros j Hj. Z.div_mod_to_equations. lia.
Qed.

Lemma padBytes_index (k : nat) :
  index padBytes (Z.rem (Z.of_nat k) 2) = Some (padPattern k).
Proof.
  rewrite Z.rem_mod_nonneg by lia. unfold padPattern.
  destruct (Nat.even k) eqn:E.
  - apply Nat.even_spec in E as [m ->].
    replace (Z.of_nat (2 * m) mod 2) with 0 by (Z.div_mod_to_equations; lia).
    reflexivity.
  - assert (Ho : Nat.odd k = true) by (unfold Nat.odd; now rewrite E).
    apply Nat.odd_spec in Ho as [m ->].
    replace (Z.of_nat (2 * m + 1) mod 2) with 1 by (Z.div_mod_to_equations; lia).
    reflexivity.
Qed.

(** The padding loop appends [n] pattern bytes and stops within its
    fuel. *)
Lemma padLoop_rounds maxBits (n : nat) :
  forall fuel bits (k : nat),
    (n < fuel)%nat ->
    maxBits <= len bits + 8 * Z.of_nat n ->
    ((0 < n)%nat -> len bits + 8 * Z.of_nat n = maxBits) ->
    while fuel
      (fun st : list bool * Z => len (fst st) <? maxBits)
      (fun st =>
         padByte ← index padBytes (Z.rem (snd st) 2);
         b ← intToBits padByte 8;
         Some (fst st ++ b, snd st + 1))
      (bits, Z.of_nat k)
    = Some (bits ++ bitsOfBytes (map padPattern (seq k n)), Z.of_nat (k + n)).
Proof.
  induction n as [| n IH]; intros fuel bits k Hfuel Hle Heq;
    (destruct fuel as [| fuel]; [lia |]); cbn [while fst snd].
  - replace (len bits <? maxBits) with false by (symmetry; apply Z.ltb_ge; lia).
    simpl. now rewrite app_nil_r, Nat.add_0_r.
  - specialize (Heq ltac:(lia)).
    replace (len bits <? maxBits) with true by (symmetry; apply Z.ltb_lt; lia).
    rewrite padBytes_index. cbn [mbind option_bind]. rewrite intToBits_8.
    cbn [mbind option_bind].
    replace (Z.of_nat k + 1) with (Z.of_nat (Datatypes.S k)) by lia.
    rewrite IH.
    + cbn [seq map]. unfold bitsOfBytes. cbn [flat_map]. fold (byteBits (padPattern k)).
      rewrite <- app_assoc. do 2 f_equal. lia.
    + lia.
    + rewrite len_app. fold (byteBits (padPattern k)). rewrite len_byteBits. lia.
    + intros _. rewrite len_app. fold (byteBits (padPattern k)).
      rewrite len_byteBits. lia.
Qed.

(** *** Packing bits into bytes *)

(** A byte built from 8 bits has these bits, and is a byte. *)
Lemma packChunk_byteBits b0 b1 b2 b3 b4 b5 b6 b7 :
  byteBits (packChunk [b0; b1; b2; b3; b4; b5; b6; b7] 0 0)
  = [b0; b1; b2; b3; b4; b5; b6; b7]
  /\ 0 <= packChunk [b0; b1; b2; b3; b4; b5; b6; b7] 0 0 < 256.
Proof.
  destruct b0, b1, b2, b3, b4, b5, b6, b7; vm_compute; repeat split; congruence.
Qed.

Section PackBits.
Variable bits : list bool.

(** The inner loop, entered at bit [j] of byte [i]. *)
Lemma packByte_loop (done zeros : list Z) (rest : list bool) :
  forall (pre : list bool) (j cur : Z),
    0 <= j -> j + len rest = 8 ->
    (exists post, bits = pre ++ rest ++ post) ->
    len pre = len done * 8 + j ->
    for_ j 8
      (fun j bytes =>
         b ← index bits (len done * 8 + j);
         if b : bool then
           old ← index bytes (len done);
           store bytes (len done) (Z.lor old (Z.shiftl 1 (7 - j)))
         else Some bytes)
      (done ++ cur :: zeros)
    = Some (done ++ packChunk rest j cur :: zeros).
Proof.
  induction rest as [| b rest IH]; intros pre j cur Hj Hlen [post Hbits] Hpre.
  - change (len []) with 0 in Hlen. apply for_empty. lia.
  - replace (len (b :: rest)) with (len rest + 1) in Hlen by (unfold len; simpl; lia).
    pose proof (len_nonneg rest) as Hr.
    rewrite for_step by lia.
    assert (Hb : index bits (len done * 8 + j) = Some b).
    { rewrite Hbits. cbn [app]. apply index_app_middle. lia. }
    rewrite Hb. cbn [mbind option_bind packChunk].
    assert (Hnext :
      for_ (j + 1) 8
        (fun j bytes =>
           b ← index bits (len done * 8 + j);
           if b : bool then
             old ← index bytes (len done);
             store bytes (len done) (Z.lor old (Z.shiftl 1 (7 - j)))
           else Some bytes)
        (done ++ (if b then Z.lor cur (Z.shiftl 1 (7 - j)) else cur) :: zeros)
      = Some (done ++ packChunk rest (j + 1)
                        (if b then Z.lor cur (Z.shiftl 1 (7 - j)) else cur) :: zeros)).
    { apply (IH (pre ++ [b])); [lia | lia | |].
      - exists post. rewrite Hbits. now rewrite <- app_assoc.
      - rewrite len_app. change (len [b]) with 1. lia. }
    destruct b; cbn [mbind option_bind].
    + rewrite (index_app_middle done zeros cur (len done) eq_refl).
      cbn [mbind option_bind].
      assert (Hst : store (done ++ cur :: zeros) (len done)
                      (Z.lor cur (Z.shiftl 1 (7 - j)))
                    = Some (done ++ Z.lor cur (Z.shiftl 1 (7 - j)) :: zeros)).
      { apply store_Some. split.
        - unfold len. rewrite length_app. simpl. lia.
        - unfold len. rewrite Nat2Z.id.
          now rewrite insert_app_r_alt, Nat.sub_diag by lia. }
      rewrite Hst. cbn [mbind option_bind]. exact Hnext.
    + exact Hnext.
Qed.
End PackBits.

Lemma list_of_len_8 (l : list bool) :
  len l = 8 ->
  exists b0 b1 b2 b3 b4 b5 b6 b7, l = [b0; b1; b2; b3; b4; b5; b6; b7].
Proof.
  unfold len. intros H.
  do 8 (destruct l as [| ? l]; [simpl in H; lia |]).
  destruct l; [| simpl in H; lia]. repeat eexists.
Qed.

Lemma bitsOfBytes_app b1 b2 :
  bitsOfBytes (b1 ++ b2) = bitsOfBytes b1 ++ bitsOfBytes b2.
Proof. unfold bitsOfBytes. apply flat_map_app. Qed.

(** Packing a whole number of bytes returns bytes that hold exactly the
    given bits. *)
Lemma packBits_spec bits (m : nat) :
  len bits = 8 * Z.of_nat m ->
  exists bytes, packBits bits = Some bytes /\ len bytes = Z.of_nat m
                /\ bitsOfBytes bytes = bits /\ isBytes bytes.
Proof.
  intros Hlen. unfold packBits, make.
  replace (Z.quot (len bits) 8) with (Z.of_nat m)
    by (rewrite Z.quot_div_nonneg by lia; Z.div_mod_to_equations; lia).
  replace (Z.of_nat m <? 0) with false by (symmetry; apply Z.ltb_ge; lia).
  cbn [mbind option_bind]. rewrite len_replicate, Nat2Z.id.
  destruct (for_invariant
    (fun i bytes => exists done,
       bytes = done ++ replicate (Z.to_nat (Z.of_nat m - i)) 0 /\ len done = i
       /\ bitsOfBytes done = take (Z.to_nat (8 * i)) bits /\ isBytes done)
    (fun i =>
       for_ 0 8 (fun j bytes =>
         b ← index bits (i * 8 + j);
         if b : bool then
           old ← index bytes i;
           store bytes i (Z.lor old (Z.shiftl 1 (7 - j)))
         else Some bytes))
    0 (Z.of_nat m) (replicate m 0) ltac:(lia)) as (bytes & Hrun & done & Hb & Hd & Hbits & Hrange).
  - exists []. rewrite Z.sub_0_r, Nat2Z.id. repeat split; constructor.
  - intros i bytes Hi (done & -> & Hd & Hbits & Hrange). subst i.
    replace (Z.to_nat (Z.of_nat m - len done))
      with (Datatypes.S (Z.to_nat (Z.of_nat m - (len done + 1)))) by lia.
    cbn [replicate].
    set (pre := take (Z.to_nat (8 * len done)) bits) in *.
    set (chunk := take 8 (drop (Z.to_nat (8 * len done)) bits)).
    set (post := drop 8 (drop (Z.to_nat (8 * len done)) bits)).
    assert (Hsplit : bits = pre ++ chunk ++ post).
    { unfold pre, chunk, post. now rewrite !take_drop. }
    assert (Hpre : len pre = len done * 8).
    { unfold pre, len. rewrite length_take. unfold len in *. lia. }
    assert (Hchunk : len chunk = 8).
    { unfold chunk, len. rewrite length_take, length_drop. unfold len in *. lia. }
    rewrite (packByte_loop bits done _ chunk pre 0 0);
      [| lia | lia | now exists post | lia].
    destruct (list_of_len_8 chunk Hchunk) as (b0 & b1 & b2 & b3 & b4 & b5 & b6 & b7 & Hc).
    destruct (packChunk_byteBits b0 b1 b2 b3 b4 b5 b6 b7) as [Hbb Hbr].
    rewrite <- Hc in Hbb, Hbr.
    eexists. split; [reflexivity |].
    exists (done ++ [packChunk chunk 0 0]). split; [now rewrite <- app_assoc |].
    split; [rewrite len_app; reflexivity |]. split.
    + rewrite bitsOfBytes_app, Hbits. unfold bitsOfBytes at 1. cbn [flat_map].
      rewrite app_nil_r, Hbb. unfold pre, chunk.
      replace (Z.to_nat (8 * (len done + 1))) with (Z.to_nat (8 * len done) + 8)%nat by lia.
      apply take_take_drop.
    + apply Forall_app. split; [exact Hrange |]. repeat constructor; lia.
  - exists bytes. split; [exact Hrun |].
    replace (Z.to_nat (Z.of_nat m - Z.of_nat m)) with O in Hb by lia.
    cbn [replicate] in Hb. rewrite app_nil_r in Hb. subst bytes.
    split; [exact Hd |]. split; [| exact Hrange].
    rewrite Hbits. apply take_ge. unfold len in Hlen. lia.
Qed.

(** ** Byte-mode encoder *)

Lemma min_Zmin a b : min a b = Z.min a b.
Proof. unfold min. destruct (Z.ltb_spec a b); lia. Qed.

(** The encoder returns, and the bits of its bytes are the reference
    stream of the capacity of the symbol. *)
Lemma encodeData_stream qr cap :
  getDataCapacity qr = Some cap -> 0 <= cap ->
  exists bytes,
    encodeData qr = Some bytes /\ isBytes bytes /\
    bitsOfBytes bytes = referenceStream cap (Data qr).
Proof.
  intros Hcap Hpos. unfold encodeData, referenceStream.
  rewrite intToBits_8. cbn [mbind option_bind]. rewrite dataBits_loop.
  cbn [mbind option_bind]. rewrite Hcap. cbn [mbind option_bind].
  change (([] ++ [false; true; false; false]) ++ msbBits (len (Data qr)) 8)
    with ([false; true; false; false] ++ msbBits (len (Data qr)) 8).
  fold (bitsOfBytes (Data qr)).
  set (payload := ([false; true; false; false] ++ msbBits (len (Data qr)) 8)
                  ++ bitsOfBytes (Data qr)).
  unfold for_ at 1. rewrite terminator_loop. cbn [mbind option_bind].
  rewrite Z.sub_0_r, min_Zmin.
  set (terminated := payload ++ replicate (Z.to_nat (Z.min 4 (cap * 8 - len payload))) false).
  rewrite padToByte_spec. cbn [mbind option_bind].
  set (aligned := terminated ++ replicate (Z.to_nat ((8 - len terminated mod 8) mod 8)) false).
  assert (Hal : len aligned mod 8 = 0).
  { unfold aligned. rewrite len_app, len_replicate.
    rewrite Z2Nat.id by (apply Z.mod_pos_bound; lia).
    pose proof (len_nonneg terminated). Z.div_mod_to_equations. lia. }
  pose proof (len_nonneg aligned) as Hal0.
  set (n := Z.to_nat ((cap * 8 - len aligned) / 8)).
  unfold padLoop. change 0 with (Z.of_nat 0) at 1.
  rewrite (padLoop_rounds (cap * 8) n).
  - cbn [mbind option_bind].
    set (stream := aligned ++ bitsOfBytes (map padPattern (seq 0 n))).
    assert (Hlen : len stream = 8 * Z.of_nat (Z.to_nat (len stream / 8))).
    { assert (Hs : len stream mod 8 = 0).
      { unfold stream. rewrite len_app, len_bitsOfBytes.
        Z.div_mod_to_equations. lia. }
      pose proof (len_nonneg stream).
      rewrite Z2Nat.id by (apply Z.div_pos; lia).
      Z.div_mod_to_equations. lia. }
    destruct (packBits_spec stream _ Hlen) as (bytes & Hrun & _ & Hbits & Hrange).
    exists bytes. split; [exact Hrun |]. split; [exact Hrange |]. exact Hbits.
  - unfold n. assert ((cap * 8 - len aligned) / 8 <= cap * 8)
      by (Z.div_mod_to_equations; lia). lia.
  - unfold n. destruct (Z.le_gt_cases (cap * 8) (len aligned)); [lia |].
    rewrite Z2Nat.id by (apply Z.div_pos; lia). Z.div_mod_to_equations. lia.
  - unfold n. intros Hn.
    assert (0 < (cap * 8 - len aligned) / 8) by lia.
    rewrite Z2Nat.id by lia. Z.div_mod_to_equations. lia.
Qed.

(** For a capacity that leaves room for the header and the terminator the
    reference stream has no alignment padding and fills the capacity. *)
Lemma referenceStream_accepted cap data :
  len data + 3 <= cap ->
  referenceStream cap data
  = [false; true; false; false] ++ msbBits (len data) 8 ++ bitsOfBytes data
    ++ [false; false; false; false]
    ++ bitsOfBytes (map padPattern (seq 0 (Z.to_nat (cap - len data - 2))))
  /\ len (referenceStream cap data) = cap * 8.
Proof.
  intros Hfit. pose proof (len_nonneg data) as Hd.
  unfold referenceStream. fold (bitsOfBytes data).
  set (payload := ([false; true; false; false] ++ msbBits (len data) 8)
                  ++ bitsOfBytes data).
  assert (Hp : len payload = 12 + 8 * len data).
  { unfold payload. rewrite !len_app, len_msbBits, len_bitsOfBytes.
    change (len [false; true; false; false]) with 4. lia. }
  replace (Z.to_nat (Z.min 4 (cap * 8 - len payload))) with 4%nat by lia.
  set (terminated := payload ++ replicate 4 false).
  assert (Ht : len terminated = 16 + 8 * len data).
  { unfold terminated. rewrite len_app, len_replicate. lia. }
  replace (Z.to_nat ((8 - len terminated mod 8) mod 8)) with O
    by (rewrite Ht; Z.div_mod_to_equations; lia).
  cbn [replicate]. rewrite app_nil_r.
  replace (Z.to_nat ((cap * 8 - len terminated) / 8))
    with (Z.to_nat (cap - len data - 2))
    by (rewrite Ht; f_equal; Z.div_mod_to_equations; lia).
  split.
  - unfold terminated, payload. now rewrite <- !app_assoc.
  - rewrite len_app, len_bitsOfBytes, Ht.
    unfold len at 2. rewrite length_map, length_seq. lia.
Qed.

Lemma sizer_accepts L v el :
  0 <= L <= int_max - 3 ->
  determineVersionAndErrorLevel L = Some (v, el) -> v <> -1 ->
  1 <= v <= 10 /\ exists c, capacity v el = Some c /\ L + 3 <= c.
Proof.
  intros HL Hrun Hv. unfold determineVersionAndErrorLevel in Hrun.
  rewrite wrap_small in Hrun by (unfold int_min, int_max in *; lia).
  destruct (versionLoop_seqZ (L + 3) 10 1 ltac:(lia) ltac:(lia)) as (r & Hr & Hpost).
  change (Z.of_nat 10) with (len versionCapacity) in Hr.
  rewrite Hrun in Hr. injection Hr as <-.
  destruct Hpost as [(-> & _) | (Hin & Hfit & _)]; [contradiction |].
  split; [lia | exact Hfit].
Qed.

(** ** Factory *)

Lemma len_bytesOf url : len (bytesOf url) = Z.of_nat (String.length url).
Proof.
  unfold bytesOf, len. rewrite length_map. f_equal.
  induction url as [| a url IH]; simpl; congruence.
Qed.

(** [initializeGrids] returns two blank square grids. *)
Lemma initializeGrids_spec qr :
  0 <= Size qr ->
  exists log,
    initializeGrids qr
    = Some (log, mkQRCode (Version qr) (Size qr) (Level qr) (Mask qr)
                   (blankGrid (Size qr)) (blankGrid (Size qr)) (Data qr)).
Proof.
  intros Hn. unfold initializeGrids, make.
  replace (Size qr <? 0) with false by (symmetry; apply Z.ltb_ge; lia).
  cbn [mbind option_bind].
  set (n := Size qr) in *. set (row := replicate (Z.to_nat n) false).
  set (partial := fun i : Z =>
         replicate (Z.to_nat i) row ++ replicate (Z.to_nat (n - i)) ([] : list bool)).
  destruct (for_invariant
    (fun i (st : list event * QRCode) =>
       snd st = mkQRCode (Version qr) n (Level qr) (Mask qr)
                  (partial i) (partial i) (Data qr))
    (fun i '(log, q) =>
       mrow ← (if Size q <? 0 then None else Some (replicate (Z.to_nat (Size q)) false));
       m' ← store (Modules q) i mrow;
       frow ← (if Size q <? 0 then None else Some (replicate (Z.to_nat (Size q)) false));
       f' ← store (IsFunction q) i frow;
       Some (log ++ [MakeRow (Size q); MakeRow (Size q)],
             mkQRCode (Version q) (Size q) (Level q) (Mask q) m' f' (Data q)))
    0 n ([MakeGrid n; MakeGrid n],
         mkQRCode (Version qr) n (Level qr) (Mask qr)
           (replicate (Z.to_nat n) []) (replicate (Z.to_nat n) []) (Data qr))
    Hn) as ([log q] & Hrun & Hq).
  - unfold partial. cbn [snd]. now rewrite Z.sub_0_r.
  - intros i [log q] Hi Hq. cbn [snd] in Hq. subst q. cbn [Size Modules IsFunction
      Version Level Mask Data].
    replace (n <? 0) with false by (symmetry; apply Z.ltb_ge; lia).
    cbn [mbind option_bind]. fold row.
    assert (Hst : store (partial i) i row = Some (partial (i + 1))).
    { apply store_Some. unfold partial. split.
      - rewrite len_app, !len_replicate. lia.
      - replace (Z.to_nat (n - i)) with (Datatypes.S (Z.to_nat (n - (i + 1)))) by lia.
        cbn [replicate].
        rewrite insert_app_r_alt by (rewrite length_replicate; lia).
        rewrite length_replicate, Nat.sub_diag. cbn [insert list_insert].
        replace (Z.to_nat (i + 1)) with (Datatypes.S (Z.to_nat i)) by lia.
        rewrite replicate_S_end, <- app_assoc. reflexivity. }
    rewrite Hst. cbn [mbind option_bind].
    eexists. split; [reflexivity |]. reflexivity.
  - cbn [snd] in Hq. subst q. exists log. rewrite Hrun. do 3 f_equal.
    all: unfold partial, blankGrid; rewrite Z.sub_diag; cbn [Z.to_nat replicate];
      now rewrite app_nil_r.
Qed.

Lemma blankGrid_square n : 0 <= n -> square n (blankGrid n) = true.
Proof.
  intros Hn. apply square_spec. unfold blankGrid. split.
  - rewrite len_replicate. lia.
  - apply Forall_replicate. rewrite len_replicate. lia.
Qed.

(** A payload the sizer accepts gets a well-formed blank symbol of the
    selected version and level. *)
Lemma NewQRCode_accepts url v el :
  0 < len (bytesOf url) ->
  determineVersionAndErrorLevel (len (bytesOf url)) = Some (v, el) ->
  1 <= v <= 10 ->
  exists log qr,
    NewQRCode url = Some (log, inr qr) /\ wellFormed qr = true /\
    qr = mkQRCode v (21 + (v - 1) * 4) el 0
           (blankGrid (21 + (v - 1) * 4)) (blankGrid (21 + (v - 1) * 4))
           (bytesOf url).
Proof.
  intros Hlen Hsizer Hv. unfold NewQRCode, isValidURL.
  rewrite <- len_bytesOf.
  replace (len (bytesOf url) =? 0) with false by (symmetry; apply Z.eqb_neq; lia).
  cbn [negb]. cbv zeta. rewrite Hsizer. cbn [mbind option_bind].
  replace (v =? -1) with false by (symmetry; apply Z.eqb_neq; lia).
  destruct (initializeGrids_spec
              (mkQRCode v (21 + (v - 1) * 4) el 0 [] [] (bytesOf url)))
    as (log & Hinit); [simpl; lia |].
  rewrite Hinit. cbn [mbind option_bind Version Size Level Mask Data].
  do 2 eexists. split; [reflexivity |]. split; [| reflexivity].
  apply wellFormed_spec. cbn [Size Modules IsFunction].
  split; apply blankGrid_square; lia.
Qed.

Lemma NewQRCode_rejects url el :
  0 < len (bytesOf url) ->
  determineVersionAndErrorLevel (len (bytesOf url)) = Some (-1, el) ->
  NewQRCode url = Some ([], inl (ErrURLTooLong (len (bytesOf url)))).
Proof.
  intros Hlen Hsizer. unfold NewQRCode, isValidURL.
  rewrite <- len_bytesOf.
  replace (len (bytesOf url) =? 0) with false by (symmetry; apply Z.eqb_neq; lia).
  cbn [negb]. cbv zeta. rewrite Hsizer. reflexivity.
Qed.

(** ** The sizer contract *)

(** C1. For every payload length [L] the sizer returns: version -1 (with
    level [Low]) exactly when [L + 3 > 271]; otherwise the smallest
    version of [1, 10] and, within it, the strongest error level whose
    capacity is at least [L + 3].  [NewQRCode] turns version -1, and
    nothing else, into its "URL too long" error. *)
Theorem sizer_smallest_strongest (L : Z) :
  0 <= L <= int_max - 3 ->
  exists v el,
    determineVersionAndErrorLevel L = Some (v, el) /\
    (v = -1 <-> L + 3 > 271) /\
    (v = -1 -> el = Low) /\
    (v <> -1 ->
       1 <= v <= 10 /\
       (exists c, capacity v el = Some c /\ L + 3 <= c) /\
       (forall v' el' c',
          1 <= v' < v -> capacity v' el' = Some c' -> c' < L + 3) /\
       (forall el' c',
          stronger el' el -> capacity v el' = Some c' -> c' < L + 3)) /\
    (forall url, len (bytesOf url) = L -> 0 < L ->
       (exists log, NewQRCode url = Some (log, inl (ErrURLTooLong L)))
       <-> L + 3 > 271).
Proof.
  intros HL. unfold determineVersionAndErrorLevel.
  rewrite wrap_small by (unfold int_min, int_max in *; lia).
  destruct (versionLoop_seqZ (L + 3) 10 1 ltac:(lia) ltac:(lia))
    as ([v el] & Hrun & Hpost).
  assert (Hsizer : determineVersionAndErrorLevel L = Some (v, el)).
  { unfold determineVersionAndErrorLevel.
    rewrite wrap_small by (unfold int_min, int_max in *; lia). exact Hrun. }
  exists v, el. split; [exact Hrun |].
  destruct Hpost as [(-> & -> & Hall) | (Hin & (c & Hc & Hfit) & Hprev & Hstr)].
  - assert (Hbig : L + 3 > 271).
    { specialize (Hall 10 Low 271 ltac:(lia) eq_refl). lia. }
    repeat split; auto; try lia.
    intros _. exists []. subst L. now apply (NewQRCode_rejects url Low).
  - destruct (capacity_total v el ltac:(lia)) as (c0 & Hc0 & Hrange).
    assert (c0 = c) by congruence; subst c0.
    repeat split; try lia; eauto.
    intros [log Hnew]. subst L.
    destruct (NewQRCode_accepts url v el ltac:(lia) Hsizer ltac:(lia))
      as (log' & qr & Hok & _).
    rewrite Hok in Hnew. discriminate.
Qed.

Lemma sizer_smallest_strongest_witness :
  exists v el,
    determineVersionAndErrorLevel 100 = Some (v, el) /\
    (v = -1 <-> 100 + 3 > 271) /\
    (v = -1 -> el = Low) /\
    (v <> -1 ->
       1 <= v <= 10 /\
       (exists c, capacity v el = Some c /\ 100 + 3 <= c) /\
       (forall v' el' c',
          1 <= v' < v -> capacity v' el' = Some c' -> c' < 100 + 3) /\
       (forall el' c',
          stronger el' el -> capacity v el' = Some c' -> c' < 100 + 3)) /\
    (forall url, len (bytesOf url) = 100 -> 0 < 100 ->
       (exists log, NewQRCode url = Some (log, inl (ErrURLTooLong 100)))
       <-> 100 + 3 > 271).
Proof. apply (sizer_smallest_strongest 100). unfold int_max. lia. Defined.

Example sizer_100 : determineVersionAndErrorLevel 100 = Some (5, Low).
Proof. reflexivity. Qed.

Example sizer_268 : determineVersionAndErrorLevel 268 = Some (10, Low).
Proof. reflexivity. Qed.

Example sizer_269 : determineVersionAndErrorLevel 269 = Some (-1, Low).
Proof. reflexivity. Qed.

(** Scenario C: a payload of 300 bytes is rejected as too long. *)
Example payload_of_300_bytes :
  NewQRCode (string_of_list_ascii (repeat "a"%char 300))
  = Some ([], inl (ErrURLTooLong 300)).
Proof. vm_compute. reflexivity. Qed.

(** C5. For a payload the sizer accepts, on the symbol of the selected
    version and level, [encodeData] returns exactly [capacity] bytes whose
    bits are the reference stream: mode indicator 0100, the 8-bit length
    field, the payload bytes most significant bit first, the terminator
    (here 4 zero bits, after which the stream is byte aligned), then the
    pattern [0xEC, 0x11] cycled up to [capacity * 8] bits. *)
Theorem encodeData_fills_capacity (qr : QRCode) (v : Z) (el : ErrorLevel) :
  len (Data qr) <= int_max - 3 ->
  determineVersionAndErrorLevel (len (Data qr)) = Some (v, el) ->
  v <> -1 ->
  Version qr = v -> Level qr = el ->
  exists cap bytes,
    capacity v el = Some cap /\ len (Data qr) + 3 <= cap /\
    encodeData qr = Some bytes /\ len bytes = cap /\ isBytes bytes /\
    len (bitsOfBytes bytes) = cap * 8 /\
    bitsOfBytes bytes = referenceStream cap (Data qr) /\
    bitsOfBytes bytes
    = [false; true; false; false] ++ msbBits (len (Data qr)) 8
      ++ bitsOfBytes (Data qr) ++ [false; false; false; false]
      ++ bitsOfBytes (map padPattern
                        (seq 0 (Z.to_nat (cap - len (Data qr) - 2)))).
Proof.
  intros HL Hsizer Hv HV HE.
  pose proof (len_nonneg (Data qr)) as Hd.
  destruct (sizer_accepts (len (Data qr)) v el (conj Hd HL) Hsizer Hv)
    as (Hrange & cap & Hcap & Hfit).
  assert (Hget : getDataCapacity qr = Some cap).
  { unfold getDataCapacity. rewrite HV, HE.
    change (len versionCapacity) with 10.
    replace ((v >? 10) || (v <? 1)) with false; [exact Hcap |].
    symmetry. apply orb_false_iff. lia. }
  destruct (encodeData_stream qr cap Hget ltac:(lia)) as (bytes & Hrun & Hbytes & Hbits).
  destruct (referenceStream_accepted cap (Data qr) Hfit) as [Hshape Hlen].
  exists cap, bytes.
  split; [exact Hcap |]. split; [exact Hfit |]. split; [exact Hrun |].
  assert (Hbl : len (bitsOfBytes bytes) = cap * 8) by now rewrite Hbits.
  split; [rewrite len_bitsOfBytes in Hbl; lia |].
  split; [exact Hbytes |]. split; [exact Hbl |]. split; [exact Hbits |].
  now rewrite Hbits.
Qed.

Lemma encodeData_fills_capacity_witness :
  exists cap bytes,
    capacity 2 Medium = Some cap /\ len (Data localhostSymbol) + 3 <= cap /\
    encodeData localhostSymbol = Some bytes /\ len bytes = cap /\ isBytes bytes /\
    len (bitsOfBytes bytes) = cap * 8 /\
    bitsOfBytes bytes = referenceStream cap (Data localhostSymbol) /\
    bitsOfBytes bytes
    = [false; true; false; false] ++ msbBits (len (Data localhostSymbol)) 8
      ++ bitsOfBytes (Data localhostSymbol) ++ [false; false; false; false]
      ++ bitsOfBytes (map padPattern
                        (seq 0 (Z.to_nat (cap - len (Data localhostSymbol) - 2)))).
Proof.
  apply (encodeData_fills_capacity localhostSymbol 2 Medium).
  - vm_compute; discriminate.
  - vm_compute; reflexivity.
  - discriminate.
  - vm_compute; reflexivity.
  - vm_compute; reflexivity.
Defined.

Example localhost_codewords :
  encodeData localhostSymbol
  = Some [65; 86; 135; 71; 71; 3; 162; 242; 246; 198; 246; 54; 22; 198; 134;
          247; 55; 67; 163; 131; 3; 131; 0; 236; 17; 236].
Proof. vm_compute. reflexivity. Qed.

(** ** Payloads of 256 to 268 bytes *)

Lemma long_length_cases L :
  256 <= L <= 268 ->
  L = 256 \/ L = 257 \/ L = 258 \/ L = 259 \/ L = 260 \/ L = 261 \/ L = 262
  \/ L = 263 \/ L = 264 \/ L = 265 \/ L = 266 \/ L = 267 \/ L = 268.
Proof. lia. Qed.

(** C10. A payload of 256 to 268 bytes is accepted at version 10 (level
    Low), and the 8-bit character-count field of the encoded stream (the
    8 bits after the 4-bit mode indicator) holds [L mod 256 = L - 256],
    not [L]. *)
Theorem long_payload_count_is_truncated (url : string) :
  256 <= len (bytesOf url) <= 268 ->
  exists log qr bytes,
    NewQRCode url = Some (log, inr qr) /\
    Version qr = 10 /\ Level qr = Low /\ Data qr = bytesOf url /\
    encodeData qr = Some bytes /\
    take 8 (drop 4 (bitsOfBytes bytes)) = msbBits (len (bytesOf url)) 8 /\
    msbBits (len (bytesOf url)) 8 = msbBits (len (bytesOf url) mod 256) 8 /\
    bitsValue (take 8 (drop 4 (bitsOfBytes bytes))) = len (bytesOf url) mod 256 /\
    len (bytesOf url) mod 256 = len (bytesOf url) - 256.
Proof.
  intros HL. set (L := len (bytesOf url)) in *.
  assert (Hsizer : determineVersionAndErrorLevel L = Some (10, Low)).
  { apply long_length_cases in HL.
    repeat (destruct HL as [-> | HL]); try rewrite HL; reflexivity. }
  destruct (NewQRCode_accepts url 10 Low ltac:(fold L; lia) Hsizer ltac:(lia))
    as (log & qr & Hnew & _ & Hqr).
  assert (HD : Data qr = bytesOf url) by (rewrite Hqr; reflexivity).
  assert (Hcap : getDataCapacity qr = Some 271) by (rewrite Hqr; reflexivity).
  destruct (encodeData_stream qr 271 Hcap ltac:(lia)) as (bytes & Hrun & _ & Hbits).
  destruct (referenceStream_accepted 271 (Data qr)) as [Hshape _];
    [rewrite HD; fold L; lia |].
  rewrite Hshape, HD in Hbits. fold L in Hbits.
  assert (Hfield : take 8 (drop 4 (bitsOfBytes bytes)) = msbBits L 8).
  { rewrite Hbits. cbn [app drop]. apply take_app_length'.
    pose proof (len_msbBits L 8) as Hl. unfold len in Hl. lia. }
  exists log, qr, bytes.
  split; [exact Hnew |]. split; [rewrite Hqr; reflexivity |].
  split; [rewrite Hqr; reflexivity |]. split; [exact HD |].
  split; [exact Hrun |]. split; [exact Hfield |].
  rewrite Hfield. apply long_length_cases in HL.
  repeat (destruct HL as [-> | HL]); try rewrite HL; repeat split; reflexivity.
Qed.

Lemma long_payload_count_is_truncated_witness :
  256 <= len (bytesOf longPayload) <= 268 /\
  exists log qr bytes,
    NewQRCode longPayload = Some (log, inr qr) /\
    Version qr = 10 /\ Level qr = Low /\ Data qr = bytesOf longPayload /\
    encodeData qr = Some bytes /\
    take 8 (drop 4 (bitsOfBytes bytes)) = msbBits (len (bytesOf longPayload)) 8 /\
    msbBits (len (bytesOf longPayload)) 8
    = msbBits (len (bytesOf longPayload) mod 256) 8 /\
    bitsValue (take 8 (drop 4 (bitsOfBytes bytes)))
    = len (bytesOf longPayload) mod 256 /\
    len (bytesOf longPayload) mod 256 = len (bytesOf longPayload) - 256.
Proof.
  split; [vm_compute; split; discriminate |].
  apply (long_payload_count_is_truncated longPayload).
  vm_compute; split; discriminate.
Defined.

Example long_payload_count_field :
  (q ← symbolOf longPayload; bytes ← encodeData q;
   Some (len (Data q), bitsValue (take 8 (drop 4 (bitsOfBytes bytes)))))
  = Some (260, 4).
Proof. vm_compute. reflexivity. Qed.

(** ** The whole pipeline on two payloads *)

Example generate_localhost :
  generated localhost = Some (2, Medium, 0, true, Some true).
Proof. vm_compute. reflexivity. Qed.

Example generate_long_payload :
  fst <$> generated longPayload = Some (10, Low, 7, true).
Proof. vm_compute. reflexivity. Qed.

(** On [stripes] mask 0 makes every row constant and mask 1 leaves the
    rows alternating; mask 2 ties with mask 1, and the lower index wins. *)
Example stripes_best_mask :
  map (maskedPenalty stripes) [0; 1; 2] = map Some [15; 0; 0]
  /\ findBestMask stripes = Some (1, stripes).
Proof. split; vm_compute; reflexivity. Qed.

(** ** Painting cells *)

Lemma for_ext {S : Type} (body1 body2 : Z -> S -> option S) lo hi s :
  (forall i t, lo <= i < hi -> body1 i t = body2 i t) ->
  for_ lo hi body1 s = for_ lo hi body2 s.
Proof.
  unfold for_. intros Hext.
  assert (Hgen : forall n i t, lo <= i -> i + Z.of_nat n <= Z.max lo hi ->
            forLoop n i body1 t = forLoop n i body2 t).
  { induction n as [| n IH]; intros i t Hi Hn; [reflexivity |].
    cbn [forLoop]. rewrite Hext by lia.
    destruct (body2 i t) as [t' |]; [| reflexivity].
    cbn [mbind option_bind]. apply IH; lia. }
  apply Hgen; lia.
Qed.

Lemma sameHeader_refl q : sameHeader q q.
Proof. repeat split. Qed.

Lemma sameHeader_trans q1 q2 q3 :
  sameHeader q1 q2 -> sameHeader q2 q3 -> sameHeader q1 q3.
Proof.
  intros (H1 & H2 & H3 & H4 & H5) (K1 & K2 & K3 & K4 & K5).
  repeat split; congruence.
Qed.

Lemma paints_refl q : wellFormed q = true -> paints noPaint q q.
Proof. intros Hwf. split; [exact Hwf |]. split; [apply sameHeader_refl |]. split; reflexivity. Qed.

Lemma paints_trans p1 p2 q1 q2 q3 :
  paints p1 q1 q2 -> paints p2 q2 q3 -> paints (over p2 p1) q1 q3.
Proof.
  intros (_ & Hh1 & Hm1 & Hf1) (Hwf & Hh2 & Hm2 & Hf2).
  split; [exact Hwf |]. split; [eapply sameHeader_trans; eauto |].
  unfold over. split; intros x y.
  - rewrite Hm2, Hm1. destruct (p2 x y); reflexivity.
  - rewrite Hf2, Hf1. destruct (p2 x y); [reflexivity |]. reflexivity.
Qed.

Lemma paints_ext p p' q q' :
  (forall x y, p x y = p' x y) -> paints p q q' -> paints p' q q'.
Proof.
  intros Hext (Hwf & Hh & Hm & Hf). split; [exact Hwf |]. split; [exact Hh |].
  split; intros x y; rewrite <- Hext; [apply Hm | apply Hf].
Qed.

Lemma paints_wellFormed p q q' : paints p q q' -> wellFormed q' = true.
Proof. intros H. apply H. Qed.

Lemma paints_size p q q' : paints p q q' -> Size q' = Size q.
Proof. intros (_ & (_ & H & _) & _). exact H. Qed.

(** Setting a cell in bounds and marking it function. *)
Lemma mark_spec x y v q :
  wellFormed q = true -> inBounds q x y = true ->
  exists q', (setModule x y v q ≫= setFunction x y true) = Some q'
             /\ paints (dot x y v) q q'.
Proof.
  intros Hwf Hin. pose proof Hwf as Hwf0. apply wellFormed_spec in Hwf0 as [Hm Hf].
  pose proof Hin as Hin0. apply inBounds_spec in Hin0 as [Hx Hy].
  unfold setModule. rewrite Hin.
  destruct (store2_total _ _ x y v Hm Hx Hy) as [m Hstore].
  rewrite Hstore. cbn [mbind option_bind].
  unfold setFunction. replace (inBounds (withModules q m) x y) with true.
  cbn [withModules IsFunction].
  destruct (store2_total _ _ x y true Hf Hx Hy) as [g Hg].
  rewrite Hg. cbn [mbind option_bind].
  eexists. split; [reflexivity |]. split; [| split; [repeat split | split]].
  - apply wellFormed_spec. cbn. split.
    + exact (store2_square _ _ _ _ _ _ Hm Hstore).
    + exact (store2_square _ _ _ _ _ _ Hf Hg).
  - intros x' y'. unfold moduleAt, dot. cbn.
    destruct (Z.eqb_spec x' x) as [-> | Hx'];
      [destruct (Z.eqb_spec y' y) as [-> | Hy'] |]; cbn.
    + exact (index2_store2_eq _ _ _ _ _ Hstore).
    + apply (index2_store2_ne _ _ _ _ _ _ _ Hstore). now right.
    + apply (index2_store2_ne _ _ _ _ _ _ _ Hstore). now left.
  - intros x' y'. unfold functionAt, dot. cbn.
    destruct (Z.eqb_spec x' x) as [-> | Hx'];
      [destruct (Z.eqb_spec y' y) as [-> | Hy'] |]; cbn.
    + exact (index2_store2_eq _ _ _ _ _ Hg).
    + apply (index2_store2_ne _ _ _ _ _ _ _ Hg). now right.
    + apply (index2_store2_ne _ _ _ _ _ _ _ Hg). now left.
Qed.

(** Case analysis on the comparisons of a goal, dropping the impossible
    cases as they appear. *)
Ltac split_tests :=
  repeat (match goal with
          | |- context [?a <=? ?b] => destruct (Z.leb_spec a b)
          | |- context [?a <? ?b] => destruct (Z.ltb_spec a b)
          | |- context [?a =? ?b] => destruct (Z.eqb_spec a b)
          end; try lia);
  cbn [andb orb negb]; try reflexivity; try lia.

Section Stamp.
Variables (px py lo hi : Z) (sel val : Z -> Z -> bool) (q0 : QRCode).
Hypothesis Hrange : lo <= hi.

Lemma stampCell_step dy dx q :
  lo <= dx < hi -> lo <= dy < hi ->
  paints (stampPaint (Size q0) px py lo hi sel val dy dx) q0 q ->
  exists q', stampCell px py sel val dy dx q = Some q'
    /\ paints (stampPaint (Size q0) px py lo hi sel val dy (dx + 1)) q0 q'.
Proof.
  intros Hdx Hdy Hq. pose proof (paints_wellFormed _ _ _ Hq) as Hwf.
  pose proof (paints_size _ _ _ Hq) as HS.
  unfold stampCell.
  destruct (inBounds q (px + dx) (py + dy)) eqn:Hin;
    [destruct (sel dx dy) eqn:Hsel |]; cbn [andb].
  - destruct (mark_spec (px + dx) (py + dy) (val dx dy) q Hwf Hin) as (q' & Hrun & Hq').
    exists q'. split; [exact Hrun |].
    eapply paints_ext; [| exact (paints_trans _ _ _ _ _ Hq Hq')].
    apply inBounds_spec in Hin. rewrite HS in Hin.
    intros x y. unfold over, dot, stampPaint.
    destruct (Z.eqb_spec x (px + dx)) as [-> | Hx];
      [destruct (Z.eqb_spec y (py + dy)) as [-> | Hy] |]; cbn [andb].
    + replace (px + dx - px) with dx by lia. replace (py + dy - py) with dy by lia.
      rewrite Hsel. split_tests.
    + split_tests.
    + split_tests.
  - exists q. split; [reflexivity |].
    eapply paints_ext; [| exact Hq].
    intros x y. unfold stampPaint.
    destruct (Z.eq_dec (x - px) dx) as [Hx | Hx];
      [destruct (Z.eq_dec (y - py) dy) as [Hy | Hy] |].
    + rewrite Hx, Hy, Hsel, !andb_false_r. reflexivity.
    + split_tests.
    + split_tests.
  - exists q. split; [reflexivity |].
    eapply paints_ext; [| exact Hq].
    assert (Hout : ~ (0 <= px + dx < Size q0 /\ 0 <= py + dy < Size q0)).
    { intros H. rewrite <- HS in H. apply inBounds_spec in H. congruence. }
    intros x y. unfold stampPaint.
    destruct (Z.eq_dec (x - px) dx) as [Hx | Hx];
      [destruct (Z.eq_dec (y - py) dy) as [Hy | Hy] |].
    + replace x with (px + dx) by lia. replace y with (py + dy) by lia.
      split_tests.
    + split_tests.
    + split_tests.
Qed.

Lemma stampRow_step dy q :
  lo <= dy < hi ->
  paints (stampPaint (Size q0) px py lo hi sel val dy lo) q0 q ->
  exists q', for_ lo hi (stampCell px py sel val dy) q = Some q'
    /\ paints (stampPaint (Size q0) px py lo hi sel val (dy + 1) lo) q0 q'.
Proof.
  intros Hdy Hq.
  destruct (for_invariant
              (fun dx => paints (stampPaint (Size q0) px py lo hi sel val dy dx) q0)
              (stampCell px py sel val dy) lo hi q Hrange Hq) as (q' & Hrun & Hq').
  - intros dx t Hdx Ht. now apply stampCell_step.
  - exists q'. split; [exact Hrun |].
    eapply paints_ext; [| exact Hq'].
    intros x y. unfold stampPaint. split_tests.
Qed.

(** The two nested loops of a pattern placer paint the stamp. *)
Lemma stamp_loops :
  wellFormed q0 = true ->
  exists q', for_ lo hi (fun dy => for_ lo hi (stampCell px py sel val dy)) q0 = Some q'
    /\ paints (stamp (Size q0) px py lo hi sel val) q0 q'.
Proof.
  intros Hwf.
  destruct (for_invariant
              (fun dy => paints (stampPaint (Size q0) px py lo hi sel val dy lo) q0)
              (fun dy => for_ lo hi (stampCell px py sel val dy)) lo hi q0 Hrange)
    as (q' & Hrun & Hq').
  - eapply paints_ext; [| exact (paints_refl q0 Hwf)].
    intros x y. unfold noPaint, stampPaint. split_tests.
  - intros dy t Hdy Ht. now apply stampRow_step.
  - exists q'. split; [exact Hrun |].
    eapply paints_ext; [| exact Hq'].
    intros x y. unfold stampPaint, stamp. split_tests.
Qed.
End Stamp.

(** ** Sequences of paints *)

Lemma forEach_app {A S : Type} (l1 l2 : list A) (body : A -> S -> option S) s :
  forEach (l1 ++ l2) body s = (forEach l1 body s ≫= forEach l2 body).
Proof.
  revert s. induction l1 as [| a l1 IH]; intros s; [reflexivity |].
  cbn [forEach app]. destruct (body a s) as [s' |]; [| reflexivity].
  cbn [mbind option_bind]. apply IH.
Qed.

Lemma forEach_map {A B S : Type} (f : B -> A) (l : list B)
    (body : A -> S -> option S) s :
  forEach (map f l) body s = forEach l (fun b => body (f b)) s.
Proof.
  revert s. induction l as [| b l IH]; intros s; [reflexivity |].
  cbn [forEach map]. destruct (body (f b) s) as [s' |]; [| reflexivity].
  cbn [mbind option_bind]. apply IH.
Qed.

(** A loop nest over two lists is a loop over the pairs. *)
Lemma forEach_nested {A B S : Type} (l1 : list A) (l2 : list B)
    (body : A -> B -> S -> option S) s :
  forEach l1 (fun a => forEach l2 (body a)) s
  = forEach (list_prod l1 l2) (fun ab => body (fst ab) (snd ab)) s.
Proof.
  revert s. induction l1 as [| a l1 IH]; intros s; [reflexivity |].
  cbn [forEach list_prod]. rewrite forEach_app, forEach_map. cbn [fst snd].
  change (fun b : B => body a b) with (body a).
  destruct (forEach l2 (body a) s) as [s' |]; [| reflexivity].
  cbn [mbind option_bind]. apply IH.
Qed.

Lemma layers_snoc {A} (P : A -> Z -> Z -> option bool) l a x y :
  layers P (l ++ [a]) x y = over (P a) (layers P l) x y.
Proof. unfold layers. now rewrite fold_left_app. Qed.

(** A loop whose body paints [P a], whatever the symbol of size [n] it
    gets, paints the layers of the list. *)
Lemma forEach_paints {A} (P : A -> Z -> Z -> option bool)
    (body : A -> QRCode -> option QRCode) (n : Z) (l : list A) :
  (forall a q, In a l -> wellFormed q = true -> Size q = n ->
               exists q', body a q = Some q' /\ paints (P a) q q') ->
  forall q, wellFormed q = true -> Size q = n ->
  exists q', forEach l body q = Some q' /\ paints (layers P l) q q'.
Proof.
  induction l as [| a l IH] using rev_ind; intros Hbody q Hwf HS.
  - exists q. split; [reflexivity |]. now apply paints_refl.
  - destruct IH with (q := q) as (q1 & Hrun1 & Hq1); [| exact Hwf | exact HS |].
    { intros b t Hb. apply Hbody. apply in_or_app. now left. }
    destruct (Hbody a q1) as (q2 & Hrun2 & Hq2).
    + apply in_or_app. right. now left.
    + exact (paints_wellFormed _ _ _ Hq1).
    + rewrite (paints_size _ _ _ Hq1). exact HS.
    + exists q2. split.
      * rewrite forEach_app, Hrun1. cbn [mbind option_bind forEach].
        now rewrite Hrun2.
      * eapply paints_ext; [| exact (paints_trans _ _ _ _ _ Hq1 Hq2)].
        intros x y. now rewrite layers_snoc.
Qed.

(** A cell no layer paints is not painted. *)
Lemma layers_none {A} (P : A -> Z -> Z -> option bool) l x y :
  (forall a, In a l -> P a x y = None) -> layers P l x y = None.
Proof.
  induction l as [| a l IH] using rev_ind; intros H; [reflexivity |].
  rewrite layers_snoc. unfold over. rewrite H by (apply in_or_app; right; now left).
  apply IH. intros b Hb. apply H. apply in_or_app. now left.
Qed.

(** A cell that some layer paints [v], and no layer paints otherwise,
    is painted [v]. *)
Lemma layers_some {A} (P : A -> Z -> Z -> option bool) l x y v :
  (exists a, In a l /\ P a x y = Some v) ->
  (forall a w, In a l -> P a x y = Some w -> w = v) ->
  layers P l x y = Some v.
Proof.
  induction l as [| a l IH] using rev_ind; intros [a0 [Hin Ha0]] Hagree;
    [destruct Hin |].
  rewrite layers_snoc. unfold over.
  destruct (P a x y) as [w |] eqn:Hw.
  - f_equal. apply (Hagree a w); [apply in_or_app; right; now left | exact Hw].
  - apply IH.
    + apply in_app_or in Hin as [Hin | [-> | []]]; [eauto | congruence].
    + intros b w Hb. apply Hagree. apply in_or_app. now left.
Qed.

(** ** Finder patterns *)

Lemma finderBit_index dx dy :
  0 <= dx < 7 -> 0 <= dy < 7 -> index2 finderPattern dy dx = Some (finderBit dx dy).
Proof.
  intros Hx Hy. unfold finderBit.
  destruct (index2_total 7 finderPattern dx dy eq_refl Hx Hy) as [b ->]. reflexivity.
Qed.

(** The template: a dark border, a light ring, a dark 3 by 3 core. *)
Lemma finderBit_shape dx dy :
  0 <= dx < 7 -> 0 <= dy < 7 ->
  finderBit dx dy
  = (dx =? 0) || (dx =? 6) || (dy =? 0) || (dy =? 6)
    || ((2 <=? dx) && (dx <=? 4) && (2 <=? dy) && (dy <=? 4)).
Proof.
  intros Hx Hy.
  assert (Cx : dx = 0 \/ dx = 1 \/ dx = 2 \/ dx = 3 \/ dx = 4 \/ dx = 5 \/ dx = 6) by lia.
  assert (Cy : dy = 0 \/ dy = 1 \/ dy = 2 \/ dy = 3 \/ dy = 4 \/ dy = 5 \/ dy = 6) by lia.
  repeat (destruct Cx as [-> | Cx]); try subst dx;
    repeat (destruct Cy as [-> | Cy]); try subst dy; reflexivity.
Qed.

Lemma finder_body pos q :
  wellFormed q = true ->
  exists q',
    for_ 0 7 (fun dy =>
      for_ 0 7 (fun dx q =>
        let x := fst pos + dx in
        let y := snd pos + dy in
        if inBounds q x y then
          v ← index2 finderPattern dy dx;
          q1 ← setModule x y v q;
          setFunction x y true q1
        else Some q)) q = Some q'
    /\ paints (finderStamp (Size q) pos) q q'.
Proof.
  intros Hwf.
  destruct (stamp_loops (fst pos) (snd pos) 0 7 always finderBit q ltac:(lia) Hwf)
    as (q' & Hrun & Hq').
  exists q'. split; [| exact Hq'].
  rewrite <- Hrun. apply for_ext. intros dy t Hdy. apply for_ext. intros dx u Hdx.
  cbv zeta. unfold stampCell, always. rewrite andb_true_r.
  rewrite finderBit_index by lia. reflexivity.
Qed.

Lemma addFinderPatterns_paints qr :
  wellFormed qr = true ->
  exists q', addFinderPatterns qr = Some q'
             /\ paints (layers (finderStamp (Size qr)) (origins (Size qr))) qr q'.
Proof.
  intros Hwf. unfold addFinderPatterns.
  apply (forEach_paints (finderStamp (Size qr)) _ (Size qr) (origins (Size qr)));
    [| exact Hwf | reflexivity].
  intros pos q _ Hq HS. rewrite <- HS. now apply finder_body.
Qed.

Lemma stamp_Some n px py lo hi sel val x y w :
  stamp n px py lo hi sel val x y = Some w <->
  lo <= x - px < hi /\ lo <= y - py < hi /\ 0 <= x < n /\ 0 <= y < n
  /\ sel (x - px) (y - py) = true /\ w = val (x - px) (y - py).
Proof.
  unfold stamp.
  destruct (sel (x - px) (y - py)); rewrite ?andb_true_r, ?andb_false_r.
  - destruct (_ && _) eqn:E.
    + rewrite !andb_true_iff, !Z.leb_le, !Z.ltb_lt in E.
      split; [intros [= <-]; repeat split; lia | intros (_ & _ & _ & _ & _ & ->); reflexivity].
    + split; [discriminate |]. intros H. exfalso.
      apply not_true_iff_false in E. apply E.
      rewrite !andb_true_iff, !Z.leb_le, !Z.ltb_lt. lia.
  - split; [discriminate | intros (_ & _ & _ & _ & H & _); discriminate].
Qed.

Lemma stamp_None n px py lo hi sel val x y :
  ~ (lo <= x - px < hi /\ lo <= y - py < hi /\ 0 <= x < n /\ 0 <= y < n
     /\ sel (x - px) (y - py) = true) ->
  stamp n px py lo hi sel val x y = None.
Proof.
  intros H. destruct (stamp n px py lo hi sel val x y) as [w |] eqn:E;
    [| reflexivity].
  apply stamp_Some in E. exfalso. apply H. tauto.
Qed.

Lemma in_origins n pos :
  In pos (origins n) <-> pos = (0, 0) \/ pos = (n - 7, 0) \/ pos = (0, n - 7).
Proof. unfold origins. simpl. intuition congruence. Qed.

(** The layers of the three finder stamps, from size 14 on: the template
    in each area, nothing elsewhere. *)
Lemma finderLayers_at n pos dx dy :
  14 <= n -> In pos (origins n) -> 0 <= dx < 7 -> 0 <= dy < 7 ->
  layers (finderStamp n) (origins n) (fst pos + dx) (snd pos + dy)
  = Some (finderBit dx dy).
Proof.
  intros Hn Hpos Hdx Hdy. apply layers_some.
  - exists pos. split; [exact Hpos |]. unfold finderStamp. apply stamp_Some.
    replace (fst pos + dx - fst pos) with dx by lia.
    replace (snd pos + dy - snd pos) with dy by lia.
    apply in_origins in Hpos as [-> | [-> | ->]]; cbn [fst snd];
      repeat split; lia.
  - intros pos' w Hpos' Hw. unfold finderStamp in Hw. apply stamp_Some in Hw.
    destruct Hw as (Hx & Hy & _ & _ & _ & ->).
    apply in_origins in Hpos as [-> | [-> | ->]];
      apply in_origins in Hpos' as [-> | [-> | ->]]; cbn [fst snd] in *;
      try lia; f_equal; lia.
Qed.

Lemma finderLayers_out n x y :
  (forall pos, In pos (origins n) ->
     ~ (0 <= x - fst pos < 7 /\ 0 <= y - snd pos < 7)) ->
  layers (finderStamp n) (origins n) x y = None.
Proof.
  intros Hout. apply layers_none. intros pos Hpos. apply stamp_None.
  specialize (Hout pos Hpos). lia.
Qed.

(** X1. The three finder patterns.  On a well-formed symbol of size at
    least 14 [addFinderPatterns] returns; the 7 by 7 squares at the three
    origins hold the template and are marked function, and no other cell
    of either grid changes. *)
Theorem finder_patterns_placed (qr : QRCode) :
  wellFormed qr = true -> 14 <= Size qr ->
  exists q',
    addFinderPatterns qr = Some q' /\ wellFormed q' = true /\ sameHeader qr q' /\
    (forall pos dx dy,
       In pos (origins (Size qr)) -> 0 <= dx < 7 -> 0 <= dy < 7 ->
       moduleAt q' (fst pos + dx) (snd pos + dy) = Some (finderBit dx dy) /\
       functionAt q' (fst pos + dx) (snd pos + dy) = Some true) /\
    (forall x y,
       (forall pos, In pos (origins (Size qr)) ->
          ~ (0 <= x - fst pos < 7 /\ 0 <= y - snd pos < 7)) ->
       moduleAt q' x y = moduleAt qr x y /\ functionAt q' x y = functionAt qr x y).
Proof.
  intros Hwf Hn.
  destruct (addFinderPatterns_paints qr Hwf) as (q' & Hrun & Hq' & Hh & Hm & Hf).
  exists q'. split; [exact Hrun |]. split; [exact Hq' |]. split; [exact Hh |]. split.
  - intros pos dx dy Hpos Hdx Hdy.
    rewrite Hm, Hf, (finderLayers_at _ pos dx dy Hn Hpos Hdx Hdy).
    split; reflexivity.
  - intros x y Hout. rewrite Hm, Hf, (finderLayers_out _ x y Hout).
    split; reflexivity.
Qed.

Lemma finder_patterns_placed_witness :
  wellFormed localhostSymbol = true /\ 14 <= Size localhostSymbol /\
  exists q',
    addFinderPatterns localhostSymbol = Some q' /\ wellFormed q' = true /\
    sameHeader localhostSymbol q' /\
    (forall pos dx dy,
       In pos (origins (Size localhostSymbol)) -> 0 <= dx < 7 -> 0 <= dy < 7 ->
       moduleAt q' (fst pos + dx) (snd pos + dy) = Some (finderBit dx dy) /\
       functionAt q' (fst pos + dx) (snd pos + dy) = Some true) /\
    (forall x y,
       (forall pos, In pos (origins (Size localhostSymbol)) ->
          ~ (0 <= x - fst pos < 7 /\ 0 <= y - snd pos < 7)) ->
       moduleAt q' x y = moduleAt localhostSymbol x y /\
       functionAt q' x y = functionAt localhostSymbol x y).
Proof.
  split; [vm_compute; reflexivity |]. split; [vm_compute; discriminate |].
  apply (finder_patterns_placed localhostSymbol).
  - vm_compute; reflexivity.
  - vm_compute; discriminate.
Defined.

(** ** Separators *)

Lemma addSeparators_paints qr :
  wellFormed qr = true ->
  exists q', addSeparators qr = Some q'
             /\ paints (layers (separatorStamp (Size qr)) (origins (Size qr))) qr q'.
Proof.
  intros Hwf. unfold addSeparators.
  apply (forEach_paints (separatorStamp (Size qr)) _ (Size qr) (origins (Size qr)));
    [| exact Hwf | reflexivity].
  intros pos q _ Hq HS. rewrite <- HS.
  exact (stamp_loops (fst pos) (snd pos) (-1) 8 ring light q ltac:(lia) Hq).
Qed.

(** The layers of the three separator stamps: light on the rings, nothing
    elsewhere. *)
Lemma separatorLayers_at n pos dx dy :
  In pos (origins n) -> -1 <= dx <= 7 -> -1 <= dy <= 7 -> ring dx dy = true ->
  0 <= fst pos + dx < n -> 0 <= snd pos + dy < n ->
  layers (separatorStamp n) (origins n) (fst pos + dx) (snd pos + dy) = Some false.
Proof.
  intros Hpos Hdx Hdy Hring Hx Hy. apply layers_some.
  - exists pos. split; [exact Hpos |]. unfold separatorStamp. apply stamp_Some.
    replace (fst pos + dx - fst pos) with dx by lia.
    replace (snd pos + dy - snd pos) with dy by lia.
    repeat split; try lia. exact Hring.
  - intros pos' w _ Hw. unfold separatorStamp in Hw. apply stamp_Some in Hw.
    destruct Hw as (_ & _ & _ & _ & _ & ->). reflexivity.
Qed.

Lemma separatorLayers_out n x y :
  (forall pos, In pos (origins n) ->
     ~ (-1 <= x - fst pos <= 7 /\ -1 <= y - snd pos <= 7
        /\ ring (x - fst pos) (y - snd pos) = true)) ->
  layers (separatorStamp n) (origins n) x y = None.
Proof.
  intros Hout. apply layers_none. intros pos Hpos. apply stamp_None.
  specialize (Hout pos Hpos). intros H. apply Hout.
  destruct H as (? & ? & _ & _ & ?). repeat split; try lia. assumption.
Qed.

(** From size 15 on no ring cell lies in a finder area. *)
Lemma ring_misses_finder n pos pos' dx dy :
  15 <= n -> In pos (origins n) -> In pos' (origins n) ->
  0 <= dx < 7 -> 0 <= dy < 7 ->
  ~ (-1 <= fst pos + dx - fst pos' <= 7 /\ -1 <= snd pos + dy - snd pos' <= 7
     /\ ring (fst pos + dx - fst pos') (snd pos + dy - snd pos') = true).
Proof.
  intros Hn Hpos Hpos' Hdx Hdy (Hx & Hy & Hring).
  unfold ring in Hring. rewrite !orb_true_iff, !Z.eqb_eq in Hring.
  apply in_origins in Hpos as [-> | [-> | ->]];
    apply in_origins in Hpos' as [-> | [-> | ->]]; cbn [fst snd] in *; lia.
Qed.

(** X2. The separators.  On a well-formed symbol [addSeparators] returns;
    every cell in bounds on the ring around a finder area (offsets -1 and
    7) is light and marked function, and no other cell of either grid
    changes: from size 15 on, the finder areas are left as they are. *)
Theorem separators_placed (qr : QRCode) :
  wellFormed qr = true ->
  exists q',
    addSeparators qr = Some q' /\ wellFormed q' = true /\ sameHeader qr q' /\
    (forall pos dx dy,
       In pos (origins (Size qr)) -> -1 <= dx <= 7 -> -1 <= dy <= 7 ->
       ring dx dy = true ->
       0 <= fst pos + dx < Size qr -> 0 <= snd pos + dy < Size qr ->
       moduleAt q' (fst pos + dx) (snd pos + dy) = Some false /\
       functionAt q' (fst pos + dx) (snd pos + dy) = Some true) /\
    (forall x y,
       (forall pos, In pos (origins (Size qr)) ->
          ~ (-1 <= x - fst pos <= 7 /\ -1 <= y - snd pos <= 7
             /\ ring (x - fst pos) (y - snd pos) = true)) ->
       moduleAt q' x y = moduleAt qr x y /\ functionAt q' x y = functionAt qr x y) /\
    (15 <= Size qr ->
     forall pos dx dy,
       In pos (origins (Size qr)) -> 0 <= dx < 7 -> 0 <= dy < 7 ->
       moduleAt q' (fst pos + dx) (snd pos + dy)
       = moduleAt qr (fst pos + dx) (snd pos + dy) /\
       functionAt q' (fst pos + dx) (snd pos + dy)
       = functionAt qr (fst pos + dx) (snd pos + dy)).
Proof.
  intros Hwf.
  destruct (addSeparators_paints qr Hwf) as (q' & Hrun & Hq' & Hh & Hm & Hf).
  assert (Hframe : forall x y,
    (forall pos, In pos (origins (Size qr)) ->
       ~ (-1 <= x - fst pos <= 7 /\ -1 <= y - snd pos <= 7
          /\ ring (x - fst pos) (y - snd pos) = true)) ->
    moduleAt q' x y = moduleAt qr x y /\ functionAt q' x y = functionAt qr x y).
  { intros x y Hout. rewrite Hm, Hf, (separatorLayers_out _ x y Hout).
    split; reflexivity. }
  exists q'. split; [exact Hrun |]. split; [exact Hq' |]. split; [exact Hh |].
  split; [| split; [exact Hframe |]].
  - intros pos dx dy Hpos Hdx Hdy Hring Hx Hy.
    rewrite Hm, Hf, (separatorLayers_at _ pos dx dy Hpos Hdx Hdy Hring Hx Hy).
    split; reflexivity.
  - intros Hn pos dx dy Hpos Hdx Hdy. apply Hframe.
    intros pos' Hpos'. now apply (ring_misses_finder (Size qr)).
Qed.

Lemma separators_placed_witness :
  wellFormed localhostSymbol = true /\
  exists q', addSeparators localhostSymbol = Some q' /\ wellFormed q' = true.
Proof.
  split; [vm_compute; reflexivity |].
  destruct (separators_placed localhostSymbol) as (q' & Hrun & Hwf & _).
  - vm_compute; reflexivity.
  - exists q'. split; assumption.
Defined.

(** ** Timing patterns *)

Lemma setModule_header x y v q q' :
  setModule x y v q = Some q' -> sameHeader q q'.
Proof.
  unfold setModule. destruct (inBounds q x y).
  - destruct (store2 (Modules q) y x v); [| discriminate].
    intros [= <-]. repeat split.
  - intros [= <-]. apply sameHeader_refl.
Qed.

Lemma setFunction_header x y v q q' :
  setFunction x y v q = Some q' -> sameHeader q q'.
Proof.
  unfold setFunction. destruct (inBounds q x y).
  - destruct (store2 (IsFunction q) y x v); [| discriminate].
    intros [= <-]. repeat split.
  - intros [= <-]. apply sameHeader_refl.
Qed.

(** Two cells set to [v], then both marked function, as the loop of
    [addTimingPatterns] does. *)
Lemma mark_two x1 y1 x2 y2 v q :
  wellFormed q = true -> inBounds q x1 y1 = true -> inBounds q x2 y2 = true ->
  exists q',
    (q1 ← setModule x1 y1 v q;
     q2 ← setModule x2 y2 v q1;
     q3 ← setFunction x1 y1 true q2;
     setFunction x2 y2 true q3) = Some q'
    /\ paints (over (dot x2 y2 v) (dot x1 y1 v)) q q'.
Proof.
  intros Hwf Hin1 Hin2.
  destruct (setModule_in x1 y1 v q Hwf Hin1) as (q1 & E1 & W1 & S1 & F1 & M1).
  assert (I1 : inBounds q1 x2 y2 = true) by (unfold inBounds in *; now rewrite S1).
  destruct (setModule_in x2 y2 v q1 W1 I1) as (q2 & E2 & W2 & S2 & F2 & M2).
  assert (I2 : inBounds q2 x1 y1 = true) by (unfold inBounds in *; now rewrite S2, S1).
  destruct (setFunction_in x1 y1 true q2 W2 I2) as (q3 & E3 & W3 & S3 & M3 & F3).
  assert (I3 : inBounds q3 x2 y2 = true)
    by (unfold inBounds in *; now rewrite S3, S2, S1).
  destruct (setFunction_in x2 y2 true q3 W3 I3) as (q4 & E4 & W4 & S4 & M4 & F4).
  exists q4. split.
  - rewrite E1. cbn [mbind option_bind]. rewrite E2. cbn [mbind option_bind].
    rewrite E3. cbn [mbind option_bind]. exact E4.
  - split; [exact W4 |]. split.
    + eapply sameHeader_trans; [eapply setModule_header; exact E1 |].
      eapply sameHeader_trans; [eapply setModule_header; exact E2 |].
      eapply sameHeader_trans; [eapply setFunction_header; exact E3 |].
      eapply setFunction_header; exact E4.
    + unfold over, dot. split; intros x y.
      * rewrite M4, M3, M2, M1.
        destruct ((x =? x2) && (y =? y2)); [reflexivity |].
        destruct ((x =? x1) && (y =? y1)); reflexivity.
      * rewrite F4, F3, F2, F1.
        destruct ((x =? x2) && (y =? y2)); [reflexivity |].
        destruct ((x =? x1) && (y =? y1)); reflexivity.
Qed.

Lemma addTimingPatterns_paints qr :
  wellFormed qr = true ->
  exists q', addTimingPatterns qr = Some q'
             /\ paints (timingPaint (Size qr - 8)) qr q'.
Proof.
  intros Hwf. unfold addTimingPatterns.
  destruct (Z.le_gt_cases 8 (Size qr - 8)) as [Hle | Hgt].
  - destruct (for_invariant (fun k => paints (timingPaint k) qr)
                (fun i q =>
                   q1 ← setModule i 6 (Z.rem i 2 =? 0) q;
                   q2 ← setModule 6 i (Z.rem i 2 =? 0) q1;
                   q3 ← setFunction i 6 true q2;
                   setFunction 6 i true q3)
                8 (Size qr - 8) qr Hle) as (q' & Hrun & Hq').
    + eapply paints_ext; [| exact (paints_refl qr Hwf)].
      intros x y. unfold noPaint, timingPaint. split_tests.
    + intros i q Hi Hq.
      pose proof (paints_wellFormed _ _ _ Hq) as Hwq.
      pose proof (paints_size _ _ _ Hq) as HS.
      destruct (mark_two i 6 6 i (Z.rem i 2 =? 0) q Hwq) as (q' & Hrun & Hq');
        [apply inBounds_spec; lia | apply inBounds_spec; lia |].
      exists q'. split; [exact Hrun |].
      eapply paints_ext; [| exact (paints_trans _ _ _ _ _ Hq Hq')].
      intros x y. unfold over, dot, timingPaint.
      destruct (Z.eq_dec x 6) as [-> | Hx6];
        [destruct (Z.eq_dec y i) as [-> | Hyi]
        | destruct (Z.eq_dec y 6) as [-> | Hy6];
          [destruct (Z.eq_dec x i) as [-> | Hxi] |]]; split_tests.
    + exists q'. split; [exact Hrun | exact Hq'].
  - rewrite for_empty by lia. exists qr. split; [reflexivity |].
    eapply paints_ext; [| exact (paints_refl qr Hwf)].
    intros x y. unfold noPaint, timingPaint. split_tests.
Qed.

(** X3. The timing patterns.  On a well-formed symbol [addTimingPatterns]
    returns; the cells of row 6 and of column 6 with index 8 to
    [Size - 9] are dark at even indices, light at odd ones, and marked
    function; no other cell of either grid changes. *)
Theorem timing_patterns_placed (qr : QRCode) :
  wellFormed qr = true ->
  exists q',
    addTimingPatterns qr = Some q' /\ wellFormed q' = true /\ sameHeader qr q' /\
    (forall i, 8 <= i < Size qr - 8 ->
       moduleAt q' i 6 = Some (Z.even i) /\ functionAt q' i 6 = Some true /\
       moduleAt q' 6 i = Some (Z.even i) /\ functionAt q' 6 i = Some true) /\
    (forall x y,
       ~ (y = 6 /\ 8 <= x < Size qr - 8) -> ~ (x = 6 /\ 8 <= y < Size qr - 8) ->
       moduleAt q' x y = moduleAt qr x y /\ functionAt q' x y = functionAt qr x y).
Proof.
  intros Hwf.
  destruct (addTimingPatterns_paints qr Hwf) as (q' & Hrun & Hq' & Hh & Hm & Hf).
  assert (Heven : forall i, 0 <= i -> (Z.rem i 2 =? 0) = Z.even i).
  { intros i Hi. rewrite Z.rem_mod_nonneg by lia.
    rewrite Zeven_mod. reflexivity. }
  exists q'. split; [exact Hrun |]. split; [exact Hq' |]. split; [exact Hh |]. split.
  - intros i Hi. rewrite !Hm, !Hf. unfold timingPaint.
    replace ((6 =? 6) && (8 <=? i) && (i <? Size qr - 8)) with true
      by (symmetry; rewrite !andb_true_iff, Z.leb_le, Z.ltb_lt; repeat split; lia).
    replace ((i =? 6) && (8 <=? 6) && (6 <? Size qr - 8)) with false
      by (symmetry; rewrite andb_false_r; reflexivity).
    replace ((6 =? 6) && (8 <=? 6) && (6 <? Size qr - 8)) with false
      by reflexivity.
    rewrite Heven by lia. repeat split; reflexivity.
  - intros x y H1 H2. rewrite Hm, Hf. unfold timingPaint.
    replace ((y =? 6) && (8 <=? x) && (x <? Size qr - 8)) with false
      by (symmetry; apply not_true_iff_false;
          rewrite !andb_true_iff, Z.eqb_eq, Z.leb_le, Z.ltb_lt; lia).
    replace ((x =? 6) && (8 <=? y) && (y <? Size qr - 8)) with false
      by (symmetry; apply not_true_iff_false;
          rewrite !andb_true_iff, Z.eqb_eq, Z.leb_le, Z.ltb_lt; lia).
    split; reflexivity.
Qed.

Lemma timing_patterns_placed_witness :
  wellFormed localhostSymbol = true /\
  exists q', addTimingPatterns localhostSymbol = Some q' /\ wellFormed q' = true.
Proof.
  split; [vm_compute; reflexivity |].
  destruct (timing_patterns_placed localhostSymbol) as (q' & Hrun & Hwf & _).
  - vm_compute; reflexivity.
  - exists q'. split; assumption.
Defined.

(** ** Alignment patterns *)

Lemma align_body n c q :
  wellFormed q = true -> Size q = n ->
  exists q',
    (if ((snd c <=? 10) && (fst c <=? 10))
        || ((snd c >=? Size q - 10) && (fst c <=? 10))
        || ((snd c <=? 10) && (fst c >=? Size q - 10))
     then Some q
     else
       for_ (-2) 3 (fun dy =>
         for_ (-2) 3 (fun dx q' =>
           let x := snd c + dx in
           let y := fst c + dy in
           if inBounds q' x y then
             let module := (dx =? -2) || (dx =? 2) || (dy =? -2)
                           || (dy =? 2) || ((dx =? 0) && (dy =? 0)) in
             q1 ← setModule x y module q';
             setFunction x y true q1
           else Some q')) q) = Some q'
    /\ paints (alignStamp n c) q q'.
Proof.
  intros Hwf HS. unfold alignStamp, skipsCentre. rewrite HS.
  destruct (_ || _).
  - exists q. split; [reflexivity | now apply paints_refl].
  - destruct (stamp_loops (snd c) (fst c) (-2) 3 always alignBit q ltac:(lia) Hwf)
      as (q' & Hrun & Hq').
    exists q'. rewrite <- HS. split; [| exact Hq'].
    rewrite <- Hrun. apply for_ext. intros dy t Hdy. apply for_ext. intros dx u Hdx.
    cbv zeta. unfold stampCell, always, alignBit. now rewrite andb_true_r.
Qed.

Lemma addAlignmentPatterns_paints qr :
  wellFormed qr = true ->
  exists q',
    addAlignmentPatterns qr = Some q'
    /\ paints (layers (alignStamp (Size qr))
                 (list_prod (positionsOf (Version qr)) (positionsOf (Version qr))))
         qr q'.
Proof.
  intros Hwf. unfold addAlignmentPatterns, positionsOf.
  destruct (Version qr =? 1).
  - exists qr. split; [reflexivity | now apply paints_refl].
  - destruct (alignmentLookup (Version qr)) as [positions |]; cbn [default].
    + rewrite forEach_nested.
      apply (forEach_paints (alignStamp (Size qr)) _ (Size qr));
        [| exact Hwf | reflexivity].
      intros c q _ Hq HS. now apply align_body.
    + exists qr. split; [reflexivity | now apply paints_refl].
Qed.

Lemma alignStamp_Some n c x y w :
  alignStamp n c x y = Some w ->
  skipsCentre n (snd c) (fst c) = false /\
  -2 <= x - snd c <= 2 /\ -2 <= y - fst c <= 2 /\ 0 <= x < n /\ 0 <= y < n
  /\ w = alignBit (x - snd c) (y - fst c).
Proof.
  unfold alignStamp. destruct (skipsCentre n (snd c) (fst c)); [discriminate |].
  intros H. apply stamp_Some in H. split; [reflexivity |]. intuition lia.
Qed.

Lemma skipsCentre_false n cx cy :
  skipsCentre n cx cy = false ->
  ~ (cx <= 10 /\ cy <= 10) /\ ~ (n - 10 <= cx /\ cy <= 10)
  /\ ~ (cx <= 10 /\ n - 10 <= cy).
Proof.
  unfold skipsCentre. rewrite !orb_false_iff, !andb_false_iff.
  rewrite !Z.leb_gt, !Z.geb_leb, !Z.leb_gt. lia.
Qed.

(** The positions of a version are at least 5 apart and leave room for
    the pattern on a symbol of that version. *)
Lemma positionsOf_spread v a b :
  In a (positionsOf v) -> In b (positionsOf v) ->
  (Z.abs (a - b) < 5 -> a = b) /\ 2 <= a /\ a + 2 < 21 + (v - 1) * 4.
Proof.
  unfold positionsOf. destruct (Z.eqb_spec v 1) as [-> | Hv1]; [intros [] |].
  unfold alignmentLookup.
  assert (Hv : v = 2 \/ v = 3 \/ v = 4 \/ v = 5 \/ v = 6 \/ v = 7 \/ v = 8 \/ v = 9
               \/ v = 10 \/ (v <> 2 /\ v <> 3 /\ v <> 4 /\ v <> 5 /\ v <> 6 /\ v <> 7
                             /\ v <> 8 /\ v <> 9 /\ v <> 10)) by lia.
  repeat (destruct Hv as [-> | Hv]);
    try (cbn; intros Ha Hb;
         repeat (destruct Ha as [<- | Ha]); try destruct Ha;
         repeat (destruct Hb as [<- | Hb]); try destruct Hb; lia).
  unfold alignmentPositions. cbn [List.find fst].
  repeat match goal with
    | |- context [?a =? v] =>
        replace (a =? v) with false by (symmetry; apply Z.eqb_neq; lia)
    end.
  cbn. intros [].
Qed.

(** No alignment stamp reaches a cell farther than 2 from every centre
    the skip test lets through; in particular none reaches a corner. *)
Lemma alignLayers_out n ps x y :
  (forall cx cy, In cx ps -> In cy ps -> skipsCentre n cx cy = false ->
                 ~ (-2 <= x - cx <= 2 /\ -2 <= y - cy <= 2)) ->
  layers (alignStamp n) (list_prod ps ps) x y = None.
Proof.
  intros Hout. apply layers_none.
  intros [cy cx] Hc. apply in_prod_iff in Hc as [Hcy Hcx].
  destruct (alignStamp n (cy, cx) x y) as [w |] eqn:E; [| reflexivity].
  apply alignStamp_Some in E as (Hskip & Hx & Hy & _). cbn [fst snd] in *.
  exfalso. apply (Hout cx cy Hcx Hcy Hskip). lia.
Qed.

Lemma alignLayers_corner n ps x y :
  inCorner n x y -> layers (alignStamp n) (list_prod ps ps) x y = None.
Proof.
  intros Hc. apply alignLayers_out. intros cx cy _ _ Hskip [Hx Hy].
  apply skipsCentre_false in Hskip. unfold inCorner in Hc. lia.
Qed.

(** X4. The alignment patterns.  On a well-formed symbol
    [addAlignmentPatterns] returns.  For version 1 and for a version
    without an entry in the table it changes nothing.  It never changes a
    cell of the three 8 by 8 corners.  On a symbol of the size of its
    version, every centre the skip test lets through gets the 5 by 5
    template, marked function; no cell farther than 2 from such a centre
    changes. *)
Theorem alignment_patterns_placed (qr : QRCode) :
  wellFormed qr = true ->
  exists q',
    addAlignmentPatterns qr = Some q' /\ wellFormed q' = true /\ sameHeader qr q' /\
    (positionsOf (Version qr) = [] -> q' = qr) /\
    (forall x y, inCorner (Size qr) x y ->
       moduleAt q' x y = moduleAt qr x y /\ functionAt q' x y = functionAt qr x y) /\
    (Size qr = 21 + (Version qr - 1) * 4 ->
     forall cx cy dx dy,
       In cx (positionsOf (Version qr)) -> In cy (positionsOf (Version qr)) ->
       skipsCentre (Size qr) cx cy = false -> -2 <= dx <= 2 -> -2 <= dy <= 2 ->
       moduleAt q' (cx + dx) (cy + dy) = Some (alignBit dx dy) /\
       functionAt q' (cx + dx) (cy + dy) = Some true) /\
    (forall x y,
       (forall cx cy,
          In cx (positionsOf (Version qr)) -> In cy (positionsOf (Version qr)) ->
          skipsCentre (Size qr) cx cy = false ->
          ~ (-2 <= x - cx <= 2 /\ -2 <= y - cy <= 2)) ->
       moduleAt q' x y = moduleAt qr x y /\ functionAt q' x y = functionAt qr x y).
Proof.
  intros Hwf.
  destruct (addAlignmentPatterns_paints qr Hwf) as (q' & Hrun & Hq' & Hh & Hm & Hf).
  set (ps := positionsOf (Version qr)) in *.
  assert (Hframe : forall x y,
    (forall cx cy, In cx ps -> In cy ps -> skipsCentre (Size qr) cx cy = false ->
                   ~ (-2 <= x - cx <= 2 /\ -2 <= y - cy <= 2)) ->
    moduleAt q' x y = moduleAt qr x y /\ functionAt q' x y = functionAt qr x y).
  { intros x y Hout. rewrite Hm, Hf, (alignLayers_out _ ps x y Hout).
    split; reflexivity. }
  exists q'. split; [exact Hrun |]. split; [exact Hq' |]. split; [exact Hh |].
  split; [| split; [| split; [| exact Hframe]]].
  - intros Hnil. unfold addAlignmentPatterns in Hrun. fold ps in Hnil.
    unfold ps, positionsOf in Hnil.
    destruct (Version qr =? 1); [congruence |].
    destruct (alignmentLookup (Version qr)) as [positions |]; [| congruence].
    simpl in Hnil. subst positions. cbn in Hrun. congruence.
  - intros x y Hc. rewrite Hm, Hf, (alignLayers_corner _ ps x y Hc).
    split; reflexivity.
  - intros Hsize cx cy dx dy Hcx Hcy Hskip Hdx Hdy.
    destruct (positionsOf_spread (Version qr) cx cx Hcx Hcx) as (_ & Hx2 & Hxn).
    destruct (positionsOf_spread (Version qr) cy cy Hcy Hcy) as (_ & Hy2 & Hyn).
    assert (Hl : layers (alignStamp (Size qr)) (list_prod ps ps) (cx + dx) (cy + dy)
                 = Some (alignBit dx dy)).
    { apply layers_some.
      - exists (cy, cx). split; [apply in_prod_iff; split; assumption |].
        unfold alignStamp. cbn [fst snd]. rewrite Hskip. apply stamp_Some.
        replace (cx + dx - cx) with dx by lia. replace (cy + dy - cy) with dy by lia.
        repeat split; lia.
      - intros [cy' cx'] w Hc Hw. apply in_prod_iff in Hc as [Hcy' Hcx'].
        apply alignStamp_Some in Hw as (_ & Hx & Hy & _ & _ & ->). cbn [fst snd] in *.
        destruct (positionsOf_spread (Version qr) cx cx' Hcx Hcx') as (Hsx & _).
        destruct (positionsOf_spread (Version qr) cy cy' Hcy Hcy') as (Hsy & _).
        rewrite <- (Hsx ltac:(lia)), <- (Hsy ltac:(lia)). f_equal; lia. }
    rewrite Hm, Hf, Hl. split; reflexivity.
Qed.

Lemma alignment_patterns_placed_witness :
  wellFormed localhostSymbol = true /\
  exists q', addAlignmentPatterns localhostSymbol = Some q' /\ wellFormed q' = true
             /\ moduleAt q' 18 18 = Some true /\ moduleAt q' 17 18 = Some false.
Proof.
  split; [vm_compute; reflexivity |].
  destruct (alignment_patterns_placed localhostSymbol)
    as (q' & Hrun & Hwf & _ & _ & _ & Hdrawn & _); [vm_compute; reflexivity |].
  exists q'. split; [exact Hrun |]. split; [exact Hwf |].
  assert (H18 : In 18 (positionsOf (Version localhostSymbol)))
    by (vm_compute; right; left; reflexivity).
  split.
  - exact (proj1 (Hdrawn eq_refl 18 18 0 0 H18 H18 eq_refl ltac:(lia) ltac:(lia))).
  - exact (proj1 (Hdrawn eq_refl 18 18 (-1) 0 H18 H18 eq_refl ltac:(lia) ltac:(lia))).
Defined.

(** ** The pipeline *)

(** Split the chain of writes in [H] into its steps. *)
Ltac split_chain H :=
  repeat match type of H with
    | (?m ≫= _) = Some _ =>
        let q := fresh "q" in
        let E := fresh "E" in
        destruct m as [q |] eqn:E; [cbn [mbind option_bind] in H | discriminate H]
    end.

(** Follow a chain of [setModule] and [setFunction] equations. *)
Ltac header_chain :=
  repeat first
    [ eapply setModule_header; eassumption
    | eapply setFunction_header; eassumption
    | eapply sameHeader_trans;
      [ first [ eapply setModule_header; eassumption
              | eapply setFunction_header; eassumption ] | ] ].

Lemma formatStep_header f i q q' : formatStep f i q = Some q' -> sameHeader q q'.
Proof.
  unfold formatStep. intros H.
  destruct (i <? 6); [| destruct (i =? 6); [| destruct (i =? 7); [| destruct (i =? 8)]]];
    split_chain H; header_chain.
Qed.

Lemma darkModule_header q q' : darkModule q = Some q' -> sameHeader q q'.
Proof. unfold darkModule. intros H. split_chain H. header_chain. Qed.

(** [addFormatInfo] returns on a well-formed symbol of size at least 21
    with a mask index in range, keeps the header, and changes no cell
    outside [formatCells]. *)
Lemma addFormatInfo_frame qr :
  wellFormed qr = true -> 21 <= Size qr -> 0 <= Mask qr <= 7 ->
  exists q, addFormatInfo qr = Some q /\ wellFormed q = true /\ sameHeader qr q /\
    (forall x y, writes (formatCells (Size qr)) x y = false ->
      moduleAt q x y = moduleAt qr x y /\ functionAt q x y = functionAt qr x y) /\
    moduleAt q 8 (Size qr - 8) = Some true /\
    functionAt q 8 (Size qr - 8) = Some true.
Proof.
  intros Hwf Hn Hmask.
  destruct (formatConstant_total (Level qr) (Mask qr) Hmask) as [f Hf].
  destruct (formatLoop_cells qr f Hwf Hn) as (q0 & Hloop & Hwf0 & HS0 & Hmod0 & Hfun0).
  destruct (darkModule_spec q0 Hwf0 ltac:(lia)) as (q & Hdark & Hwfq & _ & Hmod & Hfun).
  rewrite HS0 in Hmod, Hfun.
  exists q. split.
  { unfold addFormatInfo. rewrite (formatLoop_formatConstant qr f Hf), Hloop. exact Hdark. }
  split; [exact Hwfq |]. split.
  { eapply sameHeader_trans; [| eapply darkModule_header; exact Hdark].
    clear - Hloop.
    assert (Hinv : forall n i s s', forLoop n i (formatStep f) s = Some s' -> sameHeader s s').
    { induction n as [| n IH]; intros i s s' H.
      - injection H as <-. apply sameHeader_refl.
      - cbn [forLoop] in H. destruct (formatStep f i s) as [t |] eqn:E; [| discriminate].
        cbn [mbind option_bind] in H.
        eapply sameHeader_trans; [eapply formatStep_header; exact E | eapply IH; exact H]. }
    eapply Hinv. exact Hloop. }
  assert (Hhit : writes [(8, Size qr - 8)] 8 (Size qr - 8) = true)
    by (unfold writes; cbn [existsb fst snd]; now rewrite !Z.eqb_refl).
  split; [| split; [now rewrite Hmod, Hhit | now rewrite Hfun, Hhit]].
  intros x y Hw. unfold formatCells in Hw. rewrite writes_app in Hw.
  apply orb_false_iff in Hw as [Hw1 Hw2].
  rewrite Hmod, Hfun, Hw2, Hmod0, Hfun0.
  split; now apply cellAfter_frame.
Qed.

Lemma wellFormed_nonempty qr :
  wellFormed qr = true -> 0 < Size qr ->
  Modules qr <> [] /\ IsFunction qr <> [] /\
  len (Modules qr) = Size qr /\ len (IsFunction qr) = Size qr.
Proof.
  intros Hwf Hn. apply wellFormed_spec in Hwf as [Hm Hf].
  apply square_spec in Hm as [Hm _]. apply square_spec in Hf as [Hf _].
  repeat split; try assumption; intros E; rewrite E in *; unfold len in *; simpl in *; lia.
Qed.

Lemma getDataCapacity_total qr : exists cap, getDataCapacity qr = Some cap /\ 0 <= cap.
Proof.
  unfold getDataCapacity. change (len versionCapacity) with 10.
  destruct ((Version qr >? 10) || (Version qr <? 1)) eqn:E.
  - exists 0. split; [reflexivity | lia].
  - apply orb_false_iff in E as [E1 E2].
    destruct (capacity_total (Version qr) (Level qr)) as (c & Hc & Hr); [lia |].
    exists c. split; [exact Hc | lia].
Qed.

(** [Generate] on a well-formed symbol of size at least 21 goes through
    all its stages and returns the last one. *)
Lemma Generate_stages qr :
  wellFormed qr = true -> 21 <= Size qr ->
  exists q1 q2 q3 q4 q5 q7 q8 bytes bm,
    pipelineStages qr q1 q2 q3 q4 q5 q7 q8 bytes bm /\
    sameHeader qr q4 /\ Generate qr = Some (inr q8).
Proof.
  intros Hwf Hn.
  destruct (wellFormed_nonempty qr Hwf ltac:(lia)) as (Hm & Hf & Hlm & Hlf).
  destruct (addFinderPatterns_paints qr Hwf) as (q1 & E1 & P1).
  pose proof (paints_wellFormed _ _ _ P1) as W1.
  pose proof (paints_size _ _ _ P1) as S1.
  destruct (addSeparators_paints q1 W1) as (q2 & E2 & P2).
  pose proof (paints_wellFormed _ _ _ P2) as W2.
  pose proof (paints_size _ _ _ P2) as S2.
  destruct (addTimingPatterns_paints q2 W2) as (q3 & E3 & P3).
  pose proof (paints_wellFormed _ _ _ P3) as W3.
  pose proof (paints_size _ _ _ P3) as S3.
  destruct (addAlignmentPatterns_paints q3 W3) as (q4 & E4 & P4).
  pose proof (paints_wellFormed _ _ _ P4) as W4.
  assert (H13 : sameHeader qr q3).
  { eapply sameHeader_trans; [apply P1 |]. eapply sameHeader_trans; [apply P2 | apply P3]. }
  assert (H14 : sameHeader qr q4) by (eapply sameHeader_trans; [exact H13 | apply P4]).
  destruct (getDataCapacity_total q4) as (cap & Hcap & Hcap0).
  destruct (encodeData_stream q4 cap Hcap Hcap0) as (bytes & E5 & _).
  destruct (addData_spec bytes q4 W4) as (q5 & E6 & Hplacing).
  pose proof Hplacing as (_ & W5 & Heq5 & _).
  destruct (findBestMask_spec q5 W5) as (bm & bp & E7 & _ & Hbm0 & Hbm & _).
  assert (W6 : wellFormed (withMask q5 bm) = true) by exact W5.
  destruct (applyMask_spec bm (withMask q5 bm) W6) as (q7 & E8 & W7 & Heq7 & Hcells7).
  assert (HS5 : Size q5 = Size qr)
    by (rewrite Heq5; cbn; destruct H14 as (_ & H & _); exact H).
  assert (HS7 : Size q7 = Size qr) by (rewrite Heq7; exact HS5).
  assert (HM7 : Mask q7 = bm) by (rewrite Heq7; reflexivity).
  destruct (addFormatInfo_frame q7 W7 ltac:(lia) ltac:(lia))
    as (q8 & E9 & W8 & H78 & Hframe & Hdm & Hdf).
  rewrite HS7 in Hframe, Hdm, Hdf.
  exists q1, q2, q3, q4, q5, q7, q8, bytes, bm. split; [| split; [exact H14 |]].
  - unfold pipelineStages. cbv zeta.
    split; [split; [exact E1 | exact P1] |].
    split; [split; [exact E2 | rewrite <- S1; exact P2] |].
    split; [split; [exact E3 | rewrite <- S1, <- S2; exact P3] |].
    split.
    { split; [exact E4 |].
      destruct H13 as (HV3 & HS3 & _). rewrite <- HV3, <- HS3. exact P4. }
    split; [exact E5 |]. split; [split; [exact E6 | exact Hplacing] |].
    split; [split; [exact E7 | lia] |].
    split.
    { split; [exact E8 |]. split; [exact W7 |]. split; [exact Heq7 |].
      intros x y Hx Hy. apply Hcells7; cbn; lia. }
    split; [exact E9 |]. split; [exact W8 |]. split; [exact H78 |].
    split; [exact Hframe |]. split; [exact Hdm | exact Hdf].
  - unfold Generate.
    destruct (Modules qr) as [| m0 ms] eqn:EM; [congruence |].
    destruct (IsFunction qr) as [| f0 fs] eqn:EF; [congruence |].
    rewrite Hlm, Hlf, Z.eqb_refl. cbn [negb orb].
    rewrite E1. cbn [mbind option_bind]. rewrite E2. cbn [mbind option_bind].
    rewrite E3. cbn [mbind option_bind]. rewrite E4. cbn [mbind option_bind].
    rewrite E5. cbn [mbind option_bind]. rewrite E6. cbn [mbind option_bind].
    rewrite E7. cbn [mbind option_bind]. cbv zeta.
    change (Mask (withMask q5 bm)) with bm.
    rewrite E8. cbn [mbind option_bind]. rewrite E9. reflexivity.
Qed.

(** X5. [Generate] on an allocated symbol.  On a well-formed symbol of size
    at least 21 [Generate] returns a symbol, not an error: well formed,
    with the version, size, level and payload it was given and a mask
    index in [0, 7].  The mask is the one [findBestMask] selects once the
    data is placed. *)
Theorem Generate_succeeds (qr : QRCode) :
  wellFormed qr = true -> 21 <= Size qr ->
  exists q',
    Generate qr = Some (inr q') /\ wellFormed q' = true /\
    Version q' = Version qr /\ Size q' = Size qr /\ Level q' = Level qr /\
    Data q' = Data qr /\ 0 <= Mask q' <= 7 /\
    exists placed,
      (q ← addFinderPatterns qr; q ← addSeparators q; q ← addTimingPatterns q;
       q ← addAlignmentPatterns q; d ← encodeData q; addData d q) = Some placed
      /\ findBestMask placed = Some (Mask q', placed).
Proof.
  intros Hwf Hn.
  destruct (Generate_stages qr Hwf Hn)
    as (q1 & q2 & q3 & q4 & q5 & q7 & q8 & bytes & bm & Hst & H14 & Hgen).
  destruct Hst as ((E1 & _) & (E2 & _) & (E3 & _) & (E4 & _) & E5 & (E6 & Hpl)
                   & (E7 & Hbm) & (E8 & W7 & Heq7 & _) & (E9 & W8 & H78 & _)).
  destruct Hpl as (_ & _ & Heq5 & _).
  destruct H14 as (HV & HS & HL & _ & HD).
  destruct H78 as (HV8 & HS8 & HL8 & HM8 & HD8).
  assert (HM7 : Mask q7 = bm) by (rewrite Heq7; reflexivity).
  exists q8. split; [exact Hgen |]. split; [exact W8 |].
  split; [rewrite HV8, Heq7; cbn; rewrite Heq5; exact HV |].
  split; [rewrite HS8, Heq7; cbn; rewrite Heq5; exact HS |].
  split; [rewrite HL8, Heq7; cbn; rewrite Heq5; exact HL |].
  split; [rewrite HD8, Heq7; cbn; rewrite Heq5; exact HD |].
  split; [rewrite HM8, HM7; exact Hbm |].
  exists q5. split.
  - rewrite E1. cbn [mbind option_bind]. rewrite E2. cbn [mbind option_bind].
    rewrite E3. cbn [mbind option_bind]. rewrite E4. cbn [mbind option_bind].
    rewrite E5. cbn [mbind option_bind]. exact E6.
  - rewrite HM8, HM7. exact E7.
Qed.

Lemma Generate_succeeds_witness :
  wellFormed localhostSymbol = true /\ 21 <= Size localhostSymbol /\
  exists q', Generate localhostSymbol = Some (inr q') /\ wellFormed q' = true
             /\ 0 <= Mask q' <= 7.
Proof.
  split; [vm_compute; reflexivity |]. split; [vm_compute; discriminate |].
  destruct (Generate_succeeds localhostSymbol)
    as (q' & Hrun & Hwf & _ & _ & _ & _ & Hmask & _).
  - vm_compute; reflexivity.
  - vm_compute; discriminate.
  - exists q'. repeat split; try assumption; lia.
Defined.


(** ** The factory on every input *)

Lemma sizer_range req :
  exists v el,
    versionLoop req (seqZ 1 (len versionCapacity)) = Some (v, el) /\
    ((v = -1 /\ el = Low /\ 271 < req) \/
     (1 <= v <= 10 /\ exists c, capacity v el = Some c /\ req <= c)).
Proof.
  destruct (versionLoop_seqZ req 10 1 ltac:(lia) ltac:(lia)) as ([v el] & Hrun & Hpost).
  exists v, el. split; [exact Hrun |].
  destruct Hpost as [(-> & -> & Hall) | (Hin & Hfit & _)].
  - left. repeat split. specialize (Hall 10 Low 271 ltac:(lia) eq_refl). lia.
  - right. split; [lia | exact Hfit].
Qed.



(** ** The patterns in the generated symbol *)

Lemma formatCells_on_lines n x y :
  writes (formatCells n) x y = true -> x = 8 \/ y = 8.
Proof.
  unfold writes. rewrite existsb_exists. intros ([cx cy] & Hin & Hc).
  cbn [fst snd] in Hc. apply andb_true_iff in Hc as [Hx Hy].
  apply Z.eqb_eq in Hx, Hy. subst cx cy.
  change (formatCells n) with
    [(8, 0); (0, 8); (8, 1); (1, 8); (8, 2); (2, 8); (8, 3); (3, 8); (8, 4);
     (4, 8); (8, 5); (5, 8); (8, 7); (7, 8); (8, 8); (7, 8);
     (5, 8); (8, n - 15 + 9); (4, 8); (8, n - 15 + 10); (3, 8); (8, n - 15 + 11);
     (2, 8); (8, n - 15 + 12); (1, 8); (8, n - 15 + 13); (0, 8); (8, n - 15 + 14);
     (8, n - 8)] in Hin.
  repeat (destruct Hin as [Hin | Hin]; [injection Hin as <- <-; lia |]).
  destruct Hin.
Qed.

(** No timing cell lies in a corner. *)
Lemma timingPaint_corner n x y : inCorner n x y -> timingPaint (n - 8) x y = None.
Proof. intros Hc. unfold timingPaint, inCorner in *. split_tests. Qed.

(** A cell that is marked function when the data is placed, and lies on
    neither line of the format information, comes out of the rest of the
    pipeline as it went in. *)
Lemma stages_keep_function_cell qr q1 q2 q3 q4 q5 q7 q8 bytes bm x y :
  pipelineStages qr q1 q2 q3 q4 q5 q7 q8 bytes bm ->
  sameHeader qr q4 -> wellFormed q4 = true ->
  functionAt q4 x y = Some true -> x <> 8 -> y <> 8 ->
  moduleAt q8 x y = moduleAt q4 x y /\ functionAt q8 x y = Some true.
Proof.
  intros (_ & _ & _ & _ & _ & (_ & Hpl) & _ & (_ & _ & Heq7 & Hcells7)
          & (_ & _ & _ & Hframe & _)) (_ & HS4 & _) W4 Hfun Hx Hy.
  destruct Hpl as (_ & _ & Heq5 & Hkeep).
  assert (Hout : writes (formatCells (Size qr)) x y = false).
  { destruct (writes (formatCells (Size qr)) x y) eqn:E; [| reflexivity].
    apply formatCells_on_lines in E. lia. }
  destruct (Hframe x y Hout) as [Hm8 Hf8].
  assert (Hf5 : functionAt q5 x y = Some true) by (rewrite Heq5; exact Hfun).
  assert (Hf7 : functionAt q7 x y = Some true) by (rewrite Heq7; exact Hf5).
  pose proof W4 as W4'. apply wellFormed_spec in W4' as [_ Hsqf].
  destruct (index2_range _ _ _ _ _ Hsqf Hfun) as [Hxr Hyr]. rewrite HS4 in Hxr, Hyr.
  rewrite Hm8, Hf8, Hf7. split; [| reflexivity].
  rewrite (Hcells7 x y Hxr Hyr).
  rewrite (maskedAt_function (withMask q5 bm) bm x y Hf5).
  change (moduleAt (withMask q5 bm) x y) with (moduleAt q5 x y).
  apply Hkeep. exact Hfun.
Qed.

(** X8. The generated symbol.  In the symbol [Generate] returns for a
    well-formed symbol of size at least 21 the three finder patterns hold
    the template, the separator rings are light, the cell at column 8,
    row [Size - 8] is dark, and all these cells are marked function:
    neither the later pattern placers nor data placement, masking or the
    format information disturb them. *)
Theorem generated_symbol_keeps_patterns (qr : QRCode) :
  wellFormed qr = true -> 21 <= Size qr ->
  exists q',
    Generate qr = Some (inr q') /\
    (forall pos dx dy,
       In pos (origins (Size qr)) -> 0 <= dx < 7 -> 0 <= dy < 7 ->
       moduleAt q' (fst pos + dx) (snd pos + dy) = Some (finderBit dx dy) /\
       functionAt q' (fst pos + dx) (snd pos + dy) = Some true) /\
    (forall pos dx dy,
       In pos (origins (Size qr)) -> -1 <= dx <= 7 -> -1 <= dy <= 7 ->
       ring dx dy = true ->
       0 <= fst pos + dx < Size qr -> 0 <= snd pos + dy < Size qr ->
       moduleAt q' (fst pos + dx) (snd pos + dy) = Some false /\
       functionAt q' (fst pos + dx) (snd pos + dy) = Some true) /\
    moduleAt q' 8 (Size qr - 8) = Some true /\
    functionAt q' 8 (Size qr - 8) = Some true.
Proof.
  intros Hwf Hn.
  destruct (Generate_stages qr Hwf Hn)
    as (q1 & q2 & q3 & q4 & q5 & q7 & q8 & bytes & bm & Hst & H14 & Hgen).
  pose proof Hst as ((_ & P1) & (_ & P2) & (_ & P3) & (_ & P4) & _ & _ & _ & _
                     & (_ & _ & _ & _ & Hdm & Hdf)).
  pose proof (paints_wellFormed _ _ _ P4) as W4.
  destruct P1 as (_ & _ & M1 & F1). destruct P2 as (_ & _ & M2 & F2).
  destruct P3 as (_ & _ & M3 & F3). destruct P4 as (_ & _ & M4 & F4).
  (* the cells of the corners after the four pattern placers *)
  assert (Hcorner : forall x y,
            inCorner (Size qr) x y -> 0 <= x < Size qr -> 0 <= y < Size qr ->
            moduleAt q4 x y = moduleAt q2 x y /\ functionAt q4 x y = functionAt q2 x y).
  { intros x y Hc Hx Hy.
    rewrite M4, F4, (alignLayers_corner _ _ x y Hc), M3, F3.
    rewrite (timingPaint_corner _ x y Hc). split; reflexivity. }
  exists q8. split; [exact Hgen |]. split; [| split; [| split; [exact Hdm | exact Hdf]]].
  - intros pos dx dy Hpos Hdx Hdy.
    set (x := fst pos + dx). set (y := snd pos + dy).
    assert (Hr : 0 <= x < Size qr /\ 0 <= y < Size qr /\ inCorner (Size qr) x y
                 /\ x <> 8 /\ y <> 8).
    { unfold x, y, inCorner.
      apply in_origins in Hpos as [-> | [-> | ->]]; cbn [fst snd]; lia. }
    destruct Hr as (Hx & Hy & Hc & Hx8 & Hy8).
    destruct (Hcorner x y Hc Hx Hy) as [Hm42 Hf42].
    assert (Hl2 : layers (separatorStamp (Size qr)) (origins (Size qr)) x y = None).
    { apply separatorLayers_out. intros pos' Hpos'.
      apply (ring_misses_finder (Size qr) pos pos' dx dy); (lia || assumption). }
    assert (Hq4 : moduleAt q4 x y = Some (finderBit dx dy)
                  /\ functionAt q4 x y = Some true).
    { rewrite Hm42, Hf42, M2, F2, Hl2, M1, F1.
      unfold x, y. rewrite (finderLayers_at (Size qr) pos dx dy ltac:(lia) Hpos Hdx Hdy).
      split; reflexivity. }
    destruct Hq4 as [Hm4 Hf4].
    destruct (stages_keep_function_cell _ _ _ _ _ _ _ _ _ _ x y Hst H14 W4 Hf4 Hx8 Hy8)
      as [Hm8 Hf8].
    rewrite Hm8, Hf8, Hm4. split; reflexivity.
  - intros pos dx dy Hpos Hdx Hdy Hring Hx Hy.
    set (x := fst pos + dx) in *. set (y := snd pos + dy) in *.
    assert (Hr : inCorner (Size qr) x y /\ x <> 8 /\ y <> 8).
    { unfold x, y, inCorner in *. unfold ring in Hring.
      rewrite !orb_true_iff, !Z.eqb_eq in Hring.
      apply in_origins in Hpos as [-> | [-> | ->]]; cbn [fst snd] in *; lia. }
    destruct Hr as (Hc & Hx8 & Hy8).
    destruct (Hcorner x y Hc Hx Hy) as [Hm42 Hf42].
    assert (Hq4 : moduleAt q4 x y = Some false /\ functionAt q4 x y = Some true).
    { rewrite Hm42, Hf42, M2, F2. unfold x, y.
      rewrite (separatorLayers_at _ pos dx dy Hpos Hdx Hdy Hring Hx Hy).
      split; reflexivity. }
    destruct Hq4 as [Hm4 Hf4].
    destruct (stages_keep_function_cell _ _ _ _ _ _ _ _ _ _ x y Hst H14 W4 Hf4 Hx8 Hy8)
      as [Hm8 Hf8].
    rewrite Hm8, Hf8, Hm4. split; reflexivity.
Qed.

Lemma generated_symbol_keeps_patterns_witness :
  wellFormed localhostSymbol = true /\ 21 <= Size localhostSymbol /\
  exists q',
    Generate localhostSymbol = Some (inr q') /\
    moduleAt q' 8 (Size localhostSymbol - 8) = Some true.
Proof.
  split; [vm_compute; reflexivity |]. split; [vm_compute; discriminate |].
  destruct (generated_symbol_keeps_patterns localhostSymbol)
    as (q' & Hrun & _ & _ & Hdark & _).
  - vm_compute; reflexivity.
  - vm_compute; discriminate.
  - exists q'. split; assumption.
Defined.

(** ** The encoder on every symbol *)

(** The reference stream always has the header, the payload and four zero
    bits, and then fills what is left of the capacity. *)
Lemma referenceStream_general cap data :
  referenceStream cap data
  = ([false; true; false; false] ++ msbBits (len data) 8 ++ bitsOfBytes data)
    ++ [false; false; false; false]
    ++ bitsOfBytes (map padPattern (seq 0 (Z.to_nat (cap - len data - 2))))
  /\ len (referenceStream cap data) = 8 * Z.max cap (len data + 2).
Proof.
  pose proof (len_nonneg data) as Hd.
  unfold referenceStream. fold (bitsOfBytes data).
  set (payload := ([false; true; false; false] ++ msbBits (len data) 8)
                  ++ bitsOfBytes data).
  assert (Hp : len payload = 12 + 8 * len data).
  { unfold payload. rewrite !len_app, len_msbBits, len_bitsOfBytes.
    change (len [false; true; false; false]) with 4. lia. }
  set (t := Z.to_nat (Z.min 4 (cap * 8 - len payload))).
  assert (Ht : (t = 4%nat /\ len data + 2 <= cap) \/ (t = 0%nat /\ cap < len data + 2)).
  { unfold t. rewrite Hp. destruct (Z.le_gt_cases (len data + 2) cap); [left | right]; lia. }
  set (terminated := payload ++ replicate t false).
  assert (Hlt : len terminated = 12 + 8 * len data + Z.of_nat t).
  { unfold terminated. rewrite len_app, len_replicate. lia. }
  set (z := Z.to_nat ((8 - len terminated mod 8) mod 8)).
  assert (Htz : (t + z = 4)%nat).
  { unfold z. rewrite Hlt. destruct Ht as [[-> _] | [-> _]].
    - replace ((8 - (12 + 8 * len data + Z.of_nat 4) mod 8) mod 8) with 0
        by (Z.div_mod_to_equations; lia). reflexivity.
    - replace ((8 - (12 + 8 * len data + Z.of_nat 0) mod 8) mod 8) with 4
        by (Z.div_mod_to_equations; lia). reflexivity. }
  assert (Hfour : terminated ++ replicate z false
                  = payload ++ [false; false; false; false]).
  { unfold terminated. rewrite <- app_assoc. f_equal.
    rewrite <- replicate_add, Htz. reflexivity. }
  rewrite Hfour.
  assert (Hla : len (payload ++ [false; false; false; false]) = 16 + 8 * len data).
  { rewrite len_app, Hp. change (len [false; false; false; false]) with 4. lia. }
  rewrite Hla.
  replace (Z.to_nat ((cap * 8 - (16 + 8 * len data)) / 8))
    with (Z.to_nat (cap - len data - 2))
    by (f_equal; Z.div_mod_to_equations; lia).
  split.
  - unfold payload. now rewrite <- !app_assoc.
  - rewrite len_app, Hla, len_bitsOfBytes.
    unfold len at 2. rewrite length_map, length_seq. lia.
Qed.

(** X9. The encoder never fails and never cuts the payload.  On every
    symbol [encodeData] returns bytes; their bits are the mode indicator,
    the 8-bit count, all payload bytes and four zero bits, then the
    padding pattern; there are [max (capacity, len + 2)] of them, where
    the capacity is 0 for a version outside 1 to 10. *)
Theorem encodeData_never_truncates (qr : QRCode) :
  exists cap bytes,
    getDataCapacity qr = Some cap /\ 0 <= cap /\
    ((Version qr < 1 \/ 10 < Version qr) -> cap = 0) /\
    encodeData qr = Some bytes /\ isBytes bytes /\
    len bytes = Z.max cap (len (Data qr) + 2) /\
    bitsOfBytes bytes
    = ([false; true; false; false] ++ msbBits (len (Data qr)) 8
       ++ bitsOfBytes (Data qr))
      ++ [false; false; false; false]
      ++ bitsOfBytes (map padPattern
                        (seq 0 (Z.to_nat (cap - len (Data qr) - 2)))).
Proof.
  destruct (getDataCapacity_total qr) as (cap & Hcap & Hcap0).
  destruct (encodeData_stream qr cap Hcap Hcap0) as (bytes & Hrun & Hbytes & Hbits).
  destruct (referenceStream_general cap (Data qr)) as [Hshape Hlen].
  exists cap, bytes. split; [exact Hcap |]. split; [exact Hcap0 |]. split.
  { intros Hv. unfold getDataCapacity in Hcap. change (len versionCapacity) with 10 in Hcap.
    replace ((Version qr >? 10) || (Version qr <? 1)) with true in Hcap; [congruence |].
    symmetry. apply orb_true_iff. lia. }
  split; [exact Hrun |]. split; [exact Hbytes |]. split.
  - assert (H : len (bitsOfBytes bytes) = 8 * Z.max cap (len (Data qr) + 2))
      by now rewrite Hbits.
    rewrite len_bitsOfBytes in H. lia.
  - now rewrite Hbits.
Qed.

(** ** Reading the stream back *)

Lemma bitsValue_byteBits b : 0 <= b < 256 -> bitsValue (byteBits b) = b.
Proof.
  intros Hb.
  assert (Hall : forallb (fun v => bitsValue (byteBits v) =? v) (seqZ 0 256) = true)
    by (vm_compute; reflexivity).
  rewrite forallb_forall in Hall. apply Z.eqb_eq. apply Hall.
  apply list_elem_of_In. apply elem_of_seqZ. lia.
Qed.

Lemma take_byteBits b rest : take 8 (byteBits b ++ rest) = byteBits b.
Proof.
  apply take_app_length'. pose proof (len_byteBits b) as H. unfold len in H. lia.
Qed.

Lemma drop_byteBits b rest : drop 8 (byteBits b ++ rest) = rest.
Proof.
  apply drop_app_length'. pose proof (len_byteBits b) as H. unfold len in H. lia.
Qed.

Lemma bytesOfBits_bitsOfBytes data rest :
  isBytes data ->
  bytesOfBits (length data) (bitsOfBytes data ++ rest) = data.
Proof.
  induction 1 as [| b data Hb _ IH]; [reflexivity |].
  unfold bitsOfBytes. cbn [flat_map length bytesOfBits]. fold (bitsOfBytes data).
  rewrite <- app_assoc, take_byteBits, drop_byteBits, IH.
  now rewrite bitsValue_byteBits.
Qed.

(** X10. Round trip through the reader.  For a payload of at most 255
    bytes, on every symbol, reading the output of [encodeData] gives back
    the payload. *)
Theorem decode_encodeData (qr : QRCode) :
  isBytes (Data qr) -> len (Data qr) <= 255 ->
  exists bytes, encodeData qr = Some bytes /\ decodeByteMode bytes = Some (Data qr).
Proof.
  intros Hdata Hlen. pose proof (len_nonneg (Data qr)) as Hd.
  destruct (getDataCapacity_total qr) as (cap & Hcap & Hcap0).
  destruct (encodeData_stream qr cap Hcap Hcap0) as (bytes & Hrun & _ & Hbits).
  destruct (referenceStream_general cap (Data qr)) as [Hshape _].
  exists bytes. split; [exact Hrun |].
  unfold decodeByteMode. cbv zeta. rewrite Hbits, Hshape.
  set (tail := [false; false; false; false]
               ++ bitsOfBytes (map padPattern
                    (seq 0 (Z.to_nat (cap - len (Data qr) - 2))))).
  change (msbBits (len (Data qr)) 8) with (byteBits (len (Data qr))).
  rewrite <- !app_assoc.
  set (body := byteBits (len (Data qr)) ++ bitsOfBytes (Data qr) ++ tail).
  change (take 4 ([false; true; false; false] ++ body))
    with [false; true; false; false].
  change (drop 4 ([false; true; false; false] ++ body)) with body.
  change (drop 12 ([false; true; false; false] ++ body)) with (drop 8 body).
  rewrite decide_True by reflexivity.
  unfold body. rewrite take_byteBits, drop_byteBits, bitsValue_byteBits by lia.
  replace (Z.to_nat (len (Data qr))) with (length (Data qr))
    by (unfold len; now rewrite Nat2Z.id).
  replace (12 + 8 * length (Data qr) <=? _)%nat with true.
  - now rewrite bytesOfBits_bitsOfBytes.
  - symmetry. apply Nat.leb_le. rewrite !length_app.
    pose proof (len_byteBits (len (Data qr))) as H8.
    pose proof (len_bitsOfBytes (Data qr)) as HB.
    change (length [false; true; false; false]) with 4%nat.
    unfold len in *. lia.
Qed.

Lemma decode_encodeData_witness :
  exists bytes, encodeData localhostSymbol = Some bytes
                /\ decodeByteMode bytes = Some (Data localhostSymbol).
Proof.
  apply (decode_encodeData localhostSymbol).
  - vm_compute. repeat constructor; discriminate.
  - vm_compute; discriminate.
Defined.

(** The count field has 8 bits: a payload of 260 bytes is read back as
    its first 4 bytes. *)
Example decode_long_payload :
  (q ← symbolOf longPayload; bytes ← encodeData q; decodeByteMode bytes)
  = Some [97; 97; 97; 97].
Proof. vm_compute. reflexivity. Qed.

(** ** Masks compose *)

(** Two symbols that differ from [qr] in the module grid only are equal
    when their cells agree. *)
Lemma modules_ext qr qa qb :
  wellFormed qa = true -> wellFormed qb = true ->
  qa = withModules qr (Modules qa) -> qb = withModules qr (Modules qb) ->
  (forall x y, 0 <= x < Size qr -> 0 <= y < Size qr ->
               moduleAt qa x y = moduleAt qb x y) ->
  qa = qb.
Proof.
  intros Hwa Hwb Ha Hb Hcells.
  assert (HSa : Size qa = Size qr) by (rewrite Ha; reflexivity).
  assert (HSb : Size qb = Size qr) by (rewrite Hb; reflexivity).
  apply wellFormed_spec in Hwa as [Hsa _]. apply wellFormed_spec in Hwb as [Hsb _].
  rewrite HSa in Hsa. rewrite HSb in Hsb.
  rewrite Ha, Hb. f_equal.
  apply (grid_ext (Size qr)); [exact Hsa | exact Hsb |]. exact Hcells.
Qed.

(** X11. A mask index outside 0 to 7 selects no cell: [applyMask] returns
    the symbol as it was. *)
Theorem applyMask_unknown_mask (mask : Z) (qr : QRCode) :
  wellFormed qr = true -> mask < 0 \/ 7 < mask ->
  applyMask mask qr = Some qr.
Proof.
  intros Hwf Hmask.
  destruct (applyMask_spec mask qr Hwf) as (q & Hrun & Hq & Heq & Hcells).
  rewrite Hrun. f_equal.
  apply (modules_ext qr); [exact Hq | exact Hwf | exact Heq
                          | symmetry; apply withModules_self |].
  intros x y Hx Hy. rewrite Hcells by lia.
  pose proof Hwf as Hsq. apply wellFormed_spec in Hsq as [Hsq Hsqf].
  destruct (index2_total _ _ x y Hsq Hx Hy) as [b Hb].
  destruct (index2_total _ _ x y Hsqf Hx Hy) as [f Hf].
  unfold maskedAt, moduleAt, functionAt. rewrite Hb, Hf. simpl.
  assert (Hno : shouldMask x y mask = false).
  { unfold shouldMask.
    repeat match goal with
           | |- context [?a =? ?b] =>
               lazymatch a with mask => destruct (Z.eqb_spec a b); [lia |] end
           end.
    reflexivity. }
  now rewrite Hno, andb_false_r, xorb_false_r.
Qed.

Lemma applyMask_unknown_mask_witness :
  wellFormed sampleSymbol = true /\ (8 < 0 \/ 7 < 8)
  /\ applyMask 8 sampleSymbol = Some sampleSymbol.
Proof.
  split; [vm_compute; reflexivity |]. split; [right; lia |].
  apply (applyMask_unknown_mask 8 sampleSymbol); [vm_compute; reflexivity | right; lia].
Defined.

(** X12. Masks commute.  Applying mask [m1] and then [m2] gives the same
    symbol as applying [m2] and then [m1]: every cell that is not a
    function cell is toggled when exactly one of the two predicates holds,
    and function cells keep their value. *)
Theorem applyMask_commutes (m1 m2 : Z) (qr : QRCode) :
  wellFormed qr = true ->
  exists q,
    (applyMask m1 qr ≫= applyMask m2) = Some q /\
    (applyMask m2 qr ≫= applyMask m1) = Some q /\
    q = withModules qr (Modules q) /\
    forall x y, 0 <= x < Size qr -> 0 <= y < Size qr ->
      moduleAt q x y
      = (b ← moduleAt qr x y; f ← functionAt qr x y;
         Some (xorb b (negb f && xorb (shouldMask x y m1) (shouldMask x y m2)))).
Proof.
  intros Hwf.
  assert (Htwo : forall a b,
    exists q, (applyMask a qr ≫= applyMask b) = Some q /\ wellFormed q = true /\
      q = withModules qr (Modules q) /\
      forall x y, 0 <= x < Size qr -> 0 <= y < Size qr ->
        moduleAt q x y
        = (v ← moduleAt qr x y; f ← functionAt qr x y;
           Some (xorb v (negb f && xorb (shouldMask x y a) (shouldMask x y b))))).
  { intros a b.
    destruct (applyMask_spec a qr Hwf) as (q1 & Hrun1 & Hwf1 & Heq1 & Hcells1).
    destruct (applyMask_spec b q1 Hwf1) as (q2 & Hrun2 & Hwf2 & Heq2 & Hcells2).
    assert (HS : Size q1 = Size qr) by (rewrite Heq1; reflexivity).
    assert (HF : IsFunction q1 = IsFunction qr) by (rewrite Heq1; reflexivity).
    exists q2. split; [rewrite Hrun1; exact Hrun2 |]. split; [exact Hwf2 |]. split.
    { rewrite Heq2 at 1. apply (withModules_idem qr q1 _ Heq1). }
    intros x y Hx Hy. rewrite Hcells2 by lia. unfold maskedAt at 1.
    rewrite Hcells1 by lia. unfold maskedAt, functionAt. rewrite HF.
    pose proof Hwf as Hsq. apply wellFormed_spec in Hsq as [Hsq Hsqf].
    destruct (index2_total _ _ x y Hsq Hx Hy) as [v Hv].
    destruct (index2_total _ _ x y Hsqf Hx Hy) as [f Hf].
    unfold moduleAt. rewrite Hv, Hf. simpl. f_equal.
    destruct v, f, (shouldMask x y a), (shouldMask x y b); reflexivity. }
  destruct (Htwo m1 m2) as (q & Hrun & Hq & Heq & Hcells).
  destruct (Htwo m2 m1) as (q' & Hrun' & Hq' & Heq' & Hcells').
  exists q. split; [exact Hrun |]. split; [| split; [exact Heq | exact Hcells]].
  rewrite Hrun'. f_equal.
  apply (modules_ext qr); try assumption.
  intros x y Hx Hy. rewrite Hcells, Hcells' by lia.
  now rewrite (xorb_comm (shouldMask x y m2)).
Qed.

Lemma applyMask_commutes_witness :
  wellFormed sampleSymbol = true /\
  exists q,
    (applyMask 2 sampleSymbol ≫= applyMask 5) = Some q /\
    (applyMask 5 sampleSymbol ≫= applyMask 2) = Some q /\
    q = withModules sampleSymbol (Modules q) /\
    forall x y, 0 <= x < Size sampleSymbol -> 0 <= y < Size sampleSymbol ->
      moduleAt q x y
      = (b ← moduleAt sampleSymbol x y; f ← functionAt sampleSymbol x y;
         Some (xorb b (negb f && xorb (shouldMask x y 2) (shouldMask x y 5)))).
Proof.
  split; [vm_compute; reflexivity |].
  apply (applyMask_commutes 2 5 sampleSymbol). vm_compute; reflexivity.
Defined.

(** ** The data placer, cell by cell *)

Lemma for_forEach {S : Type} (body : Z -> S -> option S) lo hi s :
  for_ lo hi body s = forEach (seqZ lo (hi - lo)) body s.
Proof.
  unfold for_, seqZ. generalize (Z.to_nat (hi - lo)) as n.
  intros n. revert lo s. induction n as [| n IH]; intros lo s; [reflexivity |].
  cbn [forLoop seq fmap list_fmap forEach].
  change (Z.of_nat 0 + lo) with lo.
  destruct (body lo s) as [s' |]; [| reflexivity]. cbn [mbind option_bind].
  rewrite IH. f_equal. rewrite <- fmap_S_seq, <- list_fmap_compose.
  apply list_fmap_ext. intros _ i _. cbn. lia.
Qed.

Lemma forEach_flat_map {A B S : Type} (f : B -> list A) (l : list B)
    (body : A -> S -> option S) s :
  forEach (flat_map f l) body s = forEach l (fun b => forEach (f b) body) s.
Proof.
  revert s. induction l as [| b l IH]; intros s; [reflexivity |].
  cbn [flat_map forEach]. rewrite forEach_app.
  destruct (forEach (f b) body s) as [s' |]; [| reflexivity].
  cbn [mbind option_bind]. apply IH.
Qed.

(** The test [data[byteIndex] & (1 << bitPos) != 0] reads a bit. *)
Lemma land_bit d p :
  0 <= p -> negb (Z.land d (Z.shiftl 1 p) =? 0) = Z.testbit d p.
Proof.
  intros Hp. rewrite Z.shiftl_1_l.
  destruct (Z.testbit d p) eqn:Hbit.
  - apply negb_true_iff, Z.eqb_neq. intros H0.
    assert (Hb : Z.testbit (Z.land d (2 ^ p)) p = true).
    { rewrite Z.land_spec, Hbit, Z.pow2_bits_true; [reflexivity | lia]. }
    rewrite H0 in Hb. now rewrite Z.bits_0 in Hb.
  - apply negb_false_iff, Z.eqb_eq. apply Z.bits_inj'. intros i Hi.
    rewrite Z.land_spec, Z.bits_0, Z.pow2_bits_eqb by lia.
    destruct (Z.eqb_spec p i) as [<- |]; [now rewrite Hbit | apply andb_false_r].
Qed.

Lemma bitsOfBytes_lookup data :
  forall k d, data !! (k / 8)%nat = Some d ->
    bitsOfBytes data !! k = Some (Z.testbit d (Z.of_nat (7 - k mod 8))).
Proof.
  induction data as [| a data IH]; intros k d Hd; [discriminate |].
  unfold bitsOfBytes. cbn [flat_map]. fold (bitsOfBytes data).
  destruct (Nat.lt_ge_cases k 8) as [Hk | Hk].
  - rewrite Nat.div_small in Hd by lia. injection Hd as ->.
    rewrite lookup_app_l by (pose proof (len_byteBits d) as H; unfold len in H; lia).
    rewrite Nat.mod_small by lia.
    do 8 (destruct k as [| k]; [reflexivity |]). lia.
  - rewrite lookup_app_r by (pose proof (len_byteBits a) as H; unfold len in H; lia).
    replace (length (byteBits a)) with 8%nat
      by (pose proof (len_byteBits a) as H; unfold len in H; lia).
    replace k with (k - 8 + 1 * 8)%nat in Hd at 1 by lia.
    rewrite Nat.div_add in Hd by lia.
    replace (k - 8 + 1 * 8)%nat with k in Hd by lia.
    replace (k mod 8)%nat with ((k - 8) mod 8)%nat.
    + apply IH. replace ((k - 8) / 8 + 1)%nat with (Datatypes.S ((k - 8) / 8)) in Hd by lia.
      exact Hd.
    + replace k with (k - 8 + 1 * 8)%nat at 2 by lia. now rewrite Nat.Div0.mod_add.
Qed.

Lemma dataBit_past data k : (8 * length data <= k)%nat -> dataBit data k = false.
Proof.
  intros Hk. unfold dataBit. rewrite lookup_ge_None_2; [reflexivity |].
  pose proof (len_bitsOfBytes data) as H. unfold len in H. lia.
Qed.

(** The bit [addData] takes at [bitIndex]. *)
Lemma addData_bit data bi :
  0 <= bi < len data * 8 ->
  exists d, index data (Z.quot bi 8) = Some d /\
    negb (Z.land d (Z.shiftl 1 (7 - Z.rem bi 8)) =? 0) = dataBit data (Z.to_nat bi).
Proof.
  intros Hbi. rewrite Z.quot_div_nonneg, Z.rem_mod_nonneg by lia.
  destruct (index_total data (bi / 8)) as [d Hd].
  { split; [apply Z.div_pos; lia | apply Z.div_lt_upper_bound; lia]. }
  exists d. split; [exact Hd |].
  apply index_Some in Hd as [_ Hd].
  rewrite land_bit by (pose proof (Z.mod_pos_bound bi 8); lia).
  unfold dataBit. rewrite (bitsOfBytes_lookup data (Z.to_nat bi) d).
  - cbn [default]. f_equal.
    rewrite Nat2Z.inj_sub by (pose proof (Nat.mod_upper_bound (Z.to_nat bi) 8); lia).
    rewrite Nat2Z.inj_mod, Z2Nat.id by lia. reflexivity.
  - rewrite <- Hd. f_equal. rewrite Z2Nat.inj_div by lia. reflexivity.
Qed.

Section DataCells.
Variables (data : list Z).



Lemma isDataCell_withModules qr q c :
  q = withModules qr (Modules q) -> isDataCell q c = isDataCell qr c.
Proof. intros ->. reflexivity. Qed.

(** One visit: a data cell takes the next bit, any other cell is left. *)
Lemma addDataCell_cases bi q c :
  wellFormed q = true -> 0 <= bi ->
  if isDataCell q c then
    exists q', (visitCell data) c (bi, q)
               = Some (if bi <? len data * 8 then bi + 1 else bi, q')
      /\ wellFormed q' = true /\ q' = withModules q (Modules q')
      /\ moduleAt q' (fst c) (snd c) = Some (dataBit data (Z.to_nat bi))
      /\ forall x y, x <> fst c \/ y <> snd c -> moduleAt q' x y = moduleAt q x y
  else (visitCell data) c (bi, q) = Some (bi, q).
Proof.
  intros Hwf Hbi. destruct c as [x y].
  unfold visitCell, isDataCell, addDataCell, functionAt.
  cbn [fst snd]. destruct (inBounds q x y) eqn:Hin; [| reflexivity]. cbn [andb].
  destruct (index2 (IsFunction q) y x) as [[|] |] eqn:Hf; cbn [mbind option_bind negb].
  - rewrite bool_decide_false by discriminate. reflexivity.
  - rewrite bool_decide_true by reflexivity.
    destruct (bi <? len data * 8) eqn:Hlt.
    + apply Z.ltb_lt in Hlt.
      destruct (addData_bit data bi ltac:(lia)) as (d & Hd & Hbit).
      rewrite Hd. cbn [mbind option_bind]. rewrite Hbit.
      destruct (setModule_spec x y (dataBit data (Z.to_nat bi)) q Hwf)
        as (q' & Hset & Hwf' & Heq' & Hhit & Hother).
      rewrite Hset. cbn [mbind option_bind]. exists q'. auto 6.
    + apply Z.ltb_ge in Hlt.
      destruct (setModule_spec x y false q Hwf)
        as (q' & Hset & Hwf' & Heq' & Hhit & Hother).
      rewrite Hset. cbn [mbind option_bind]. exists q'.
      rewrite dataBit_past by (unfold len in Hlt; lia). auto 6.
  - rewrite bool_decide_false by discriminate.
    apply inBounds_spec in Hin as [Hx Hy].
    apply wellFormed_spec in Hwf as [_ Hsqf].
    destruct (index2_total _ _ x y Hsqf Hx Hy) as [f Hf']. congruence.
Qed.

(** A visit of distinct cells: the [k]-th data cell among them takes bit
    [bi + k], every other cell of the symbol is left. *)
Lemma forEach_cells (l : list (Z * Z)) :
  forall bi q, NoDup l -> wellFormed q = true -> 0 <= bi ->
  exists bi' q',
    forEach l (visitCell data) (bi, q) = Some (bi', q')
    /\ wellFormed q' = true /\ q' = withModules q (Modules q') /\ 0 <= bi'
    /\ (forall k c, List.filter (isDataCell q) l !! k = Some c ->
          moduleAt q' (fst c) (snd c)
          = Some (dataBit data (Z.to_nat bi + k)))
    /\ (forall x y, (x, y) ∉ List.filter (isDataCell q) l ->
          moduleAt q' x y = moduleAt q x y).
Proof.
  induction l as [| c l IH]; intros bi q Hnd Hwf Hbi.
  - exists bi, q. split; [reflexivity |]. split; [exact Hwf |].
    split; [symmetry; apply withModules_self |]. split; [exact Hbi |].
    split; [intros k c H; discriminate | reflexivity].
  - apply NoDup_cons in Hnd as [Hc Hnd].
    pose proof (addDataCell_cases bi q c Hwf Hbi) as Hstep.
    cbn [forEach List.filter]. destruct (isDataCell q c) eqn:Hdc.
    + destruct Hstep as (q1 & Hrun & Hwf1 & Heq1 & Hhit & Hother).
      rewrite Hrun. cbn [mbind option_bind].
      set (bi1 := if bi <? len data * 8 then bi + 1 else bi).
      assert (Hbi1 : 0 <= bi1) by (unfold bi1; destruct (bi <? len data * 8); lia).
      destruct (IH bi1 q1 Hnd Hwf1 Hbi1)
        as (bi' & q' & Hrest & Hwf' & Heq' & Hbi' & Hbits & Hframe).
      assert (Hsame : List.filter (isDataCell q1) l = List.filter (isDataCell q) l).
      { apply filter_ext. intros a. now apply isDataCell_withModules. }
      rewrite Hsame in Hbits, Hframe.
      assert (Hc' : c ∉ List.filter (isDataCell q) l).
      { intros Hin. apply Hc. apply list_elem_of_In in Hin.
        apply filter_In in Hin as [Hin _]. now apply list_elem_of_In. }
      exists bi', q'. split; [exact Hrest |]. split; [exact Hwf' |].
      split; [rewrite Heq'; now apply withModules_idem |]. split; [exact Hbi' |].
      split.
      * intros [| k] c' Hk.
        -- injection Hk as <-. destruct c as [x y]. cbn [fst snd].
           rewrite (Hframe x y Hc'). cbn [fst snd] in Hhit. rewrite Hhit.
           do 2 f_equal. lia.
        -- cbn [lookup list_lookup] in Hk. rewrite (Hbits k c' Hk). f_equal.
           unfold bi1. destruct (Z.ltb_spec bi (len data * 8)).
           ++ f_equal. lia.
           ++ rewrite !dataBit_past; [reflexivity | |]; unfold len in *; lia.
      * intros x y Hxy. apply not_elem_of_cons in Hxy as [Hne Hxy].
        rewrite (Hframe x y Hxy). apply Hother.
        destruct c as [cx cy]. cbn [fst snd].
        destruct (Z.eq_dec x cx) as [-> |]; [| now left].
        destruct (Z.eq_dec y cy) as [-> |]; [| now right]. congruence.
    + rewrite Hstep. cbn [mbind option_bind]. now apply IH.
Qed.
End DataCells.

(** ** The order of the visit *)

Lemma forEach_ext {A S : Type} (f g : A -> S -> option S) (l : list A) s :
  (forall a t, f a t = g a t) -> forEach l f s = forEach l g s.
Proof.
  intros Hext. revert s. induction l as [| a l IH]; intros s; [reflexivity |].
  cbn [forEach]. rewrite Hext. destruct (g a s) as [s' |]; [| reflexivity].
  cbn [mbind option_bind]. apply IH.
Qed.

Lemma pair_loop {S : Type} (body : Z -> Z -> S -> option S) col row s :
  for_ 0 2 (fun c => body (col - c) row) s
  = forEach [(col, row); (col - 1, row)] (fun c => body (fst c) (snd c)) s.
Proof.
  unfold for_. change (Z.to_nat (2 - 0)) with 2%nat.
  cbn [forLoop forEach fst snd]. change (0 + 1) with 1.
  rewrite Z.sub_0_r. reflexivity.
Qed.

Lemma pairCells_loops {S : Type} (body : Z -> Z -> S -> option S) n col s :
  for_ 0 n (fun i => for_ 0 2 (fun c =>
     body (col - c) (if upward n col then n - 1 - i else i))) s
  = forEach (pairCells n col) (fun c => body (fst c) (snd c)) s.
Proof.
  unfold pairCells. rewrite forEach_flat_map, for_forEach, Z.sub_0_r.
  apply forEach_ext. intros i t. apply pair_loop.
Qed.

Section Zigzag.
Variables (data : list Z) (qr : QRCode).

(** The column loop of [addData] is the visit of [zigzagFrom]. *)
Lemma addDataCols_zigzag (fuel : nat) :
  forall col st,
    Z.max 0 (col + 1) < Z.of_nat fuel -> placing qr st ->
    addDataCols fuel data (len data * 8) col st
    = forEach (zigzagFrom fuel (Size qr) col) (visitCell data) st.
Proof.
  induction fuel as [| fuel IH]; intros col st Hfuel Hst; [lia |].
  cbn [addDataCols zigzagFrom]. destruct (col >=? 0) eqn:Hcol; [| reflexivity].
  pose proof (placing_size qr st Hst) as HS.
  assert (Hn : 0 <= Size (snd st)).
  { destruct st as [bi q]. destruct Hst as (_ & Hwf & _). now apply wellFormed_size. }
  cbv zeta. set (col' := if col =? 6 then col - 1 else col).
  destruct (addDataRows_step data qr col'
              (Z.rem (Z.quot (Size (snd st) - 1 - col') 2) 2 =? 0)
              (Size (snd st)) st Hn Hst) as (st1 & Hrows & Hst1).
  rewrite Hrows. cbn [mbind option_bind]. rewrite forEach_app.
  rewrite HS in Hrows. fold (upward (Size qr) col') in Hrows.
  rewrite (pairCells_loops (addDataCell data (len data * 8))) in Hrows.
  change (forEach (pairCells (Size qr) col') (visitCell data) st = Some st1) in Hrows.
  rewrite Hrows. cbn [mbind option_bind].
  apply IH; [| exact Hst1]. unfold col'. destruct (col =? 6); lia.
Qed.
End Zigzag.

Lemma pairCells_elem n col c :
  c ∈ pairCells n col <->
  (fst c = col \/ fst c = col - 1) /\ 0 <= snd c < n.
Proof.
  unfold pairCells. rewrite list_elem_of_In, in_flat_map. split.
  - intros (i & Hi & Hc). apply list_elem_of_In, elem_of_seqZ in Hi.
    cbv zeta in Hc. cbn [In] in Hc.
    destruct (upward n col); destruct Hc as [<- | [<- | []]]; cbn [fst snd]; lia.
  - intros [Hx Hy]. destruct c as [x y]. cbn [fst snd] in Hx, Hy.
    exists (if upward n col then n - 1 - y else y). split.
    + apply list_elem_of_In, elem_of_seqZ. destruct (upward n col); lia.
    + cbv zeta. cbn [In].
      replace (if upward n col then n - 1 - (if upward n col then n - 1 - y else y)
               else (if upward n col then n - 1 - y else y)) with y
        by (destruct (upward n col); lia).
      destruct Hx as [-> | ->]; auto.
Qed.

Lemma NoDup_flat_map {A B : Type} (f : A -> list B) (l : list A) :
  (forall a1 a2 b, a1 ∈ l -> a2 ∈ l -> b ∈ f a1 -> b ∈ f a2 -> a1 = a2) ->
  (forall a, a ∈ l -> NoDup (f a)) -> NoDup l -> NoDup (flat_map f l).
Proof.
  intros Hinj Hf Hl. induction Hl as [| a l Ha Hl IH]; [constructor |].
  cbn [flat_map]. apply NoDup_app. split; [apply Hf; left |]. split.
  - intros b Hb Hb'. apply list_elem_of_In, in_flat_map in Hb' as (a' & Ha' & Hb').
    apply list_elem_of_In in Ha', Hb'.
    assert (a = a') by (apply (Hinj a a' b); [left | now right | exact Hb | exact Hb']).
    subst a'. contradiction.
  - apply IH.
    + intros a1 a2 b H1 H2. apply Hinj; now right.
    + intros a' Ha'. apply Hf. now right.
Qed.

Lemma pairCells_NoDup n col : NoDup (pairCells n col).
Proof.
  unfold pairCells. apply NoDup_flat_map.
  - intros i j b _ _ Hi Hj. cbv zeta in Hi, Hj.
    apply list_elem_of_In in Hi, Hj. cbn [In] in Hi, Hj.
    destruct (upward n col); destruct Hi as [<- | [<- | []]];
      destruct Hj as [Hj | [Hj | []]]; injection Hj; lia.
  - intros i _. cbv zeta. apply NoDup_cons. split; [| apply NoDup_singleton].
    rewrite list_elem_of_singleton. intros H. injection H. lia.
  - apply NoDup_seqZ.
Qed.

Lemma zigzagFrom_bound fuel n :
  forall col c, c ∈ zigzagFrom fuel n col -> fst c <= col /\ 0 <= snd c < n.
Proof.
  induction fuel as [| fuel IH]; intros col c Hc; [now apply elem_of_nil in Hc |].
  cbn [zigzagFrom] in Hc. destruct (col >=? 0); [| now apply elem_of_nil in Hc].
  cbv zeta in Hc. apply elem_of_app in Hc as [Hc | Hc].
  - apply pairCells_elem in Hc. destruct (col =? 6); lia.
  - apply IH in Hc. destruct (col =? 6); lia.
Qed.

Lemma zigzagFrom_NoDup fuel n : forall col, NoDup (zigzagFrom fuel n col).
Proof.
  induction fuel as [| fuel IH]; intros col; [constructor |].
  cbn [zigzagFrom]. destruct (col >=? 0); [| constructor]. cbv zeta.
  apply NoDup_app. split; [apply pairCells_NoDup |]. split; [| apply IH].
  intros c Hc Hc'. apply pairCells_elem in Hc. apply zigzagFrom_bound in Hc'. lia.
Qed.

(** From an even column at or right of column 6 the visit reaches every
    column down to 0 but column 6; below column 6 it starts from an odd
    column. *)
Lemma zigzagFrom_elem fuel n :
  forall col c,
    Z.max 0 (col + 1) < Z.of_nat fuel ->
    (6 <= col /\ col mod 2 = 0) \/ (-1 <= col <= 5 /\ col mod 2 = 1) ->
    (c ∈ zigzagFrom fuel n col <->
     0 <= fst c <= col /\ fst c <> 6 /\ 0 <= snd c < n).
Proof.
  induction fuel as [| fuel IH]; intros col c Hfuel Hcol; [lia |].
  cbn [zigzagFrom]. destruct (Z.geb_spec col 0) as [Hge | Hlt].
  - cbv zeta. rewrite elem_of_app, pairCells_elem.
    destruct (Z.eqb_spec col 6) as [-> | Hne].
    + rewrite IH; [| lia | right; split; [lia | reflexivity]]. lia.
    + rewrite IH; [| lia |].
      * split; [| lia]. intros [H | H]; [| lia].
        assert (col - 1 <> 6) by (intros E; Z.div_mod_to_equations; lia).
        assert (col <> -1 + 1 \/ 0 <= col - 1) by (Z.div_mod_to_equations; lia).
        Z.div_mod_to_equations; lia.
      * Z.div_mod_to_equations; lia.
  - rewrite elem_of_nil. lia.
Qed.

(** The whole of [addData]: the visit of [zigzag], from bit 0. *)
Lemma addData_cells data qr :
  wellFormed qr = true ->
  exists q, addData data qr = Some q /\ wellFormed q = true
    /\ q = withModules qr (Modules q)
    /\ (forall k c, dataCells qr !! k = Some c ->
          moduleAt q (fst c) (snd c) = Some (dataBit data k))
    /\ (forall x y, (x, y) ∉ dataCells qr -> moduleAt q x y = moduleAt qr x y).
Proof.
  intros Hwf. pose proof (wellFormed_size _ Hwf) as Hn.
  destruct (forEach_cells data (zigzag (Size qr)) 0 qr
              (zigzagFrom_NoDup _ _ _) Hwf ltac:(lia))
    as (bi' & q' & Hrun & Hwf' & Heq' & _ & Hbits & Hframe).
  exists q'. unfold addData.
  rewrite (addDataCols_zigzag data qr).
  - fold (zigzag (Size qr)). rewrite Hrun. split; [reflexivity |].
    split; [exact Hwf' |]. split; [exact Heq' |]. split; [| exact Hframe].
    intros k c Hk. now rewrite (Hbits k c Hk).
  - lia.
  - split; [lia |]. split; [exact Hwf |].
    split; [now rewrite withModules_self | reflexivity].
Qed.

(** X13. The data placer reads back.  On a well-formed symbol [addData]
    returns; the [k]-th cell of the zigzag visit that is inside the
    symbol and not a function cell holds bit [k] of the data, most
    significant bit of each byte first, and is light once the data has
    run out; every other cell keeps its value. *)
Theorem addData_reads_back (data : list Z) (qr : QRCode) :
  wellFormed qr = true ->
  exists q, addData data qr = Some q /\
    (forall k c, dataCells qr !! k = Some c ->
       moduleAt q (fst c) (snd c) = Some (dataBit data k)) /\
    (forall x y, (x, y) ∉ dataCells qr -> moduleAt q x y = moduleAt qr x y).
Proof.
  intros Hwf.
  destruct (addData_cells data qr Hwf) as (q & Hrun & _ & _ & Hbits & Hframe).
  exists q. auto.
Qed.

Lemma addData_reads_back_witness :
  wellFormed samplePatterns = true /\
  exists q, addData [104; 105] samplePatterns = Some q /\
    (forall k c, dataCells samplePatterns !! k = Some c ->
       moduleAt q (fst c) (snd c) = Some (dataBit [104; 105] k)) /\
    (forall x y, (x, y) ∉ dataCells samplePatterns ->
       moduleAt q x y = moduleAt samplePatterns x y).
Proof.
  split; [vm_compute; reflexivity |].
  apply (addData_reads_back [104; 105] samplePatterns). vm_compute; reflexivity.
Defined.

(** X14. On a symbol of odd size, 7 or more, [addData] never writes
    column 6, and every other cell that is not a function cell is one of
    the data cells: it takes its bit of the data. *)
Theorem addData_skips_column_6 (data : list Z) (qr : QRCode) :
  wellFormed qr = true -> 7 <= Size qr -> Size qr mod 2 = 1 ->
  exists q, addData data qr = Some q /\
    (forall y, moduleAt q 6 y = moduleAt qr 6 y) /\
    (forall x y, 0 <= x < Size qr -> 0 <= y < Size qr -> x <> 6 ->
       functionAt qr x y = Some false ->
       exists k, dataCells qr !! k = Some (x, y)
                 /\ moduleAt q x y = Some (dataBit data k)).
Proof.
  intros Hwf Hsize Hodd.
  destruct (addData_cells data qr Hwf) as (q & Hrun & _ & _ & Hbits & Hframe).
  assert (Hvisit : forall c, c ∈ zigzag (Size qr) <->
            0 <= fst c <= Size qr - 1 /\ fst c <> 6 /\ 0 <= snd c < Size qr).
  { intros c. apply zigzagFrom_elem; [lia |]. left. Z.div_mod_to_equations; lia. }
  exists q. split; [exact Hrun |]. split.
  - intros y. apply Hframe. intros Hin.
    apply list_elem_of_In, filter_In in Hin as [Hin _].
    apply list_elem_of_In, Hvisit in Hin. cbn [fst] in Hin. lia.
  - intros x y Hx Hy Hx6 Hfree.
    assert (Hin : (x, y) ∈ dataCells qr).
    { apply list_elem_of_In, filter_In. split.
      - apply list_elem_of_In, Hvisit. cbn [fst snd]. lia.
      - unfold isDataCell. cbn [fst snd]. apply andb_true_iff. split.
        + apply inBounds_spec. lia.
        + now apply bool_decide_eq_true. }
    apply list_elem_of_lookup in Hin as [k Hk]. exists k. split; [exact Hk |].
    exact (Hbits k (x, y) Hk).
Qed.

Lemma addData_skips_column_6_witness :
  wellFormed samplePatterns = true /\ 7 <= Size samplePatterns
  /\ Size samplePatterns mod 2 = 1 /\
  exists q, addData [104; 105] samplePatterns = Some q /\
    (forall y, moduleAt q 6 y = moduleAt samplePatterns 6 y) /\
    (forall x y, 0 <= x < Size samplePatterns -> 0 <= y < Size samplePatterns ->
       x <> 6 -> functionAt samplePatterns x y = Some false ->
       exists k, dataCells samplePatterns !! k = Some (x, y)
                 /\ moduleAt q x y = Some (dataBit [104; 105] k)).
Proof.
  split; [vm_compute; reflexivity |]. split; [vm_compute; discriminate |].
  split; [vm_compute; reflexivity |].
  apply (addData_skips_column_6 [104; 105] samplePatterns);
    [vm_compute; reflexivity | vm_compute; discriminate | vm_compute; reflexivity].
Defined.

(** ** Terminal renderer *)

Lemma seqZ_snoc n : 0 <= n -> seqZ 0 (n + 1) = seqZ 0 n ++ [n].
Proof.
  intros Hn. rewrite seqZ_app by lia. f_equal.
Qed.

Section Render.
Variable qr : QRCode.
Hypothesis Hwf : wellFormed qr = true.

(** One cell of the picture. *)
Lemma render_cell x y out :
  0 <= x < Size qr + 8 -> 0 <= y < Size qr + 8 ->
  (if (x <? 4) || (x >=? Size qr + 4) || (y <? 4) || (y >=? Size qr + 4)
   then Some (Print lightText out)
   else m ← index2 (Modules qr) (y - 4) (x - 4);
        if (m : bool) then Some (Print darkText out) else Some (Print lightText out))
  = Some (out ++ [pictureCell qr x y]).
Proof.
  intros Hx Hy. pose proof Hwf as Hsq. apply wellFormed_spec in Hsq as [Hsq _].
  unfold pictureCell, moduleAt.
  destruct ((x <? 4) || (x >=? Size qr + 4) || (y <? 4) || (y >=? Size qr + 4))
    eqn:Hquiet.
  - rewrite decide_False; [reflexivity |]. intros Hm.
    apply (index2_range _ _ _ _ _ Hsq) in Hm.
    rewrite !orb_true_iff in Hquiet. lia.
  - rewrite !orb_false_iff in Hquiet.
    destruct (index2_total _ _ (x - 4) (y - 4) Hsq) as [m Hm]; [lia | lia |].
    rewrite Hm. cbn [mbind option_bind].
    destruct m; [rewrite decide_True by reflexivity | rewrite decide_False by discriminate];
      reflexivity.
Qed.

(** One row of the picture. *)
Lemma render_row y out :
  0 <= y < Size qr + 8 ->
  for_ 0 (Size qr + 8)
    (fun x out =>
       if (x <? 4) || (x >=? Size qr + 4) || (y <? 4) || (y >=? Size qr + 4)
       then Some (Print lightText out)
       else m ← index2 (Modules qr) (y - 4) (x - 4);
            if (m : bool) then Some (Print darkText out) else Some (Print lightText out))
    out
  = Some (out ++ pictureRow qr y).
Proof.
  intros Hy. pose proof (wellFormed_size _ Hwf) as Hn.
  destruct (for_invariant
              (fun x o => o = out ++ map (fun x => pictureCell qr x y) (seqZ 0 x))
              (fun x out =>
                 if (x <? 4) || (x >=? Size qr + 4) || (y <? 4) || (y >=? Size qr + 4)
                 then Some (Print lightText out)
                 else m ← index2 (Modules qr) (y - 4) (x - 4);
                      if (m : bool) then Some (Print darkText out)
                      else Some (Print lightText out))
              0 (Size qr + 8) out) as (o & Hrun & Ho).
  - lia.
  - now rewrite app_nil_r.
  - intros x o Hx ->. eexists. split; [apply render_cell; lia |].
    rewrite seqZ_snoc, map_app by lia. now rewrite <- app_assoc.
  - rewrite Hrun, Ho. reflexivity.
Qed.
End Render.

(** The renderer writes the rows of the picture, top to bottom. *)
Lemma PrintToTerminal_rows (qr : QRCode) (out : list string) :
  wellFormed qr = true ->
  PrintToTerminal qr out
  = Some (out ++ printedRows qr (seqZ 0 (Size qr + 8))).
Proof.
  intros Hwf. pose proof (wellFormed_size _ Hwf) as Hn.
  unfold PrintToTerminal. cbv zeta. change (2 * 4) with 8.
  destruct (for_invariant
              (fun y o => o = out ++ printedRows qr (seqZ 0 y))
              (fun y out =>
                 out ← for_ 0 (Size qr + 8)
                   (fun x out =>
                      if (x <? 4) || (x >=? Size qr + 4) || (y <? 4)
                         || (y >=? Size qr + 4)
                      then Some (Print lightText out)
                      else m ← index2 (Modules qr) (y - 4) (x - 4);
                           if (m : bool) then Some (Print darkText out)
                           else Some (Print lightText out))
                   (Print "" out);
                 Some (Println "" out))
              0 (Size qr + 8) out) as (o & Hrun & Ho).
  - lia.
  - now rewrite app_nil_r.
  - intros y o Hy ->. rewrite render_row by (assumption || lia).
    cbn [mbind option_bind]. eexists. split; [reflexivity |].
    rewrite seqZ_snoc by lia. unfold printedRows.
    rewrite flat_map_app. cbn [flat_map]. rewrite app_nil_r.
    unfold Print, Println. cbn [String.append].
    now rewrite <- !app_assoc.
  - rewrite Hrun, Ho. reflexivity.
Qed.

(** X15. The renderer.  On a well-formed symbol [PrintToTerminal] returns
    and writes [Size + 8] lines: an empty string, [Size + 8] cells of two
    columns each, and a line feed.  The cell at column [x] of line [y] is
    two full blocks when the module at [(x - 4, y - 4)] is dark and two
    spaces otherwise; the four outermost cells on every side are
    light. *)
Theorem PrintToTerminal_picture (qr : QRCode) (out : list string) :
  wellFormed qr = true ->
  PrintToTerminal qr out
  = Some (out ++ printedRows qr (seqZ 0 (Size qr + 8)))
  /\ (forall x y, 0 <= x < Size qr -> 0 <= y < Size qr ->
        pictureCell qr (x + 4) (y + 4)
        = if decide (moduleAt qr x y = Some true) then darkText else lightText)
  /\ (forall x y, x < 4 \/ Size qr + 4 <= x \/ y < 4 \/ Size qr + 4 <= y ->
        pictureCell qr x y = lightText).
Proof.
  intros Hwf. split; [now apply PrintToTerminal_rows |]. split.
  - intros x y _ _. unfold pictureCell.
    now replace (x + 4 - 4) with x by lia; replace (y + 4 - 4) with y by lia.
  - intros x y Hq. pose proof Hwf as Hsq. apply wellFormed_spec in Hsq as [Hsq _].
    unfold pictureCell. rewrite decide_False; [reflexivity |]. intros Hm.
    apply (index2_range _ _ _ _ _ Hsq) in Hm. lia.
Qed.

Lemma PrintToTerminal_picture_witness :
  wellFormed sampleSymbol = true /\
  (PrintToTerminal sampleSymbol []
   = Some ([] ++ printedRows sampleSymbol (seqZ 0 (Size sampleSymbol + 8)))
   /\ (forall x y, 0 <= x < Size sampleSymbol -> 0 <= y < Size sampleSymbol ->
         pictureCell sampleSymbol (x + 4) (y + 4)
         = if decide (moduleAt sampleSymbol x y = Some true)
           then darkText else lightText)
   /\ (forall x y, x < 4 \/ Size sampleSymbol + 4 <= x \/ y < 4
                   \/ Size sampleSymbol + 4 <= y ->
         pictureCell sampleSymbol x y = lightText)).
Proof.
  split; [vm_compute; reflexivity |].
  apply (PrintToTerminal_picture sampleSymbol []). vm_compute; reflexivity.
Defined.

(** ** The stream in the generated symbol *)

(** The encoder reads the version, the level and the payload only. *)
Lemma encodeData_header q q' : sameHeader q q' -> encodeData q' = encodeData q.
Proof.
  intros (HV & _ & HL & _ & HD). destruct q, q'. cbn in HV, HL, HD. subst.
  reflexivity.
Qed.

(** X16. The generated symbol carries the encoded stream.  On a well-formed
    symbol of size at least 21 [Generate] returns a symbol in which the
    [k]-th data cell of the zigzag visit (the cells the pattern placers
    left unmarked) holds bit [k] of the output of [encodeData], toggled
    when the predicate of the selected mask holds there; the cells the
    format information is written to afterwards are excepted. *)
Theorem generated_symbol_carries_stream (qr : QRCode) :
  wellFormed qr = true -> 21 <= Size qr ->
  exists q' p bytes,
    Generate qr = Some (inr q') /\ placePatterns qr = Some p /\
    encodeData qr = Some bytes /\
    forall k c, dataCells p !! k = Some c ->
      writes (formatCells (Size qr)) (fst c) (snd c) = false ->
      moduleAt q' (fst c) (snd c)
      = Some (xorb (dataBit bytes k) (shouldMask (fst c) (snd c) (Mask q'))).
Proof.
  intros Hwf Hn.
  destruct (Generate_stages qr Hwf Hn)
    as (q1 & q2 & q3 & q4 & q5 & q7 & q8 & bytes & bm & Hst & H14 & Hgen).
  destruct Hst as ((E1 & _) & (E2 & _) & (E3 & _) & (E4 & P4) & E5 & (E6 & Hpl)
                   & (E7 & Hbm) & (E8 & W7 & Heq7 & Hmasked)
                   & (E9 & W8 & H78 & Hfmt & _)).
  pose proof (paints_wellFormed _ _ _ P4) as W4.
  destruct (addData_cells bytes q4 W4) as (q5' & E6' & W5 & Heq5 & Hbits & _).
  rewrite E6 in E6'. injection E6' as <-.
  assert (HS4 : Size q4 = Size qr) by apply H14.
  assert (HM8 : Mask q8 = bm).
  { destruct H78 as (_ & _ & _ & -> & _). rewrite Heq7. reflexivity. }
  exists q8, q4, bytes. split; [exact Hgen |]. split.
  { unfold placePatterns. rewrite E1. cbn [mbind option_bind].
    rewrite E2. cbn [mbind option_bind]. rewrite E3. cbn [mbind option_bind].
    exact E4. }
  split; [rewrite <- (encodeData_header qr q4 H14); exact E5 |].
  intros k [x y] Hk Hnofmt. cbn [fst snd] in *.
  assert (Hcell : isDataCell q4 (x, y) = true).
  { apply list_elem_of_lookup_2, list_elem_of_In, filter_In in Hk. apply Hk. }
  unfold isDataCell in Hcell. cbn [fst snd] in Hcell.
  apply andb_true_iff in Hcell as [Hin Hfree].
  apply inBounds_spec in Hin. apply bool_decide_eq_true in Hfree.
  destruct (Hfmt x y Hnofmt) as [-> _].
  rewrite Hmasked by lia. unfold maskedAt.
  change (moduleAt (withMask q5 bm) x y) with (moduleAt q5 x y).
  change (functionAt (withMask q5 bm) x y) with (functionAt q5 x y).
  replace (functionAt q5 x y) with (functionAt q4 x y)
    by (rewrite Heq5; reflexivity).
  pose proof (Hbits k (x, y) Hk) as Hbit. cbn [fst snd] in Hbit.
  rewrite Hbit, Hfree, HM8. reflexivity.
Qed.

Lemma generated_symbol_carries_stream_witness :
  wellFormed localhostSymbol = true /\ 21 <= Size localhostSymbol /\
  exists q' p bytes,
    Generate localhostSymbol = Some (inr q') /\ placePatterns localhostSymbol = Some p /\
    encodeData localhostSymbol = Some bytes /\
    forall k c, dataCells p !! k = Some c ->
      writes (formatCells (Size localhostSymbol)) (fst c) (snd c) = false ->
      moduleAt q' (fst c) (snd c)
      = Some (xorb (dataBit bytes k) (shouldMask (fst c) (snd c) (Mask q'))).
Proof.
  split; [vm_compute; reflexivity |]. split; [vm_compute; discriminate |].
  apply (generated_symbol_carries_stream localhostSymbol);
    [vm_compute; reflexivity | vm_compute; discriminate].
Defined.

(** ** From the URL to the picture *)

(** [Generate] keeps the header it was given. *)
Lemma Generate_header qr :
  wellFormed qr = true -> 21 <= Size qr ->
  exists q', Generate qr = Some (inr q') /\ wellFormed q' = true /\
    Version q' = Version qr /\ Size q' = Size qr /\ Level q' = Level qr /\
    Data q' = Data qr.
Proof.
  intros Hwf Hn.
  destruct (Generate_stages qr Hwf Hn)
    as (q1 & q2 & q3 & q4 & q5 & q7 & q8 & bytes & bm & Hst & H14 & Hgen).
  destruct Hst as (_ & _ & _ & _ & _ & (_ & Hpl) & _ & (_ & _ & Heq7 & _)
                   & (_ & W8 & H78 & _)).
  destruct Hpl as (_ & _ & Heq5 & _).
  destruct H14 as (HV & HS & HL & _ & HD).
  destruct H78 as (HV8 & HS8 & HL8 & _ & HD8).
  exists q8. split; [exact Hgen |]. split; [exact W8 |].
  split; [rewrite HV8, Heq7; cbn; rewrite Heq5; exact HV |].
  split; [rewrite HS8, Heq7; cbn; rewrite Heq5; exact HS |].
  split; [rewrite HL8, Heq7; cbn; rewrite Heq5; exact HL |].
  rewrite HD8, Heq7; cbn; rewrite Heq5; exact HD.
Qed.

(** A payload the sizer accepts is printed. *)
Lemma printSymbol_accepted url v el out :
  0 < len (bytesOf url) ->
  determineVersionAndErrorLevel (len (bytesOf url)) = Some (v, el) ->
  1 <= v <= 10 ->
  exists q,
    printSymbol url out = Some (inr (out ++ printedRows q (seqZ 0 (Size q + 8))))
    /\ wellFormed q = true /\ Version q = v /\ Level q = el
    /\ Size q = 21 + (v - 1) * 4 /\ Data q = bytesOf url.
Proof.
  intros Hlen Hsizer Hv.
  destruct (NewQRCode_accepts url v el Hlen Hsizer Hv) as (log & qr & Hnew & Hwf & Hqr).
  assert (HS : Size qr = 21 + (v - 1) * 4) by (rewrite Hqr; reflexivity).
  destruct (Generate_header qr Hwf ltac:(lia))
    as (q & Hgen & Hwfq & HV & HSq & HL & HD).
  exists q. unfold printSymbol. rewrite Hnew. cbn [mbind option_bind snd].
  rewrite Hgen. cbn [mbind option_bind].
  rewrite (PrintToTerminal_rows q out Hwfq). cbn [mbind option_bind].
  split; [reflexivity |]. split; [exact Hwfq |].
  rewrite HV, HL, HSq, HD, Hqr. cbn [Version Level Size Data]. auto.
Qed.

(** X17. From the URL to the picture.  For every non-empty string of at
    most 268 bytes the block of [Server] that prints the symbol ends
    without [log.Fatal]: [NewQRCode] and [Generate] return no error, and
    [PrintToTerminal] writes the picture of a symbol that has the bytes of
    the string as payload, the version and level the sizer selects for
    their number, and size [21 + 4 (version - 1)]. *)
Theorem printSymbol_succeeds (url : string) (out : list string) :
  url <> ""%string -> len (bytesOf url) <= 268 ->
  exists q,
    printSymbol url out = Some (inr (out ++ printedRows q (seqZ 0 (Size q + 8))))
    /\ Data q = bytesOf url
    /\ determineVersionAndErrorLevel (len (bytesOf url)) = Some (Version q, Level q)
    /\ 1 <= Version q <= 10 /\ Size q = 21 + (Version q - 1) * 4.
Proof.
  intros Hne Hlen.
  assert (Hpos : 0 < len (bytesOf url)).
  { rewrite len_bytesOf. destruct url; [congruence | simpl; lia]. }
  destruct (sizer_range (wrap (len (bytesOf url) + 3))) as (v & el & Hrun & Hcase).
  change (versionLoop (wrap (len (bytesOf url) + 3)) (seqZ 1 (len versionCapacity)))
    with (determineVersionAndErrorLevel (len (bytesOf url))) in Hrun.
  rewrite wrap_small in Hcase by (unfold int_min, int_max; lia).
  destruct Hcase as [(_ & _ & Hbig) | (Hv & _)]; [lia |].
  destruct (printSymbol_accepted url v el out Hpos Hrun Hv)
    as (q & Hprint & _ & HV & HL & HS & HD).
  exists q. rewrite HV, HL. auto 6.
Qed.

Lemma printSymbol_succeeds_witness :
  localhost <> ""%string /\ len (bytesOf localhost) <= 268 /\
  exists q,
    printSymbol localhost []
    = Some (inr ([] ++ printedRows q (seqZ 0 (Size q + 8))))
    /\ Data q = bytesOf localhost
    /\ determineVersionAndErrorLevel (len (bytesOf localhost))
       = Some (Version q, Level q)
    /\ 1 <= Version q <= 10 /\ Size q = 21 + (Version q - 1) * 4.
Proof.
  split; [discriminate |]. split; [vm_compute; discriminate |].
  apply (printSymbol_succeeds localhost []); [discriminate | vm_compute; discriminate].
Defined.

(** ** The symbol the server prints *)

(** Every port [getRandomPort] can return has four digits. *)
Lemma baseURL_length port :
  minPort <= port <= maxPort -> len (bytesOf (baseURL port)) = 21.
Proof.
  intros Hport.
  assert (Hall : forallb (fun p => len (bytesOf (baseURL p)) =? 21)
                   (seqZ minPort (maxPort - minPort + 1)) = true)
    by (vm_compute; reflexivity).
  rewrite forallb_forall in Hall. apply Z.eqb_eq. apply Hall.
  apply list_elem_of_In, elem_of_seqZ. lia.
Qed.

(** X18. The symbol of the server.  Whatever number below
    [maxPort - minPort + 1] the random source gives, [getRandomPort]
    returns a port from 1024 to 6969, the base URL has 21 bytes, and the
    server prints, without [log.Fatal], the 33 lines of the picture of a
    symbol of version 2, level Medium and size 25 that carries the
    URL. *)
Theorem Server_symbol (E : Type) (draw : Z) (out : list string) :
  0 <= draw < maxPort - minPort + 1 ->
  exists port q,
    getRandomPort (E := E) (inr draw) = inr port /\
    minPort <= port <= maxPort /\
    len (bytesOf (baseURL port)) = 21 /\
    printSymbol (baseURL port) out
    = Some (inr (out ++ printedRows q (seqZ 0 33))) /\
    Version q = 2 /\ Level q = Medium /\ Size q = 25 /\
    Data q = bytesOf (baseURL port).
Proof.
  intros Hdraw. exists (minPort + draw).
  assert (Hport : minPort <= minPort + draw <= maxPort) by lia.
  pose proof (baseURL_length _ Hport) as Hlen.
  destruct (printSymbol_accepted (baseURL (minPort + draw)) 2 Medium out)
    as (q & Hprint & _ & HV & HL & HS & HD).
  - lia.
  - rewrite Hlen. vm_compute. reflexivity.
  - lia.
  - exists q. split; [reflexivity |]. split; [exact Hport |]. split; [exact Hlen |].
    rewrite HS in Hprint. split; [exact Hprint |]. auto.
Qed.

Lemma Server_symbol_witness :
  0 <= 0 < maxPort - minPort + 1 /\
  exists port q,
    getRandomPort (E := unit) (inr 0) = inr port /\
    minPort <= port <= maxPort /\
    len (bytesOf (baseURL port)) = 21 /\
    printSymbol (baseURL port) []
    = Some (inr ([] ++ printedRows q (seqZ 0 33))) /\
    Version q = 2 /\ Level q = Medium /\ Size q = 25 /\
    Data q = bytesOf (baseURL port).
Proof.
  split; [unfold maxPort, minPort; lia |].
  apply (Server_symbol unit 0 []). unfold maxPort, minPort; lia.
Defined.

(** ** The bits of an integer *)

Lemma msbBits_S value n :
  msbBits value (Datatypes.S n) = Z.testbit value (Z.of_nat n) :: msbBits value n.
Proof. unfold msbBits. rewrite seq_S, rev_app_distr. reflexivity. Qed.

Lemma msbBits_lookup value n i :
  (i < n)%nat ->
  msbBits value n !! (n - 1 - i)%nat = Some (Z.testbit value (Z.of_nat i)).
Proof.
  induction n as [| n IH]; intros Hi; [lia |].
  rewrite msbBits_S. destruct (decide (i = n)) as [-> | Hne].
  - replace (Datatypes.S n - 1 - n)%nat with 0%nat by lia. reflexivity.
  - replace (Datatypes.S n - 1 - i)%nat with (Datatypes.S (n - 1 - i)) by lia.
    cbn [lookup list_lookup]. apply IH. lia.
Qed.

Lemma bitsValue_from bits acc :
  fold_left (fun a (b : bool) => 2 * a + (if b then 1 else 0)) bits acc
  = acc * 2 ^ len bits + bitsValue bits.
Proof.
  unfold bitsValue. revert acc. induction bits as [| b bits IH]; intros acc.
  - unfold len. simpl. lia.
  - cbn [fold_left]. rewrite IH, (IH (2 * 0 + _)).
    replace (len (b :: bits)) with (len bits + 1) by (unfold len; cbn [length]; lia).
    rewrite Z.pow_add_r by (pose proof (len_nonneg bits); lia). lia.
Qed.

Lemma bitsValue_msbBits value n :
  bitsValue (msbBits value n) = value mod 2 ^ Z.of_nat n.
Proof.
  induction n as [| n IH].
  - cbn. now rewrite Z.mod_1_r.
  - rewrite msbBits_S. unfold bitsValue. cbn [fold_left].
    rewrite bitsValue_from, IH, len_msbBits.
    rewrite Nat2Z.inj_succ, Z.pow_succ_r by lia.
    replace (2 * 2 ^ Z.of_nat n) with (2 ^ Z.of_nat n * 2) by lia.
    rewrite Z.rem_mul_r by lia.
    rewrite <- Z.testbit_spec' by lia.
    destruct (Z.testbit value (Z.of_nat n)); cbn [Z.b2z]; lia.
Qed.

(** X19. [intToBits] for every value and every length.  A negative length
    is the panic of [make]; otherwise [intToBits] returns [length] bits,
    bit [i] of the value at index [length - 1 - i], so that the bits read
    as a number, most significant bit first, give the value modulo
    [2 ^ length]. *)
Theorem intToBits_low_bits (value length : Z) :
  (length < 0 -> intToBits value length = None) /\
  (0 <= length ->
   exists bits,
     intToBits value length = Some bits /\ len bits = length /\
     (forall i, 0 <= i < length ->
        index bits (length - 1 - i) = Some (Z.testbit value i)) /\
     bitsValue bits = value mod 2 ^ length).
Proof.
  split.
  - intros Hneg. unfold intToBits, make.
    now replace (length <? 0) with true by (symmetry; apply Z.ltb_lt; lia).
  - intros Hlen. unfold intToBits, make.
    replace (length <? 0) with false by (symmetry; apply Z.ltb_ge; lia).
    cbn [mbind option_bind].
    destruct (for_invariant
                (fun i bits => len bits = length /\
                   forall j, 0 <= j < i ->
                     bits !! Z.to_nat (length - 1 - j) = Some (Z.testbit value j))
                (fun i bits => store bits (length - 1 - i) (bitAt value i))
                0 length (replicate (Z.to_nat length) false))
      as (bits & Hrun & Hl & Hbits).
    + exact Hlen.
    + split; [rewrite len_replicate; lia | intros j Hj; lia].
    + intros i bits Hi [Hl Hbits]. eexists. split.
      * apply store_Some. split; [lia | reflexivity].
      * split; [unfold len in *; now rewrite length_insert |].
        intros j Hj. destruct (Z.eq_dec j i) as [-> | Hne].
        -- rewrite list_lookup_insert_eq by (unfold len in Hl; lia).
           now rewrite bitAt_testbit by lia.
        -- rewrite list_lookup_insert_ne by lia. apply Hbits. lia.
    + exists bits. split; [exact Hrun |]. split; [exact Hl |].
      assert (Heq : bits = msbBits value (Z.to_nat length)).
      { apply list_eq. intros k.
        destruct (Nat.lt_ge_cases k (Z.to_nat length)) as [Hk | Hk].
        - specialize (Hbits (length - 1 - Z.of_nat k) ltac:(lia)).
          replace (Z.to_nat (length - 1 - (length - 1 - Z.of_nat k))) with k in Hbits by lia.
          rewrite Hbits.
          pose proof (msbBits_lookup value (Z.to_nat length)
                        (Z.to_nat length - 1 - k) ltac:(lia)) as Hm.
          replace (Z.to_nat length - 1 - (Z.to_nat length - 1 - k))%nat with k in Hm by lia.
          rewrite Hm. do 2 f_equal. lia.
        - rewrite !lookup_ge_None_2; [reflexivity | |].
          + pose proof (len_msbBits value (Z.to_nat length)) as H. unfold len in H. lia.
          + unfold len in Hl. lia. }
      split.
      * intros i Hi. apply index_Some. split; [lia |]. now apply Hbits.
      * rewrite Heq, bitsValue_msbBits. now rewrite Z2Nat.id by lia.
Qed.

(** ** The mask search hands the symbol back *)

(** X20. [findBestMask] leaves the symbol as it found it.  On every
    well-formed symbol it returns a mask index from 0 to 7 together with
    the symbol it was given: each of the eight masks is applied and
    removed again; and each candidate is scored with a penalty between 0
    and [Size * Size]. *)
Theorem findBestMask_hands_back (qr : QRCode) :
  wellFormed qr = true ->
  exists bestMask,
    findBestMask qr = Some (bestMask, qr) /\ 0 <= bestMask <= 7 /\
    forall mask, exists p,
      maskedPenalty qr mask = Some p /\ 0 <= p <= Size qr * Size qr.
Proof.
  intros Hwf.
  destruct (findBestMask_spec qr Hwf) as (bm & bp & Hrun & _ & Hbm0 & Hbm & _).
  exists bm. split; [exact Hrun |]. split; [lia |].
  intros mask.
  destruct (maskedPenalty_spec qr mask Hwf) as (q1 & _ & _ & _ & _ & Hp & _).
  eexists. split; [exact Hp |]. apply (maskedPenalty_bound qr mask _ Hwf Hp).
Qed.

Lemma findBestMask_hands_back_witness :
  wellFormed sampleSymbol = true /\
  exists bestMask,
    findBestMask sampleSymbol = Some (bestMask, sampleSymbol) /\ 0 <= bestMask <= 7 /\
    forall mask, exists p,
      maskedPenalty sampleSymbol mask = Some p
      /\ 0 <= p <= Size sampleSymbol * Size sampleSymbol.
Proof.
  split; [vm_compute; reflexivity |].
  apply (findBestMask_hands_back sampleSymbol). vm_compute; reflexivity.
Defined.
